(** * ort_to_rat: ORSO sample models to RAT MATLAB projects

    A shallow embedding of the conversion pipeline
    ([bilayer_utils.py], [file_utils.py], [orsopy_extract.py],
    [emit_matlab_model.py], [emit_matlab_driver.py], [__main__.py])
    and the properties of it that the specification states.

    Conventions of the embedding:
    - a Python [str] is the list of its Unicode code points ([pystr]);
    - a Python [float] is the rational it denotes ([Q]); arithmetic on
      floats is exact rational arithmetic, and [==] on [Q] is read as
      float equality;
    - a [dict] used as a map is a [gmap], a [set] is a [gset];
    - a raised exception is the left injection of [result];
    - the generated MATLAB text is kept as a list of structured lines, one
      constructor per line template of the emitter. *)

From Stdlib Require Import QArith Qabs Qminmax Qround Lqa.
From stdpp Require Import base option list gmap sets strings pretty.

Open Scope N_scope.

(** ** Python strings *)

Module PyStr.

Definition pychar := N.
Definition pystr := list N.

(** A literal of the source, as code points. *)
Definition py (s : string) : pystr :=
  (fun a => Ascii.N_of_ascii a) <$> String.list_ascii_of_string s.

(** [str.isspace] for one character; the set is also what [\s] matches in
    a [str] pattern and what [str.strip()] removes. *)
Definition is_space (c : pychar) : bool :=
  ((9 <=? c) && (c <=? 13)) || ((28 <=? c) && (c <=? 32))
  || (c =? 133) || (c =? 160) || (c =? 5760)
  || ((8192 <=? c) && (c <=? 8202))
  || (c =? 8232) || (c =? 8233) || (c =? 8239) || (c =? 8287)
  || (c =? 12288).

(** The character class [[A-Za-z0-9_]]. *)
Definition is_word (c : pychar) : bool :=
  ((65 <=? c) && (c <=? 90)) || ((97 <=? c) && (c <=? 122))
  || ((48 <=? c) && (c <=? 57)) || (c =? 95).

Definition is_ascii (c : pychar) : bool := c <? 128.

Fixpoint drop_while (p : pychar -> bool) (s : pystr) : pystr :=
  match s with
  | [] => []
  | c :: s' => if p c then drop_while p s' else s
  end.

Fixpoint take_while (p : pychar -> bool) (s : pystr) : pystr :=
  match s with
  | [] => []
  | c :: s' => if p c then c :: take_while p s' else []
  end.

Definition lstrip (s : pystr) : pystr := drop_while is_space s.
Definition rstrip (s : pystr) : pystr := reverse (drop_while is_space (reverse s)).
(** [s.strip()] *)
Definition strip (s : pystr) : pystr := rstrip (lstrip s).

(** [s.split(sep)] for a one-character separator. *)
Fixpoint split (sep : pychar) (s : pystr) : list pystr :=
  match s with
  | [] => [[]]
  | c :: s' =>
      if c =? sep then [] :: split sep s'
      else match split sep s' with
           | [] => [[c]]
           | t :: ts => (c :: t) :: ts
           end
  end.

(** [sep.join(l)] *)
Fixpoint join (sep : pystr) (l : list pystr) : pystr :=
  match l with
  | [] => []
  | [t] => t
  | t :: ts => t ++ sep ++ join sep ts
  end.

(** [s.startswith(p)], returning what follows the prefix. *)
Fixpoint strip_prefix (p s : pystr) : option pystr :=
  match p, s with
  | [], _ => Some s
  | a :: p', b :: s' => if a =? b then strip_prefix p' s' else None
  | _ :: _, [] => None
  end.

(** [re.sub(r"\s+", " ", s)]; [in_run] says that the previous character
    was already part of the run being replaced. *)
Fixpoint collapse_ws_from (in_run : bool) (s : pystr) : pystr :=
  match s with
  | [] => []
  | c :: s' =>
      if is_space c
      then (if in_run then [] else [32%N]) ++ collapse_ws_from true s'
      else c :: collapse_ws_from false s'
  end.
Definition collapse_ws (s : pystr) : pystr := collapse_ws_from false s.

(** [str(i)] for a non-negative integer. *)
Definition str_of_nat (i : nat) : pystr := py (pretty i).

End PyStr.
Export PyStr.

(** ** bilayer_utils.py: stack tokens *)

Module BilayerTokens.

(** A raw bilayer token [{'inner': ..., 'outer': ...}]. *)
Record bilayer_token := BilayerToken { inner : pystr; outer : pystr }.

(** The steps of [RE_BILAYER]: a literal, [\s*], and [([A-Za-z0-9_]+)].
    No step can give back characters to the next one (a literal never
    starts with a space, what follows an identifier is never a word
    character), so the greedy match is the only one. *)
Definition lit (p : string) (s : pystr) : option pystr := strip_prefix (py p) s.
Definition ws (s : pystr) : pystr := drop_while is_space s.
Definition ident (s : pystr) : option (pystr * pystr) :=
  match take_while is_word s with
  | [] => None
  | id => Some (id, drop_while is_word s)
  end.

(** [RE_BILAYER.match(t)], returning groups 1 and 2:
    [^bilayer\s*\(\s*inner\s*=\s*([A-Za-z0-9_]+)\s*,\s*outer\s*=\s*([A-Za-z0-9_]+)\s*\)\s*$] *)
Definition RE_BILAYER (t : pystr) : option (pystr * pystr) :=
  s ← lit "bilayer" t;
  s ← lit "(" (ws s);
  s ← lit "inner" (ws s);
  s ← lit "=" (ws s);
  '(g1, s) ← ident (ws s);
  s ← lit "," (ws s);
  s ← lit "outer" (ws s);
  s ← lit "=" (ws s);
  '(g2, s) ← ident (ws s);
  s ← lit ")" (ws s);
  match ws s with
  | [] => Some (g1, g2)
  | _ => None
  end.

(** The loop of [extract_bilayers_from_model] over the stripped tokens:
    the bilayers found and the tokens kept. *)
Fixpoint scan_tokens (tokens : list pystr) : list bilayer_token * list pystr :=
  match tokens with
  | [] => ([], [])
  | t :: ts =>
      let '(bilayers, kept) := scan_tokens ts in
      match RE_BILAYER t with
      | Some (g1, g2) => (BilayerToken g1 g2 :: bilayers, kept)
      | None => (bilayers, t :: kept)
      end
  end.

Definition tokenize (stack : pystr) : list pystr :=
  strip <$> split 124 stack.

(** [extract_bilayers_from_model(model)]: the returned bilayers and the
    value written back to [model.stack]. *)
Definition extract_bilayers_from_model (stack : pystr) : list bilayer_token * pystr :=
  let '(bilayers, kept) := scan_tokens (tokenize stack) in
  (bilayers, join (py " | ") kept).

End BilayerTokens.
Export BilayerTokens.

(** ** Exceptions *)

Inductive exn :=
| RuntimeError (msg : string)
| IndexError (what : string)
| AttributeError (what : string).

(** The outcome of a call that may raise. *)
Inductive result (A : Type) :=
| Ok (a : A)
| Raise (e : exn).
Arguments Ok {A} a.
Arguments Raise {A} e.

#[export] Instance result_ret : MRet result := fun A a => Ok a.
#[export] Instance result_bind : MBind result := fun A B f r =>
  match r with
  | Ok a => f a
  | Raise e => Raise e
  end.

Definition is_Ok {A} (r : result A) : bool :=
  match r with Ok _ => true | Raise _ => false end.

Open Scope Q_scope.

(** ** bilayer_utils.py: lipid constants and enriched bilayer specs *)

Module Lipids.

(** What molgroups exposes of a lipid, as far as the resolver looks. An
    absent attribute is [None]. *)
Inductive nsl_value :=
| NslScalar (x : Q)
| NslArray (xs : list Q).

Record component := Component {
  cell_volume : option Q;
  nSLs : option nsl_value;
}.

Record lipid := Lipid {
  (** [obj.headgroup[1]["components"]]; [None] when the expression raises *)
  headgroup_components : option (list component);
  headgroup_volume : option Q;
  (** [obj.tails]; [None] when the attribute is missing *)
  tails : option component;
}.

(** [getattr(lipids, name, None)] *)
Definition lipid_table := pystr -> option lipid.

(** Python's [sum]: left to right from [0]. *)
Definition pysum (l : list Q) : Q := fold_left Qplus l 0.

(** The argument of [scalar_nsl]: one attribute value, or the list built
    from the head components. *)
Inductive nsl_arg :=
| ArgValue (v : nsl_value)
| ArgList (vs : list nsl_value).

Definition scalars_of (vs : list nsl_value) : option (list Q) :=
  mapM (fun v => match v with NslScalar x => Some x | NslArray _ => None end) vs.

Definition arrays_of (vs : list nsl_value) : option (list (list Q)) :=
  mapM (fun v => match v with NslArray xs => Some xs | NslScalar _ => None end) vs.

Definition same_length (xss : list (list Q)) : bool :=
  match xss with
  | [] => true
  | xs :: rest => forallb (fun ys => Nat.eqb (length ys) (length xs)) rest
  end.

(** [float(np.array(x).sum())]; [None] when numpy refuses the shape (a
    list mixing scalars and arrays, or arrays of different lengths, which
    numpy from 1.24 on rejects with a [ValueError]). *)
Definition np_array_sum (x : nsl_arg) : option Q :=
  match x with
  | ArgValue (NslScalar v) => Some v
  | ArgValue (NslArray xs) => Some (pysum xs)
  | ArgList vs =>
      match scalars_of vs with
      | Some xs => Some (pysum xs)
      | None =>
          match arrays_of vs with
          | Some xss => if same_length xss then Some (pysum (concat xss)) else None
          | None => None
          end
      end
  end.

(** [float(x)]; [None] when it raises. *)
Definition float_of (x : nsl_arg) : option Q :=
  match x with
  | ArgValue (NslScalar v) => Some v
  | ArgValue (NslArray [v]) => Some v
  | _ => None
  end.

(** [scalar_nsl(x)]; [has_np] is [np is not None]. *)
Definition scalar_nsl (has_np : bool) (x : nsl_arg) : Q :=
  if negb has_np then
    match float_of x with Some v => v | None => 0 end
  else
    match np_array_sum x with
    | Some v => v
    | None => match float_of x with Some v => v | None => 0 end
    end.

Record lipid_constants := LipidConstants {
  const_name : pystr;
  head_vol : Q;
  head_sld : Q;
  tail_vol : Q;
  tail_sld : Q;
}.

(** [getattr(c, attr, 0.0)] *)
Definition attr_or_zero (a : option Q) : Q := default 0 a.
Definition nsl_or_zero (a : option nsl_value) : nsl_value := default (NslScalar 0) a.

Definition DPPC : pystr := py "DPPC".

(** The head block of [get_lipid_constants]: [(head_vol, head_nsl)] after
    the [try]. *)
Definition head_of (obj : lipid) : Q * Q :=
  match headgroup_components obj with
  | Some head_components =>
      (pysum ((fun c => attr_or_zero (cell_volume c)) <$> head_components),
       scalar_nsl true (ArgList ((fun c => nsl_or_zero (nSLs c)) <$> head_components)))
  | None => (0, 0)
  end.

(** The tail block: [(tail_vol, tail_nsl)] after the [try]. *)
Definition tail_of (obj : lipid) : Q * Q :=
  match tails obj with
  | Some tail =>
      (attr_or_zero (cell_volume tail),
       scalar_nsl true (ArgValue (nsl_or_zero (nSLs tail))))
  | None => (0, 0)
  end.

(** [nsl * 1e-5 / vol] under its guard. *)
Definition sld_of (vol nsl : Q) : Q :=
  if negb (Qle_bool vol 0) && negb (Qeq_bool nsl 0)
  then nsl * (1 # 100000) / vol
  else 0.

(** [get_lipid_constants(lipid_name)]. [molgroups] is [None] when
    [HAS_MOLGROUPS] is false; the result [None] is Python's [None]. *)
Definition get_lipid_constants (molgroups : option lipid_table) (lipid_name : pystr)
  : result (option lipid_constants) :=
  match molgroups with
  | None => Ok None
  | Some lipids =>
      obj ← match lipids lipid_name with
            | Some obj => Ok obj
            | None =>
                match lipids DPPC with
                | Some obj => Ok obj
                | None => Raise (AttributeError "DPPC")
                end
            end;
      let '(head_vol, head_nsl) := head_of obj in
      let head_vol :=
        if Qle_bool head_vol 0 then attr_or_zero (headgroup_volume obj) else head_vol in
      let head_vol := if Qle_bool head_vol 0 then 330 else head_vol in
      let head_sld := sld_of head_vol head_nsl in
      let '(tail_vol, tail_nsl) := tail_of obj in
      let tail_vol := if Qle_bool tail_vol 0 then 800 else tail_vol in
      let tail_sld := sld_of tail_vol tail_nsl in
      Ok (Some (LipidConstants lipid_name head_vol head_sld tail_vol tail_sld))
  end.

(** The four flat keys of one leaflet ([v_head_*], [sld_head_*],
    [v_tail_*], [sld_tail_*]). *)
Record flat_lipid := FlatLipid {
  v_head : Q;
  sld_head : Q;
  v_tail : Q;
  sld_tail : Q;
}.

(** [_flatten_lipid(prefix, consts)] *)
Definition _flatten_lipid (consts : option lipid_constants) : flat_lipid :=
  match consts with
  | None => FlatLipid 300 (1 # 1000000) 800 (1 # 1000000)
  | Some c => FlatLipid (head_vol c) (head_sld c) (tail_vol c) (tail_sld c)
  end.

(** An enriched bilayer spec. *)
Record bilayer_spec := BilayerSpec {
  spec_inner : pystr;
  spec_outer : pystr;
  v_head_inner : Q;
  v_tail_inner : Q;
  v_head_outer : Q;
  v_tail_outer : Q;
  sld_head_inner : Q;
  sld_tail_inner : Q;
  sld_head_outer : Q;
  sld_tail_outer : Q;
}.

Definition merge_spec (tok : bilayer_token) (fi fo : flat_lipid) : bilayer_spec :=
  BilayerSpec (inner tok) (outer tok)
    (v_head fi) (v_tail fi) (v_head fo) (v_tail fo)
    (sld_head fi) (sld_tail fi) (sld_head fo) (sld_tail fo).

(** A computation that records, in call order, the identifiers passed to
    [get_lipid_constants]. *)
Definition traced (A : Type) : Type := list pystr * result A.

(** The [for] loop of [build_bilayer_specs]; [calls] and [bilayer_specs]
    are what has been accumulated so far. *)
Fixpoint build_loop (molgroups : option lipid_table) (raw : list bilayer_token)
    (calls : list pystr) (bilayer_specs : list bilayer_spec)
  : traced (list bilayer_spec) :=
  match raw with
  | [] => (calls, Ok bilayer_specs)
  | spec :: rest =>
      match get_lipid_constants molgroups (inner spec) with
      | Raise e => (calls ++ [inner spec], Raise e)
      | Ok inner_consts =>
          match get_lipid_constants molgroups (outer spec) with
          | Raise e => (calls ++ [inner spec; outer spec], Raise e)
          | Ok outer_consts =>
              build_loop molgroups rest (calls ++ [inner spec; outer spec])
                (bilayer_specs ++
                   [merge_spec spec (_flatten_lipid inner_consts)
                      (_flatten_lipid outer_consts)])
          end
      end
  end.

(** [build_bilayer_specs(bilayer_specs_raw)], with the resolver calls it
    made. The argument is [None] for Python's [None]. *)
Definition build_bilayer_specs_traced (molgroups : option lipid_table)
    (bilayer_specs_raw : option (list bilayer_token)) : traced (list bilayer_spec) :=
  match bilayer_specs_raw with
  | None | Some [] => ([], Ok [])
  | Some raw =>
      match molgroups with
      | None =>
          ([], Raise (RuntimeError
             "Detected bilayer(...) in model stack, but molgroups.lipids is not installed."))
      | Some _ => build_loop molgroups raw [] []
      end
  end.

Definition build_bilayer_specs (molgroups : option lipid_table)
    (bilayer_specs_raw : option (list bilayer_token)) : result (list bilayer_spec) :=
  snd (build_bilayer_specs_traced molgroups bilayer_specs_raw).

End Lipids.
Export Lipids.

(** ** orsopy_extract.py *)

Module Orso.

(** *** What orsopy hands over *)

Record material := Material {
  mat_name : option pystr;
  formula : option pystr;
  (** [float(material.get_sld().real)]; [None] when it raises *)
  get_sld : option Q;
}.

(** A value with a unit; [as_unit("angstrom")] gives [None] when it raises. *)
Record quantity := Quantity { as_angstrom : option Q }.

Record orso_layer := OrsoLayer {
  original_name : option pystr;
  layer_material : option material;
  thickness : option quantity;
  roughness : option quantity;
}.

Record sample_model := SampleModel {
  stack : pystr;
  (** [model.resolve_to_layers()] on the current value of [model.stack];
      [None] when it raises *)
  resolve_to_layers : pystr -> option (list orso_layer);
}.

Record dataset := Dataset {
  sample_name : option pystr;
  model : option sample_model;
}.

(** *** What the extractor produces *)

Record layer := Layer {
  l_name : pystr;
  l_thickness : Q;
  l_sld : Q;
  l_roughness : Q;
}.

Record bulk := Bulk {
  b_name : pystr;
  b_sld : Q;
}.

(** [safe_get_sld(material)] *)
Definition safe_get_sld (m : option material) : Q :=
  match m with
  | Some m => default 0 (get_sld m)
  | None => 0
  end.

Definition KNOWN_BULKS : list pystr :=
  [py "D2O"; py "H2O"; py "AuMW"; py "SiMW"; py "SMW"; py "Si"; py "Air"].

(** [p in s] *)
Fixpoint contains (p s : pystr) : bool :=
  match strip_prefix p s with
  | Some _ => true
  | None => match s with
            | [] => false
            | _ :: s' => contains p s'
            end
  end.

Definition nonblank (s : pystr) : bool :=
  match strip s with [] => false | _ => true end.

Section WithUnicode.
(** [str.lower], a table of the Unicode database. *)
Variable lower : pystr -> pystr.

(** The first known bulk whose lower-cased name occurs in [s.lower()]. *)
Definition known_bulk_in (s : pystr) : option pystr :=
  List.find (fun kb => contains (lower kb) (lower s)) KNOWN_BULKS.

(** [infer_bulk_name_from_layer(layer, fallback)] *)
Definition infer_bulk_name_from_layer (li : orso_layer) (fallback : pystr) : pystr :=
  let mat := layer_material li in
  let by_name :=
    name ← mat ≫= mat_name;
    if nonblank name then known_bulk_in name else None in
  let by_orig :=
    orig ← original_name li;
    if nonblank orig then known_bulk_in orig else None in
  let by_formula :=
    match mat with
    | Some m =>
        match formula m with
        | Some formula =>
            let f := lower formula in
            if contains (py "d2o") f then Some (py "D2O")
            else if contains (py "h2o") f then Some (py "H2O")
            else None
        | None => None
        end
    | None => None
    end in
  match by_name, by_orig, by_formula with
  | Some kb, _, _ => kb
  | None, Some kb, _ => kb
  | None, None, Some kb => kb
  | None, None, None => fallback
  end.
End WithUnicode.

(** Python's [a or b] on optional strings: [None] and [""] are falsy. *)
Definition truthy (a : option pystr) : option pystr :=
  match a with
  | Some [] | None => None
  | Some s => Some s
  end.

Definition malformed : exn := RuntimeError "Malformed layer encountered".

(** [float(q.as_unit("angstrom"))] when the attribute is not [None], else
    the default. *)
Definition angstrom_or (q : option quantity) (dflt : Q) : result Q :=
  match q with
  | None => Ok dflt
  | Some q => match as_angstrom q with
              | Some v => Ok v
              | None => Raise malformed
              end
  end.

(** [_extract_layer(li)] *)
Definition _extract_layer (li : orso_layer) : result layer :=
  let layer_name :=
    match truthy (original_name li), truthy (layer_material li ≫= mat_name) with
    | Some n, _ => n
    | None, Some n => n
    | None, None => py "Layer"
    end in
  thickness ← angstrom_or (thickness li) 0;
  let sld := safe_get_sld (layer_material li) in
  rough ← angstrom_or (roughness li) 3;
  Ok (Layer (strip layer_name) thickness sld rough).

(** Does [\s*th=.*$] match at the start of [s]? If so, what follows the
    match (nothing, or the final newline). *)
Definition th_match (s : pystr) : option pystr :=
  rest ← strip_prefix (py "th=") (drop_while is_space s);
  match drop_while (fun c => negb (c =? 10)%N) rest with
  | [] => Some []
  | [10%N] => Some [10%N]
  | _ => None
  end.

(** [re.sub(r"\s*th=.*$", "", name)] *)
Fixpoint sub_th (s : pystr) : pystr :=
  match th_match s with
  | Some after => after
  | None => match s with
            | [] => []
            | c :: s' => c :: sub_th s'
            end
  end.

(** [s.replace("_", r"\_")] *)
Definition escape_underscores (s : pystr) : pystr :=
  s ≫= (fun c => if (c =? 95)%N then [92%N; 95%N] else [c]).

(** The locals of [process_orso_file] that the loop updates. *)
Record extraction := Extraction {
  layers_all : list (list layer);
  bulk_ins : list bulk;
  bulk_outs : list bulk;
  contrast_names : list pystr;
  bilayer_specs_raw : option (list bilayer_token);
}.

Definition extraction_start : extraction := Extraction [] [] [] [] None.

(** The layers of one contrast: a layer that [_extract_layer] rejects is
    caught and left out. *)
Definition collect_layers (resolved_layers : list orso_layer) : list layer :=
  omap (fun li => match _extract_layer li with
                  | Ok l => Some l
                  | Raise _ => None
                  end) resolved_layers.

Section WithUnicode.
Variable lower : pystr -> pystr.

(** One iteration of the loop over the datasets; [i] counts from 1. *)
Definition process_dataset (i : nat) (ds : dataset) (st : extraction) : extraction :=
  let name := default (py "Contrast_" ++ str_of_nat i) (sample_name ds) in
  let contrast_label := strip (sub_th name) in
  let names := contrast_names st ++ [escape_underscores contrast_label] in
  match model ds with
  | None =>
      Extraction (layers_all st) (bulk_ins st) (bulk_outs st) names (bilayer_specs_raw st)
  | Some m =>
      let '(bilayers_here, new_stack) := extract_bilayers_from_model (stack m) in
      let raw :=
        match bilayers_here, bilayer_specs_raw st with
        | _ :: _, None => Some bilayers_here
        | _, old => old
        end in
      let skipped := Extraction (layers_all st) (bulk_ins st) (bulk_outs st) names raw in
      match resolve_to_layers m new_stack with
      | None => skipped
      | Some resolved_layers =>
          match resolved_layers, last resolved_layers with
          | bulk_in_layer :: _ :: _, Some bulk_out_layer =>
              let contrast_layers := collect_layers resolved_layers in
              let bulk_in :=
                Bulk (infer_bulk_name_from_layer lower bulk_in_layer (py "Substrate"))
                     (safe_get_sld (layer_material bulk_in_layer)) in
              let bulk_out :=
                Bulk (infer_bulk_name_from_layer lower bulk_out_layer (py "Air"))
                     (safe_get_sld (layer_material bulk_out_layer)) in
              Extraction (layers_all st ++ [contrast_layers])
                         (bulk_ins st ++ [bulk_in]) (bulk_outs st ++ [bulk_out])
                         names raw
          | _, _ => skipped
          end
      end
  end.

(** The loop [for i, ds in enumerate(orso_data, start=1)]. *)
Fixpoint process_datasets (i : nat) (orso_data : list dataset) (st : extraction)
  : extraction :=
  match orso_data with
  | [] => st
  | ds :: rest => process_datasets (S i) rest (process_dataset i ds st)
  end.

(** What [process_orso_file] returns. *)
Record extracted := Extracted {
  x_layers_all : list (list layer);
  x_bulk_ins : list bulk;
  x_bulk_outs : list bulk;
  x_contrast_names : list pystr;
  x_bilayer_specs : list bilayer_spec;
}.

(** [process_orso_file(ort_path)], from the datasets [load_orso] gave. *)
Definition process_orso_file (molgroups : option lipid_table)
    (orso_data : list dataset) : result extracted :=
  let st := process_datasets 1 orso_data extraction_start in
  match layers_all st with
  | [] => Raise (RuntimeError "No valid models found in the ORSO file.")
  | _ :: _ =>
      bilayer_specs ← build_bilayer_specs molgroups (bilayer_specs_raw st);
      Ok (Extracted (layers_all st) (bulk_ins st) (bulk_outs st)
            (contrast_names st) bilayer_specs)
  end.
End WithUnicode.

End Orso.
Export Orso.

(** ** The generated MATLAB model function, as structured lines *)

Module Matlab.

Inductive layer_field := Thick | SLD | Rough.
Inductive bilayer_param :=
| APM | HeadHydInner | HeadHydOuter | BilayerHydration | BRough.
Inductive sublayer := HeadInner | TailInner | TailOuter | HeadOuter.

(** The workspace variables of the generated function other than [idx]
    and [output]. The text of each is in [var_text]. *)
Inductive mvar :=
| subRough
| layerVar (i : nat) (f : layer_field)
| LVar (i : nat)
| bilayerVar (j : nat) (p : bilayer_param)
| vConst (j : nat) (s : sublayer)
| sldConst (j : nat) (s : sublayer)
| subThick (j : nat) (s : sublayer)
| subSLD (j : nat) (s : sublayer)
| bilayerRough (j : nat)
| subRow (j : nat) (s : sublayer)
| bilayerBlock (j : nat).






#[export] Instance layer_field_eq_dec : EqDecision layer_field.
Proof. solve_decision. Defined.
#[export] Instance bilayer_param_eq_dec : EqDecision bilayer_param.
Proof. solve_decision. Defined.
#[export] Instance sublayer_eq_dec : EqDecision sublayer.
Proof. solve_decision. Defined.
#[export] Instance mvar_eq_dec : EqDecision mvar.
Proof. solve_decision. Defined.

(** Right-hand sides of the scalar assignments. [EBulkOut] is
    [bulkOut(contrast)]. *)
Inductive mexpr :=
| EVar (v : mvar)
| EOne
| EBulkOut
| EAdd (a b : mexpr)
| ESub (a b : mexpr)
| EMul (a b : mexpr)
| EDiv (a b : mexpr).

(** One line of the generated function.
    - [MRead v]:      [v = params(idx); idx = idx + 1;]
    - [MConst v x]:   [v = x;]
    - [MAssign v e]:  [v = e;]
    - [MRow v a b c]: [v = [a, b, c];]
    - [MBlock v rs]:  [v = [r1; r2; ...];]
    - [MAppend v]:    [output = [output; v];] *)
Inductive mline :=
| MHeader (fn : pystr)
| MIdxInit
| MRead (v : mvar)
| MBlank
| MComment (text : pystr)
| MConst (v : mvar) (x : Q)
| MOutputInit
| MAssign (v : mvar) (e : mexpr)
| MRow (v a b c : mvar)
| MBlock (v : mvar) (rows : list mvar)
| MAppend (v : mvar)
| MEnd.

(** *** Running the generated function *)

Definition row := (Q * Q * Q)%type.

Inductive value :=
| VNum (x : Q)
| VMat (rows : list row).

Record workspace := Workspace {
  vars : mvar -> option value;
  idx : option nat;
  output : option (list row);
}.

Definition empty_workspace : workspace := Workspace (fun _ => None) None None.

Definition get_num (w : workspace) (v : mvar) : option Q :=
  match vars w v with Some (VNum x) => Some x | _ => None end.

Definition get_mat (w : workspace) (v : mvar) : option (list row) :=
  match vars w v with Some (VMat r) => Some r | _ => None end.

Definition set_var (w : workspace) (v : mvar) (x : value) : workspace :=
  Workspace (fun u => if decide (u = v) then Some x else vars w u) (idx w) (output w).

(** MATLAB indexing [xs(i)], from 1; [None] is an index error. *)
Definition index1 (xs : list Q) (i : nat) : option Q :=
  match i with
  | O => None
  | S k => xs !! k
  end.

Section Run.
Variables (params bulkOut : list Q) (contrast : nat).

Fixpoint eval (w : workspace) (e : mexpr) : option Q :=
  match e with
  | EVar v => get_num w v
  | EOne => Some 1
  | EBulkOut => index1 bulkOut contrast
  | EAdd a b => x ← eval w a; y ← eval w b; Some (x + y)
  | ESub a b => x ← eval w a; y ← eval w b; Some (x - y)
  | EMul a b => x ← eval w a; y ← eval w b; Some (x * y)
  | EDiv a b => x ← eval w a; y ← eval w b; Some (x / y)
  end.

(** One line; [None] when MATLAB would stop with an error (an undefined
    variable, an index out of range, a concatenation of the wrong
    shape). *)
Definition exec_line (l : mline) (w : workspace) : option workspace :=
  match l with
  | MHeader _ | MBlank | MComment _ | MEnd => Some w
  | MIdxInit => Some (Workspace (vars w) (Some 1%nat) (output w))
  | MRead v =>
      i ← idx w;
      x ← index1 params i;
      Some (Workspace (vars (set_var w v (VNum x))) (Some (S i)) (output w))
  | MConst v x => Some (set_var w v (VNum x))
  | MOutputInit => Some (Workspace (vars w) (idx w) (Some []))
  | MAssign v e => x ← eval w e; Some (set_var w v (VNum x))
  | MRow v a b c =>
      x ← get_num w a; y ← get_num w b; z ← get_num w c;
      Some (set_var w v (VMat [(x, y, z)]))
  | MBlock v rows =>
      rs ← mapM (get_mat w) rows;
      Some (set_var w v (VMat (concat rs)))
  | MAppend v =>
      out ← output w;
      rs ← get_mat w v;
      Some (Workspace (vars w) (idx w) (Some (out ++ rs)))
  end.

Fixpoint exec (ls : list mline) (w : workspace) : option workspace :=
  match ls with
  | [] => Some w
  | l :: ls' => w' ← exec_line l w; exec ls' w'
  end.

(** A call of the function: its two results [[output, subRough]]. *)
Definition call (ls : list mline) : option (list row * Q) :=
  w ← exec ls empty_workspace;
  out ← output w;
  sr ← get_num w subRough;
  Some (out, sr).

(** How many scalars of [params] a call has read when it returns. *)
Definition scalars_read (ls : list mline) : option nat :=
  w ← exec ls empty_workspace;
  i ← idx w;
  Some (i - 1)%nat.
End Run.

End Matlab.
Export Matlab.

(** ** emit_matlab_model.py *)

Module ModelEmitter.

Section Emit.
(** [unicodedata.normalize("NFKD", s)], a table of the Unicode database. *)
Variable nfkd : pystr -> pystr.
(** The number that the text [f"{x:.6g}"] denotes. *)
Variable fmt_6g : Q -> Q.

(** [clean_comment(s)] *)
Definition clean_comment (s : pystr) : pystr :=
  filter (fun c => is_ascii c = true) (nfkd s).

(** The loop bodies, one definition per [for]; [i] and [j] count from
    the given start as [enumerate(..., start=1)] does. *)
Definition unpack_layer (i : nat) (L : layer) : list mline :=
  [ MComment (py "% Layer " ++ str_of_nat i ++ py ": " ++ clean_comment (l_name L));
    MRead (layerVar i Thick);
    MRead (layerVar i SLD);
    MRead (layerVar i Rough);
    MBlank ].

Definition unpack_bilayer (j : nat) (bl : bilayer_spec) : list mline :=
  [ MComment (py "% Bilayer " ++ str_of_nat j ++ py ": inner="
              ++ clean_comment (spec_inner bl) ++ py ", outer="
              ++ clean_comment (spec_outer bl));
    MRead (bilayerVar j APM);
    MRead (bilayerVar j HeadHydInner);
    MRead (bilayerVar j HeadHydOuter);
    MRead (bilayerVar j BilayerHydration);
    MRead (bilayerVar j BRough);
    MBlank ].

Definition bilayer_constants (j : nat) (bl : bilayer_spec) : list mline :=
  [ MComment (py "%% Bilayer " ++ str_of_nat j ++ py " constants (inner="
              ++ clean_comment (spec_inner bl) ++ py ", outer="
              ++ clean_comment (spec_outer bl) ++ py ")");
    MConst (vConst j HeadInner) (fmt_6g (v_head_inner bl));
    MConst (vConst j TailInner) (fmt_6g (v_tail_inner bl));
    MConst (vConst j HeadOuter) (fmt_6g (v_head_outer bl));
    MConst (vConst j TailOuter) (fmt_6g (v_tail_outer bl));
    MConst (sldConst j HeadInner) (fmt_6g (sld_head_inner bl));
    MConst (sldConst j TailInner) (fmt_6g (sld_tail_inner bl));
    MConst (sldConst j HeadOuter) (fmt_6g (sld_head_outer bl));
    MConst (sldConst j TailOuter) (fmt_6g (sld_tail_outer bl));
    MBlank ].

Definition stack_layer (i : nat) : list mline :=
  [ MComment (py "% Non-bilayer layer " ++ str_of_nat i);
    MRow (LVar i) (layerVar i Thick) (layerVar i SLD) (layerVar i Rough);
    MAppend (LVar i);
    MBlank ].

(** [h * bulkOut(contrast) + (1 - h) * sld] *)
Definition hydrate (h sld : mvar) : mexpr :=
  EAdd (EMul (EVar h) EBulkOut) (EMul (ESub EOne (EVar h)) (EVar sld)).

Definition stack_bilayer (j : nat) : list mline :=
  [ MComment (py "% Bilayer " ++ str_of_nat j ++ py " " ++ [8594%N]
              ++ py " 4 layers (head/ tail / tail / head)");
    MAssign (subThick j HeadInner) (EDiv (EVar (vConst j HeadInner)) (EVar (bilayerVar j APM)));
    MAssign (subThick j TailInner) (EDiv (EVar (vConst j TailInner)) (EVar (bilayerVar j APM)));
    MAssign (subThick j TailOuter) (EDiv (EVar (vConst j TailOuter)) (EVar (bilayerVar j APM)));
    MAssign (subThick j HeadOuter) (EDiv (EVar (vConst j HeadOuter)) (EVar (bilayerVar j APM)));
    MAssign (subSLD j HeadInner) (hydrate (bilayerVar j HeadHydInner) (sldConst j HeadInner));
    MAssign (subSLD j HeadOuter) (hydrate (bilayerVar j HeadHydOuter) (sldConst j HeadOuter));
    MAssign (subSLD j TailInner) (hydrate (bilayerVar j BilayerHydration) (sldConst j TailInner));
    MAssign (subSLD j TailOuter) (hydrate (bilayerVar j BilayerHydration) (sldConst j TailOuter));
    MAssign (bilayerRough j) (EVar (bilayerVar j BRough));
    MRow (subRow j HeadInner) (subThick j HeadInner) (subSLD j HeadInner) (bilayerRough j);
    MRow (subRow j TailInner) (subThick j TailInner) (subSLD j TailInner) (bilayerRough j);
    MRow (subRow j TailOuter) (subThick j TailOuter) (subSLD j TailOuter) (bilayerRough j);
    MRow (subRow j HeadOuter) (subThick j HeadOuter) (subSLD j HeadOuter) (bilayerRough j);
    MBlock (bilayerBlock j)
      [subRow j HeadInner; subRow j TailInner; subRow j TailOuter; subRow j HeadOuter];
    MAppend (bilayerBlock j);
    MBlank ].

(** [for i, x in enumerate(xs, start=i0): lines += body(i, x)] *)
Fixpoint for_each {A} (body : nat -> A -> list mline) (i0 : nat) (xs : list A)
  : list mline :=
  match xs with
  | [] => []
  | x :: xs' => body i0 x ++ for_each body (S i0) xs'
  end.

(** [emit_matlab_model(base_name, layers, bilayers)], line by line. *)
Definition emit_matlab_model (base_name : pystr) (layers : list layer)
    (bilayers : list bilayer_spec) : list mline :=
  [ MHeader (base_name ++ py "_auto"); MIdxInit; MRead subRough; MBlank ]
  ++ [ MComment (py "% ---- Unpack non-bilayer layer parameters ----") ]
  ++ for_each unpack_layer 1 layers
  ++ [ MComment (py "% ---- Unpack bilayer fit parameters ----") ]
  ++ for_each unpack_bilayer 1 bilayers
  ++ match bilayers with
     | [] => []
     | _ :: _ =>
         MComment (py "% ---- Bilayer physical constants (from molgroups or fallback) ----")
         :: for_each bilayer_constants 1 bilayers
     end
  ++ [ MComment (py "% ---- Build final layer stack ----"); MOutputInit; MBlank ]
  ++ for_each (fun i _ => stack_layer i) 1 layers
  ++ for_each (fun j _ => stack_bilayer j) 1 bilayers
  ++ [ MEnd ].
End Emit.

End ModelEmitter.
Export ModelEmitter.

(** ** emit_matlab_driver.py *)

Module DriverEmitter.

(** [abs(val) < 1e-12] *)
Definition near_zero (val : Q) : bool :=
  negb (Qle_bool (1 # 1000000000000) (Qabs val)).

(** [_span(val, frac)] *)
Definition _span (val frac : Q) : Q * Q * Q :=
  if near_zero val then (- (1 # 1000000), 0, 1 # 1000000)
  else
    let lo := val * (1 - frac) in
    let hi := val * (1 + frac) in
    (Qmin lo hi, val, Qmax lo hi).

(** [re.sub(r"[^A-Za-z0-9_]+", "_", s)] *)
Fixpoint sanitize_from (in_run : bool) (s : pystr) : pystr :=
  match s with
  | [] => []
  | c :: s' =>
      if is_word c
      then c :: sanitize_from false s'
      else (if in_run then [] else [95%N]) ++ sanitize_from true s'
  end.
Definition sanitize (s : pystr) : pystr := sanitize_from false s.

(** The name of a declared fit parameter: ['{name} thickness'],
    ['{name} SLD'], ['{name} rough'], ['Bilayer{j} APM'], ... *)
Inductive param_name :=
| LayerParam (name : pystr) (f : layer_field)
| BilayerParam (j : nat) (p : bilayer_param).

Definition param_text (n : param_name) : pystr :=
  match n with
  | LayerParam name Thick => name ++ py " thickness"
  | LayerParam name SLD => name ++ py " SLD"
  | LayerParam name Rough => name ++ py " rough"
  | BilayerParam j APM => py "Bilayer" ++ str_of_nat j ++ py " APM"
  | BilayerParam j HeadHydInner => py "Bilayer" ++ str_of_nat j ++ py " HeadHyd Inner"
  | BilayerParam j HeadHydOuter => py "Bilayer" ++ str_of_nat j ++ py " HeadHyd Outer"
  | BilayerParam j BilayerHydration => py "Bilayer" ++ str_of_nat j ++ py " BilayerHydration"
  | BilayerParam j BRough => py "Bilayer" ++ str_of_nat j ++ py " Rough"
  end.

Inductive bulk_side := BulkIn | BulkOut.

(** One piece of the generated script.
    - [DHeader]: the title comment, [createProject(...)], [showPriors],
      and the opening [params = {]
    - [DParam n lo v hi]: [  {'n', lo, v, hi, true};]
    - [DBilayerComment j i o]: [  % Bilayer j parameters (inner=i, outer=o)]
    - [DParamsEnd]: [};] and [DAddParameterGroup]: [problem.addParameterGroup(params);]
    - [DScalefactor]: [problem.setScalefactor(1, 'name','Scalefactor 1',
      'value',1, 'min',0.5, 'max',2, 'fit',true);]
    - [DAddBulk side n lo v hi]: [problem.addBulkIn('n', lo, v, hi, false);]
      (or [addBulkOut])
    - [DModelAndData fn ort n]: [addCustomFile], [readOrso('ort')] and
      [numContrasts = min(numContrasts, n);]
    - [DContrast i safe bin bout]: the [if i <= numContrasts ... end] block
    - [DRun]: the closing run-and-export block *)
Inductive dline :=
| DHeader (title base_name : pystr)
| DParam (n : param_name) (lo val hi : Q)
| DBilayerComment (j : nat) (inner outer : pystr)
| DParamsEnd
| DAddParameterGroup
| DScalefactor
| DBulksHeading
| DAddBulk (side : bulk_side) (name : pystr) (lo val hi : Q)
| DModelAndData (fn ort_name : pystr) (n_names : nat)
| DContrastsHeading
| DContrast (i : nat) (safe bulk_in_name bulk_out_name : pystr)
| DRun.

(** Python's [round(x)] to the nearest integer, ties to even. *)
Definition round_half_even (x : Q) : Z :=
  let n := Qnum x in
  let d := Zpos (Qden x) in
  let q := (n `div` d)%Z in
  let r := (n `mod` d)%Z in
  match (2 * r ?= d)%Z with
  | Lt => q
  | Gt => (q + 1)%Z
  | Eq => if Z.even q then q else (q + 1)%Z
  end.

(** [round(x, 8)], as the number of units of [1e-8]: two floats that
    [round] gives are equal exactly when these integers are. *)
Definition round8 (x : Q) : Z := round_half_even (x * 100000000).

(** The key [(bulk["name"], round(bulk["sld"], 8))]. *)
Definition bulk_key (b : bulk) : pystr * Z := (b_name b, round8 (b_sld b)).

(** The [while] loop of [unique]: [name] is the candidate, [i] the next
    suffix. [None] when [fuel] iterations were not enough. *)
Fixpoint unique_loop (fuel : nat) (base : pystr) (used : gset pystr)
    (name : pystr) (i : nat) : option pystr :=
  match fuel with
  | O => None
  | S fuel' =>
      if decide (name ∈ used)
      then unique_loop fuel' base used (base ++ py "_" ++ str_of_nat i) (S i)
      else Some name
  end.

(** [unique(base, used)]: the name returned and [used] after
    [used.add(name)]. The loop runs at most once per element of [used]
    before it leaves. *)
Definition unique (base : pystr) (used : gset pystr) : option (pystr * gset pystr) :=
  name ← unique_loop (S (size used)) base used base 2;
  Some (name, {[name]} ∪ used).

(** What [ensure_bulk] reads and updates on one side: the set [used_*]
    and the dict [map_*]. *)
Record side_state := SideState {
  used : gset pystr;
  mapping : gmap (pystr * Z) pystr;
}.

Definition side_start : side_state := SideState ∅ ∅.

Section Emit.
(** The number that the text [f"{x:.6g}"] denotes. *)
Variable fmt_6g : Q -> Q.
(** [Path(p).as_posix()] *)
Variable as_posix : pystr -> pystr.

Definition fmt_span (s : Q * Q * Q) : Q * Q * Q :=
  let '(lo, val, hi) := s in (fmt_6g lo, fmt_6g val, fmt_6g hi).

(** [ensure_bulk(bulk, used_set, mapping, add_func_name)]: the name, the
    lines appended (none or one) and the side's state afterwards. *)
Definition ensure_bulk (side : bulk_side) (b : bulk) (st : side_state)
  : option (pystr * list dline * side_state) :=
  let key := bulk_key b in
  match mapping st !! key with
  | Some name => Some (name, [], st)
  | None =>
      '(safe_name, used') ← unique (b_name b) (used st);
      let '(lo, _, hi) := _span (b_sld b) (2 # 100) in
      Some (safe_name,
            [DAddBulk side safe_name (fmt_6g lo) (fmt_6g (b_sld b)) (fmt_6g hi)],
            SideState used' (<[key := safe_name]> (mapping st)))
  end.

(** The loop [for bi, bo in zip(bulk_ins, bulk_outs)]: the lines it
    appends and the lists [bulk_in_names], [bulk_out_names]. *)
Fixpoint declare_bulks (bulk_ins bulk_outs : list bulk) (st_in st_out : side_state)
  : option (list dline * list pystr * list pystr) :=
  match bulk_ins, bulk_outs with
  | bi :: bis, bo :: bos =>
      '(name_in, lines_in, st_in') ← ensure_bulk BulkIn bi st_in;
      '(name_out, lines_out, st_out') ← ensure_bulk BulkOut bo st_out;
      '(lines, names_in, names_out) ← declare_bulks bis bos st_in' st_out';
      Some (lines_in ++ lines_out ++ lines, name_in :: names_in, name_out :: names_out)
  | _, _ => Some ([], [], [])
  end.

(** The three parameter lines of one internal layer. *)
Definition driver_layer_name (L : layer) : pystr := strip (collapse_ws (l_name L)).

Definition layer_params (L : layer) : list dline :=
  let name := driver_layer_name L in
  let '(tmin, tval, tmax) := fmt_span (_span (l_thickness L) (3 # 10)) in
  let '(smin, sval, smax) := fmt_span (_span (l_sld L) (2 # 10)) in
  let '(rmin, rval, rmax) := fmt_span (_span (l_roughness L) (5 # 10)) in
  [ DParam (LayerParam name Thick) tmin tval tmax;
    DParam (LayerParam name SLD) smin sval smax;
    DParam (LayerParam name Rough) rmin rval rmax ].

(** The comment and five parameter lines of bilayer [j]. *)
Definition bilayer_params (j : nat) (bl : bilayer_spec) : list dline :=
  [ DBilayerComment j (spec_inner bl) (spec_outer bl);
    DParam (BilayerParam j APM) 40 60 80;
    DParam (BilayerParam j HeadHydInner) 0 (2 # 10) 1;
    DParam (BilayerParam j HeadHydOuter) 0 (2 # 10) 1;
    DParam (BilayerParam j BilayerHydration) 0 (1 # 10) 1;
    DParam (BilayerParam j BRough) 1 4 10 ].

Fixpoint for_bilayers (j : nat) (bilayer_specs : list bilayer_spec) : list dline :=
  match bilayer_specs with
  | [] => []
  | bl :: rest => bilayer_params j bl ++ for_bilayers (S j) rest
  end.

(** The loop [for i, cname in enumerate(contrast_names, start=1)];
    [bulk_in_names[i-1]] raises when the list is too short. *)
Fixpoint contrast_blocks (i : nat) (contrast_names bulk_in_names bulk_out_names : list pystr)
  : result (list dline) :=
  match contrast_names with
  | [] => Ok []
  | cname :: rest =>
      let safe := sanitize cname in
      match bulk_in_names !! (i - 1)%nat with
      | None => Raise (IndexError "bulk_in_names")
      | Some name_in =>
          match bulk_out_names !! (i - 1)%nat with
          | None => Raise (IndexError "bulk_out_names")
          | Some name_out =>
              blocks ← contrast_blocks (S i) rest bulk_in_names bulk_out_names;
              Ok (DContrast i safe name_in name_out :: blocks)
          end
      end
  end.

(** [l[1:-1]] *)
Definition slice_1_m1 {A} (l : list A) : list A :=
  drop 1 (take (length l - 1) l).

(** [emit_matlab_driver(base_name, bulk_ins, bulk_outs, layers_all,
    ort_file, contrast_names, bilayer_specs)]. The outer [option] is
    [None] only if the loop of [unique] were cut short. *)
Definition emit_matlab_driver (base_name : pystr) (bulk_ins bulk_outs : list bulk)
    (layers_all : list (list layer)) (ort_file : pystr)
    (contrast_names : list pystr) (bilayer_specs : list bilayer_spec)
  : option (result (list dline)) :=
  let fn := base_name ++ py "_auto" in
  let title := fn ++ py "_script" in
  let ort_name := drop_while (fun c => (c =? 47)%N) (as_posix ort_file) in
  match layers_all with
  | [] => Some (Raise (IndexError "layers_all"))
  | first :: _ =>
      let internal_layers := slice_1_m1 first in
      '(bulk_lines, bulk_in_names, bulk_out_names) ←
        declare_bulks bulk_ins bulk_outs side_start side_start;
      Some (
        blocks ← contrast_blocks 1 contrast_names bulk_in_names bulk_out_names;
        Ok ([DHeader title base_name]
            ++ (internal_layers ≫= layer_params)
            ++ for_bilayers 1 bilayer_specs
            ++ [DParamsEnd; DAddParameterGroup; DScalefactor; DBulksHeading]
            ++ bulk_lines
            ++ [DModelAndData fn ort_name (length contrast_names); DContrastsHeading]
            ++ blocks
            ++ [DRun]))
  end.
End Emit.

End DriverEmitter.
Export DriverEmitter.

(** ** file_utils.py *)

Module FileUtils.

Section WithUnicode.
(** [unicodedata.normalize("NFKD", s)] *)
Variable nfkd : pystr -> pystr.

(** [normalize_param_name(name)] *)
Definition normalize_param_name (name : pystr) : pystr :=
  let name := nfkd name in
  let name := filter (fun c => is_ascii c = true) name in
  let name := collapse_ws name in
  strip name.
End WithUnicode.

(** [[A-Za-z0-9._-]] *)
Definition is_file_char (c : pychar) : bool :=
  is_word c || (c =? 46)%N || (c =? 45)%N.

(** [re.sub(r"[^A-Za-z0-9._-]+", "_", s)] *)
Fixpoint sub_unsafe_from (in_run : bool) (s : pystr) : pystr :=
  match s with
  | [] => []
  | c :: s' =>
      if is_file_char c
      then c :: sub_unsafe_from false s'
      else (if in_run then [] else [95%N]) ++ sub_unsafe_from true s'
  end.

(** [sanitize_name(s)] *)
Definition sanitize_name (s : pystr) : pystr :=
  let is_us := fun c => (c =? 95)%N in
  reverse (drop_while is_us (reverse (drop_while is_us (sub_unsafe_from false s)))).

End FileUtils.
Export FileUtils.

(** ** __main__.py: the pipeline after argument parsing *)

Module Main.

Section Main.
Variables (nfkd lower as_posix : pystr -> pystr) (fmt_6g : Q -> Q).

(** A file the run has written: the copy of the ORSO file under
    [data/], the model file, the driver file. *)
Inductive written_file :=
| DataCopy (name : pystr)
| ModelFile (name : pystr) (code : list mline)
| DriverFile (name : pystr) (code : list dline).

(** The files written when the run ends, in order, and how it ends. *)
Record run := Run {
  written : list written_file;
  outcome : result unit;
}.

(** [main()], from the loaded datasets on: [name] is [args.name or
    ort_path.stem], [ort_name] is [ort_path.name]. *)
Definition main (molgroups : option lipid_table) (name ort_name : pystr)
    (orso_data : list dataset) : option run :=
  let base := sanitize_name name in
  let copied := DataCopy (py "data/" ++ ort_name) in
  match process_orso_file lower molgroups orso_data with
  | Raise e => Some (Run [copied] (Raise e))
  | Ok x =>
      match x_layers_all x with
      | [] => Some (Run [copied] (Raise (IndexError "layers_all")))
      | first :: _ =>
          let internal_layers_first := slice_1_m1 first in
          let model_file :=
            ModelFile (base ++ py "_auto.m")
              (emit_matlab_model nfkd fmt_6g base internal_layers_first
                 (x_bilayer_specs x)) in
          d ← emit_matlab_driver fmt_6g as_posix base (x_bulk_ins x) (x_bulk_outs x)
                 (x_layers_all x) (py "data/" ++ ort_name) (x_contrast_names x)
                 (x_bilayer_specs x);
          match d with
          | Raise e => Some (Run [copied; model_file] (Raise e))
          | Ok driver_code =>
              Some (Run [copied; model_file;
                         DriverFile (base ++ py "_auto_script.m") driver_code]
                        (Ok tt))
          end
      end
  end.
End Main.

End Main.
Export Main.
(** ** What the specification says of a stack token *)

Module TokenSpec.

Definition spaces (w : pystr) : Prop := Forall (fun c => is_space c = true) w.
Definition identifier (w : pystr) : Prop :=
  w <> [] /\ Forall (fun c => is_word c = true) w.

(** [t] reads [bilayer(inner=<g1>, outer=<g2>)], with optional white space
    around the parentheses, [=] and [,]. *)
Inductive bilayer_shape (t g1 g2 : pystr) : Prop :=
| BilayerShape (w1 w2 w3 w4 w5 w6 w7 w8 w9 w10 : pystr) :
    spaces w1 -> spaces w2 -> spaces w3 -> spaces w4 -> spaces w5 ->
    spaces w6 -> spaces w7 -> spaces w8 -> spaces w9 -> spaces w10 ->
    identifier g1 -> identifier g2 ->
    t = py "bilayer" ++ w1 ++ py "(" ++ w2 ++ py "inner" ++ w3 ++ py "=" ++ w4
        ++ g1 ++ w5 ++ py "," ++ w6 ++ py "outer" ++ w7 ++ py "=" ++ w8
        ++ g2 ++ w9 ++ py ")" ++ w10 ->
    bilayer_shape t g1 g2.

Definition well_formed (t : pystr) : Prop := exists g1 g2, bilayer_shape t g1 g2.

(** [tokens] split, in order, into the bilayer tokens and the others. *)
Inductive token_partition : list pystr -> list bilayer_token -> list pystr -> Prop :=
| partition_nil : token_partition [] [] []
| partition_bilayer t g1 g2 ts bs kept :
    bilayer_shape t g1 g2 ->
    token_partition ts bs kept ->
    token_partition (t :: ts) (BilayerToken g1 g2 :: bs) kept
| partition_other t ts bs kept :
    ~ well_formed t ->
    token_partition ts bs kept ->
    token_partition (t :: ts) bs (t :: kept).

(** [r] is empty or starts with a character outside the class [p]. *)
Definition starts_without (p : pychar -> bool) (r : pystr) : Prop :=
  match r with
  | [] => True
  | c :: _ => p c = false
  end.

(** A token as [tokenize] leaves it: no delimiter inside, no white space
    at either end. *)
Definition starts_clean (t : pystr) : Prop :=
  match t with
  | [] => True
  | c :: _ => is_space c = false
  end.

Definition stripped (t : pystr) : Prop := starts_clean t /\ starts_clean (reverse t).

Definition plain_token (t : pystr) : Prop := (124%N ∉ t) /\ stripped t.

End TokenSpec.
Export TokenSpec.

(** ** What the specification says of the extraction *)

Module ExtractionSpec.

(** [str.lower] on text whose letters are ASCII. *)
Definition ascii_lower (s : pystr) : pystr :=
  (fun c => if ((65 <=? c) && (c <=? 90))%N then (c + 32)%N else c) <$> s.

(** The layers a contrast keeps of the resolved ones: those that
    [_extract_layer] accepts, in order. *)
Inductive kept_layers : list orso_layer -> list layer -> Prop :=
| kept_nil : kept_layers [] []
| kept_ok li l rs ls :
    _extract_layer li = Ok l -> kept_layers rs ls -> kept_layers (li :: rs) (l :: ls)
| kept_drop li e rs ls :
    _extract_layer li = Raise e -> kept_layers rs ls -> kept_layers (li :: rs) ls.

(** The bilayer tokens in the stack of a dataset (none without a model). *)
Definition bilayers_of (ds : dataset) : list bilayer_token :=
  match model ds with
  | None => []
  | Some m => (extract_bilayers_from_model (stack m)).1
  end.

(** The layers the external resolver gives for a dataset, after the
    bilayer tokens were removed from its stack. *)
Definition resolved_layers_of (ds : dataset) : option (list orso_layer) :=
  m ← model ds;
  resolve_to_layers m (extract_bilayers_from_model (stack m)).2.

(** A contrast is skipped when it has no model, when the resolver fails,
    or when fewer than two layers come back. *)
Definition skipped (ds : dataset) : bool :=
  match resolved_layers_of ds with
  | Some (_ :: _ :: _) => false
  | _ => true
  end.

End ExtractionSpec.
Export ExtractionSpec.

(** ** What the specification says of the enriched specs *)

Module LipidSpec.

(** [spec] is the token [tok] with the eight constants the resolver gives
    for its two lipids. *)
Definition enriched_from (molgroups : option lipid_table)
    (tok : bilayer_token) (spec : bilayer_spec) : Prop :=
  exists ci co,
    get_lipid_constants molgroups (inner tok) = Ok (Some ci)
    /\ get_lipid_constants molgroups (outer tok) = Ok (Some co)
    /\ spec = BilayerSpec (inner tok) (outer tok)
                (head_vol ci) (tail_vol ci) (head_vol co) (tail_vol co)
                (head_sld ci) (tail_sld ci) (head_sld co) (tail_sld co).

(** The resolver calls of a run over [raw]: inner then outer, per token. *)
Definition resolver_calls (raw : list bilayer_token) : list pystr :=
  raw ≫= (fun tok => [inner tok; outer tok]).

(** The sum of a list of numbers. *)
Fixpoint total (xs : list Q) : Q :=
  match xs with
  | [] => 0
  | x :: rest => x + total rest
  end.

(** The cell volume of a component, 0 when it has none. *)
Definition volume_of (c : component) : Q :=
  match cell_volume c with Some v => v | None => 0 end.

(** The scattering lengths of a component: one number, an array of them, or
    (the attribute missing) the single number 0. *)
Definition nsl_entries (c : component) : list Q :=
  match nSLs c with
  | Some (NslScalar x) => [x]
  | Some (NslArray xs) => xs
  | None => [0]
  end.

Definition summed_volume (cs : list component) : Q := total (volume_of <$> cs).
Definition summed_nsl (cs : list component) : Q := total (cs ≫= nsl_entries).

(** The components' scattering lengths can be stacked into one array: all
    are single numbers, or all are arrays of one length. *)
Definition has_array (c : component) : Prop := exists xs, nSLs c = Some (NslArray xs).
Definition stackable (cs : list component) : Prop :=
  Forall (fun c => ~ has_array c) cs
  \/ exists n, Forall (fun c => exists xs, nSLs c = Some (NslArray xs) /\ length xs = n) cs.

(** The values that [get_lipid_constants] hands to [scalar_nsl] for the
    head. *)
Definition nsl_values (cs : list component) : list nsl_value :=
  (fun c => nsl_or_zero (nSLs c)) <$> cs.

End LipidSpec.
Export LipidSpec.

(** ** What the specification says of the driver's declarations *)

Module DriverSpec.

(** The candidate names of [unique]: [base] itself, then [base_2],
    [base_3], ... *)
Definition suffixed (base : pystr) (k : nat) : pystr := base ++ py "_" ++ str_of_nat k.

Definition name_for (b : bulk) (n : pystr) : Prop :=
  n = b_name b \/ exists k, (2 <= k)%nat /\ n = suffixed (b_name b) k.

(** [z] is the integer nearest to [x], and of two equally near the even
    one. *)
Definition nearest (x : Q) (z : Z) : Prop :=
  Qabs (x - inject_Z z) < 1 # 2 \/ (Qabs (x - inject_Z z) == 1 # 2 /\ Z.even z = true).

(** [x] rounded to 8 decimals is [z] units of [1e-8]. *)
Definition rounds_to8 (x : Q) (z : Z) : Prop := nearest (x * 100000000) z.

(** Two bulk records are the same bulk: equal names, and SLDs that round
    to the same 8 decimals. *)
Definition same_bulk (b1 b2 : bulk) : Prop :=
  b_name b1 = b_name b2
  /\ exists z, rounds_to8 (b_sld b1) z /\ rounds_to8 (b_sld b2) z.

(** [names] gives each record of [bs] its declared bulk: one name per
    record, the same name exactly for the same bulk, and each name the
    record's own or that with a numeric suffix. *)
Definition deduplicated (bs : list bulk) (names : list pystr) : Prop :=
  length names = length bs
  /\ (forall i j bi bj ni nj,
        bs !! i = Some bi -> bs !! j = Some bj ->
        names !! i = Some ni -> names !! j = Some nj ->
        (ni = nj <-> same_bulk bi bj))
  /\ Forall2 name_for bs names.

#[export] Instance bulk_side_eq_dec : EqDecision bulk_side.
Proof. solve_decision. Defined.

(** What holds of one side between two calls of [ensure_bulk]: every name
    in the dict is in the set, no name stands for two keys, and a name is
    the key's own name or that with a suffix. *)
Definition side_ok (used : gset pystr) (m : gmap (pystr * Z) pystr) : Prop :=
  (forall k v, m !! k = Some v -> v ∈ used)
  /\ (forall k1 k2 v, m !! k1 = Some v -> m !! k2 = Some v -> k1 = k2)
  /\ (forall k v, m !! k = Some v ->
        v = k.1 \/ exists i, (2 <= i)%nat /\ v = suffixed k.1 i).

(** The names declared on one side, in the order of the script. *)
Definition declared_bulks (side : bulk_side) (lines : list dline) : list pystr :=
  omap (fun l => match l with
                 | DAddBulk s n _ _ _ => if decide (s = side) then Some n else None
                 | _ => None
                 end) lines.

(** The declared fit parameters, in the order of the script, and the
    number of scale factors. *)
Definition declared_params (lines : list dline) : list param_name :=
  omap (fun l => match l with DParam n _ _ _ => Some n | _ => None end) lines.

Definition declared_scalefactors (lines : list dline) : nat :=
  length (omap (fun l => match l with DScalefactor => Some l | _ => None end) lines).

(** The names a side declares while the loop runs from [st]: each once,
    none of them used before, and together with the names already in the
    dict they are the names the loop hands out. *)
Definition declares (st : side_state) (names declared : list pystr) : Prop :=
  NoDup declared
  /\ (forall n, n ∈ declared -> n ∉ used st)
  /\ (forall n, n ∈ declared -> n ∈ names)
  /\ (forall n, n ∈ names -> n ∈ declared \/ exists k, mapping st !! k = Some n).

End DriverSpec.
Export DriverSpec.

(** ** What the specification says of the generated model function *)

Module ModelSpec.

(** The variables a function body reads from [params], in order. *)
Definition reads (ls : list mline) : list mvar :=
  omap (fun l => match l with MRead v => Some v | _ => None end) ls.

(** [params(i)], counting from 1 as MATLAB does. *)
Definition param (params : list Q) (i : nat) : Q := nth (i - 1) params 0.

(** Linear hydration mixing. *)
Definition mix (h bulk_out sld : Q) : Q := h * bulk_out + (1 - h) * sld.

(** The row of internal layer [n] (counting from 0): its three scalars
    follow the substrate roughness. *)
Definition layer_row (params : list Q) (n : nat) : row :=
  (param params (2 + 3 * n), param params (3 + 3 * n), param params (4 + 3 * n)).

Section Bilayer.
Variable fmt_6g : Q -> Q.
Variables (params : list Q) (bulk_out : Q).

(** The four rows of one bilayer whose five scalars start at
    [params(first)]: inner head, inner tail, outer tail, outer head. *)
Definition bilayer_rows (first : nat) (bl : bilayer_spec) : list row :=
  let apm := param params first in
  let head_hyd_inner := param params (first + 1) in
  let head_hyd_outer := param params (first + 2) in
  let bilayer_hyd := param params (first + 3) in
  let rough := param params (first + 4) in
  [ (fmt_6g (v_head_inner bl) / apm,
     mix head_hyd_inner bulk_out (fmt_6g (sld_head_inner bl)), rough);
    (fmt_6g (v_tail_inner bl) / apm,
     mix bilayer_hyd bulk_out (fmt_6g (sld_tail_inner bl)), rough);
    (fmt_6g (v_tail_outer bl) / apm,
     mix bilayer_hyd bulk_out (fmt_6g (sld_tail_outer bl)), rough);
    (fmt_6g (v_head_outer bl) / apm,
     mix head_hyd_outer bulk_out (fmt_6g (sld_head_outer bl)), rough) ].

Fixpoint bilayer_blocks (first : nat) (bilayers : list bilayer_spec) : list row :=
  match bilayers with
  | [] => []
  | bl :: rest => bilayer_rows first bl ++ bilayer_blocks (first + 5) rest
  end.

(** The stack the function is to return for [n_layers] internal layers
    and the given bilayers. *)
Definition expected_stack (n_layers : nat) (bilayers : list bilayer_spec) : list row :=
  (layer_row params <$> seq 0 n_layers)
  ++ bilayer_blocks (2 + 3 * n_layers) bilayers.
End Bilayer.


(** Where the scalars of a layer and of a bilayer stand in their group. *)
Definition field_offset (f : layer_field) : nat :=
  match f with Thick => 0 | SLD => 1 | Rough => 2 end.

Definition bilayer_offset (p : bilayer_param) : nat :=
  match p with
  | APM => 0 | HeadHydInner => 1 | HeadHydOuter => 2 | BilayerHydration => 3 | BRough => 4
  end.

(** The constants of one sublayer, as the spec record holds them. *)
Definition sub_volume (s : sublayer) (bl : bilayer_spec) : Q :=
  match s with
  | HeadInner => v_head_inner bl
  | TailInner => v_tail_inner bl
  | TailOuter => v_tail_outer bl
  | HeadOuter => v_head_outer bl
  end.

Definition sub_sld (s : sublayer) (bl : bilayer_spec) : Q :=
  match s with
  | HeadInner => sld_head_inner bl
  | TailInner => sld_tail_inner bl
  | TailOuter => sld_tail_outer bl
  | HeadOuter => sld_head_outer bl
  end.

(** The variables the stack-building part only reads. *)
Definition is_input (u : mvar) : Prop :=
  match u with
  | subRough | layerVar _ _ | bilayerVar _ _ | vConst _ _ | sldConst _ _ => True
  | _ => False
  end.

(** A declared fit parameter and a variable read from [params] stand for
    the same quantity. *)
Definition same_role (n : param_name) (v : mvar) : Prop :=
  match n, v with
  | LayerParam _ f, layerVar _ f' => f = f'
  | BilayerParam j p, bilayerVar j' p' => j = j' /\ p = p'
  | _, _ => False
  end.

End ModelSpec.
Export ModelSpec.

(** ** What the specification says of the two parameter orders and of names *)

Module OrderSpec.

(** [for i, x in enumerate(xs, start=i0)], collecting what [f] gives. *)
Fixpoint numbered {A B} (f : nat -> A -> list B) (i0 : nat) (xs : list A) : list B :=
  match xs with
  | [] => []
  | x :: xs' => f i0 x ++ numbered f (S i0) xs'
  end.

Definition layer_param_names (name : pystr) : list param_name :=
  [LayerParam name Thick; LayerParam name SLD; LayerParam name Rough].

Definition bilayer_param_names (j : nat) : list param_name :=
  [BilayerParam j APM; BilayerParam j HeadHydInner; BilayerParam j HeadHydOuter;
   BilayerParam j BilayerHydration; BilayerParam j BRough].

Definition layer_vars (i : nat) : list mvar :=
  [layerVar i Thick; layerVar i SLD; layerVar i Rough].

Definition bilayer_vars (j : nat) : list mvar :=
  [bilayerVar j APM; bilayerVar j HeadHydInner; bilayerVar j HeadHydOuter;
   bilayerVar j BilayerHydration; bilayerVar j BRough].

(** The bounds and the value of the declared fit parameters, in the order
    of the script: [(lo, val, hi)]. *)
Definition declared_bounds (lines : list dline) : list (Q * Q * Q) :=
  omap (fun l => match l with DParam _ lo v hi => Some (lo, v, hi) | _ => None end) lines.

(** [lo], [mid], [hi] is the window of relative half-width [frac] around
    [val]: [val * (1 - frac)] and [val * (1 + frac)], the smaller one first,
    around [val] itself; around a value within [1e-12] of zero it is
    [-1e-6], [0], [1e-6]. *)
Definition window (frac val lo mid hi : Q) : Prop :=
  (Qabs val < 1 # 1000000000000
   /\ lo == - (1 # 1000000) /\ mid == 0 /\ hi == 1 # 1000000)
  \/ (1 # 1000000000000 <= Qabs val
      /\ mid == val /\ lo <= hi
      /\ ((lo == val * (1 - frac) /\ hi == val * (1 + frac))
          \/ (lo == val * (1 + frac) /\ hi == val * (1 - frac)))).

(** The triple a script line holds for such a window, each number as its
    six-digit text denotes it. *)
Definition printed_window (fmt : Q -> Q) (frac val : Q) (b : Q * Q * Q) : Prop :=
  exists lo mid hi, window frac val lo mid hi /\ b = (fmt lo, fmt mid, fmt hi).

(** The three triples of an internal layer: thickness within 0.3, SLD
    within 0.2, roughness within 0.5. *)
Definition layer_bounds (fmt : Q -> Q) (L : layer) (bs : list (Q * Q * Q)) : Prop :=
  exists bt bsld br,
    bs = [bt; bsld; br]
    /\ printed_window fmt (3 # 10) (l_thickness L) bt
    /\ printed_window fmt (2 # 10) (l_sld L) bsld
    /\ printed_window fmt (5 # 10) (l_roughness L) br.

(** The five triples of a bilayer: area per molecule, the two head
    hydrations, the bilayer hydration, the roughness. *)
Definition bilayer_bounds : list (Q * Q * Q) :=
  [(40, 60, 80); (0, 2 # 10, 1); (0, 2 # 10, 1); (0, 1 # 10, 1); (1, 4, 10)].

(** The names of the contrasts wired, in the order of the script. *)
Definition declared_contrasts (lines : list dline) : list pystr :=
  omap (fun l => match l with DContrast _ safe _ _ => Some safe | _ => None end) lines.

Definition ascii_only (s : pystr) : Prop := Forall (fun c => is_ascii c = true) s.
Definition word_only (s : pystr) : Prop := Forall (fun c => is_word c = true) s.

(** No run of white space longer than one character, and that character
    a plain space. *)
Fixpoint single_spaced (s : pystr) : Prop :=
  match s with
  | [] => True
  | c :: s' => (is_space c = true -> c = 32%N /\ starts_clean s') /\ single_spaced s'
  end.

End OrderSpec.
Export OrderSpec.

(** ** Notions for the further properties *)

Module HelperSpec.

(** [s.strip(chars)] for the characters of the class [p]. *)
Definition trim (p : pychar -> bool) (s : pystr) : pystr :=
  reverse (drop_while p (reverse (drop_while p s))).








End HelperSpec.
Export HelperSpec.

(** ** Sample inputs *)

Module Samples.

Definition silicon : material := Material (Some (py "Si")) (Some (py "Si")) (Some (207 # 100000000)).
Definition oxide : material := Material (Some (py "SiO2")) (Some (py "SiO2")) (Some (347 # 100000000)).
Definition heavy_water : material :=
  Material (Some (py "D2O")) (Some (py "D2O")) (Some (636 # 100000000)).

Definition layer_si : orso_layer := OrsoLayer (Some (py "Si")) (Some silicon) None None.
Definition layer_oxide : orso_layer :=
  OrsoLayer (Some (py "SiO2")) (Some oxide) (Some (Quantity (Some 10))) (Some (Quantity (Some 4))).
(** A layer whose thickness has a unit that cannot be converted. *)
Definition layer_bad : orso_layer :=
  OrsoLayer (Some (py "SiO2")) (Some oxide) (Some (Quantity None)) None.
Definition layer_d2o : orso_layer := OrsoLayer (Some (py "D2O")) (Some heavy_water) None None.

Definition resolver (layers : list orso_layer) : pystr -> option (list orso_layer) :=
  fun _ => Some layers.

Definition ds_plain : dataset :=
  Dataset (Some (py "D2O contrast th=0.5"))
    (Some (SampleModel (py "Si | SiO2 | D2O") (resolver [layer_si; layer_oxide; layer_d2o]))).

Definition ds_malformed : dataset :=
  Dataset (Some (py "D2O contrast"))
    (Some (SampleModel (py "Si | SiO2 | D2O") (resolver [layer_si; layer_bad; layer_d2o]))).

Definition ds_bilayer : dataset :=
  Dataset (Some (py "bilayer_D2O"))
    (Some (SampleModel (py "Si | SiO2 | bilayer(inner=DPPC, outer=DPPC) | D2O")
             (resolver [layer_si; layer_oxide; layer_d2o]))).

Definition ds_other_bilayer : dataset :=
  Dataset (Some (py "bilayer_H2O"))
    (Some (SampleModel (py "Si | bilayer(inner=POPC, outer=DOPC) | D2O")
             (resolver [layer_si; layer_d2o]))).

Definition ds_no_model : dataset := Dataset (Some (py "empty")) None.

(** A lipid table with the reference lipid only. *)
Definition pc_head : component := Component (Some 331) (Some (NslArray [6; 2])).
Definition c16_tails : component := Component (Some 780) (Some (NslScalar (-3))).
Definition dppc : lipid := Lipid (Some [pc_head]) None (Some c16_tails).
Definition only_dppc : lipid_table :=
  fun n => if decide (n = DPPC) then Some dppc else None.

(** A table of two lipids: the reference lipid, its head in two
    components whose scattering lengths are arrays, and a lipid of which
    only one scattering length is known. *)
Definition choline : component := Component (Some 120) (Some (NslArray [6; 2])).
Definition phosphate : component := Component (Some 211) (Some (NslArray [1; 1])).
Definition dppc_two : lipid := Lipid (Some [choline; phosphate]) None (Some c16_tails).
Definition dopg : lipid := Lipid (Some [Component None (Some (NslScalar 5))]) None None.
Definition two_lipids : lipid_table :=
  fun n => if decide (n = DPPC) then Some dppc_two
           else if decide (n = py "DOPG") then Some dopg else None.

(** The layers and the enriched spec of a contrast with one internal
    layer and one bilayer. *)
Definition one_layer_contrast : list layer :=
  [Layer (py "Si") 0 (207 # 100000000) 3;
   Layer (py "SiO2") 10 (347 # 100000000) 4;
   Layer (py "D2O") 0 (636 # 100000000) 3].

Definition dppc_bilayer : bilayer_spec :=
  BilayerSpec (py "DPPC") (py "DPPC") 331 780 331 780
    (18 # 10000000) (-4 # 10000000) (18 # 10000000) (-4 # 10000000).

(** Nine scalars: substrate roughness, one layer, one bilayer whose inner
    head is dry and whose outer head is fully hydrated. *)
Definition nine_params : list Q := [3; 10; 347 # 100000000; 4; 60; 0; 1; 1 # 10; 4].

(** NFKD on text whose only character outside ASCII is U+00E9, which
    decomposes into [e] and the combining acute accent U+0301. *)
Definition nfkd_e_acute (s : pystr) : pystr :=
  s ≫= (fun c => if (c =? 233)%N then [101%N; 769%N] else [c]).

(** A contrast with two internal layers, the second without thickness and
    of negative SLD, and twelve scalars for it and one bilayer. *)
Definition two_layer_contrast : list layer :=
  [Layer (py "Si") 0 (207 # 100000000) 3;
   Layer (py "SiO2") 10 (347 # 100000000) 4;
   Layer (py "CH2") 0 (- (5 # 10000000)) 3;
   Layer (py "D2O") 0 (636 # 100000000) 3].

Definition twelve_params : list Q :=
  [3; 10; 347 # 100000000; 4; 0; - (5 # 10000000); 3; 60; 0; 1; 1 # 10; 4].

End Samples.

(** * Properties *)

Arguments set_var : simpl never.

(** ** Strings *)

Section StringFacts.
Implicit Types (p : pychar -> bool) (s r w t : pystr).

Lemma take_drop_while p s : take_while p s ++ drop_while p s = s.
Proof.
  induction s as [|c s IH]; simpl; [reflexivity|].
  destruct (p c); simpl; [now rewrite IH | reflexivity].
Qed.

Lemma take_while_Forall p s : Forall (fun c => p c = true) (take_while p s).
Proof.
  induction s as [|c s IH]; simpl; [constructor|].
  destruct (p c) eqn:E; [constructor; assumption | constructor].
Qed.

Lemma drop_while_head p s : starts_without p (drop_while p s).
Proof.
  induction s as [|c s IH]; simpl; [exact I|].
  destruct (p c) eqn:E; [exact IH | exact E].
Qed.

Lemma drop_while_all p w r :
  Forall (fun c => p c = true) w -> drop_while p (w ++ r) = drop_while p r.
Proof.
  induction 1 as [|c w Hc _ IH]; simpl; [reflexivity|].
  now rewrite Hc.
Qed.

Lemma drop_while_clean p r : starts_without p r -> drop_while p r = r.
Proof. destruct r as [|c r]; simpl; [reflexivity|]. now intros ->. Qed.

Lemma take_while_all p w r :
  Forall (fun c => p c = true) w -> take_while p (w ++ r) = w ++ take_while p r.
Proof.
  induction 1 as [|c w Hc _ IH]; simpl; [reflexivity|].
  now rewrite Hc, IH.
Qed.

Lemma take_while_clean p r : starts_without p r -> take_while p r = [].
Proof. destruct r as [|c r]; simpl; [reflexivity|]. now intros ->. Qed.

Lemma strip_prefix_app w r : strip_prefix w (w ++ r) = Some r.
Proof.
  induction w as [|c w IH]; simpl; [reflexivity|].
  now rewrite N.eqb_refl.
Qed.

Lemma strip_prefix_Some w s r : strip_prefix w s = Some r -> s = w ++ r.
Proof.
  revert s; induction w as [|c w IH]; intros s; simpl.
  - now intros [= ->].
  - destruct s as [|d s]; [discriminate|].
    destruct (N.eqb_spec c d) as [->|]; [|discriminate].
    intros H. now rewrite (IH _ H).
Qed.

Lemma word_not_space c : is_word c = true -> is_space c = false.
Proof.
  unfold is_word, is_space. intros H.
  rewrite !orb_true_iff, !andb_true_iff, !N.leb_le, N.eqb_eq in H.
  rewrite !orb_false_iff, !andb_false_iff, !N.leb_gt, !N.eqb_neq. lia.
Qed.

Lemma spaces_starts_without_word w r :
  spaces w -> starts_without is_word r -> starts_without is_word (w ++ r).
Proof.
  intros Hw Hr. destruct Hw as [|c w Hc _]; simpl; [exact Hr|].
  destruct (is_word c) eqn:E; [|reflexivity].
  apply word_not_space in E. congruence.
Qed.

(** *** [strip] *)

Lemma lstrip_split t : exists a, t = a ++ lstrip t /\ spaces a.
Proof.
  exists (take_while is_space t). split.
  - symmetry. apply take_drop_while.
  - apply take_while_Forall.
Qed.

Lemma rstrip_split t : exists b, t = rstrip t ++ b /\ spaces b.
Proof.
  exists (reverse (take_while is_space (reverse t))). split.
  - unfold rstrip. rewrite <- reverse_app, take_drop_while.
    now rewrite reverse_involutive.
  - unfold spaces. rewrite Forall_reverse. apply take_while_Forall.
Qed.

Lemma strip_split t : exists a b, t = a ++ strip t ++ b /\ spaces a /\ spaces b.
Proof.
  destruct (lstrip_split t) as (a & Ha & Hsa).
  destruct (rstrip_split (lstrip t)) as (b & Hb & Hsb).
  exists a, b. unfold strip. rewrite <- Hb. auto.
Qed.

Lemma strip_unique a t b :
  spaces a -> spaces b -> stripped t -> strip (a ++ t ++ b) = t.
Proof.
  intros Ha Hb [Hl Hr]. unfold strip, lstrip, rstrip.
  rewrite drop_while_all by exact Ha.
  destruct t as [|c t].
  - simpl. replace (drop_while is_space b) with (@nil N).
    + reflexivity.
    + rewrite <- (app_nil_r b). rewrite drop_while_all by exact Hb. reflexivity.
  - rewrite (drop_while_clean is_space ((c :: t) ++ b)) by exact Hl.
    rewrite reverse_app, drop_while_all.
    + rewrite drop_while_clean by exact Hr. apply reverse_involutive.
    + unfold spaces in Hb. now rewrite Forall_reverse.
Qed.

Lemma strip_stripped t : stripped (strip t).
Proof.
  split.
  - destruct (rstrip_split (lstrip t)) as (b & Hb & _).
    fold (strip t) in Hb.
    pose proof (drop_while_head is_space t) as Hh. fold (lstrip t) in Hh.
    rewrite Hb in Hh. destruct (strip t); [exact I | exact Hh].
  - unfold strip, rstrip. rewrite reverse_involutive. apply drop_while_head.
Qed.

Lemma strip_pad a t b : spaces a -> spaces b -> strip (a ++ t ++ b) = strip t.
Proof.
  intros Ha Hb. destruct (strip_split t) as (a' & b' & Ht & Ha' & Hb').
  rewrite Ht at 1.
  replace (a ++ (a' ++ strip t ++ b') ++ b) with ((a ++ a') ++ strip t ++ (b' ++ b))
    by (now rewrite <- !app_assoc).
  apply strip_unique.
  - apply Forall_app; auto.
  - apply Forall_app; auto.
  - apply strip_stripped.
Qed.

Lemma strip_id t : stripped t -> strip t = t.
Proof.
  intros H.
  pose proof (strip_unique [] t [] ltac:(constructor) ltac:(constructor) H) as E.
  simpl in E. now rewrite app_nil_r in E.
Qed.

Lemma strip_keeps_out (c : pychar) t : c ∉ t -> c ∉ strip t.
Proof.
  intros Hc Hin. apply Hc.
  destruct (strip_split t) as (a & b & Ht & _). rewrite Ht.
  rewrite !elem_of_app. auto.
Qed.

(** *** [split] and [join] *)

Lemma split_not_nil sep s : split sep s <> [].
Proof.
  destruct s as [|c s]; simpl; [discriminate|].
  destruct (c =? sep)%N; [discriminate|].
  destruct (split sep s); discriminate.
Qed.

Lemma split_without sep t : sep ∉ t -> split sep t = [t].
Proof.
  induction t as [|c t IH]; simpl; [reflexivity|].
  intros H. rewrite not_elem_of_cons in H. destruct H as [Hc Ht].
  destruct (N.eqb_spec c sep) as [->|_]; [congruence|].
  now rewrite IH.
Qed.

Lemma split_at_sep sep a b :
  sep ∉ a -> split sep (a ++ sep :: b) = a :: split sep b.
Proof.
  induction a as [|c a IH]; simpl.
  - now rewrite N.eqb_refl.
  - intros H. rewrite not_elem_of_cons in H. destruct H as [Hc Ha].
    destruct (N.eqb_spec c sep) as [->|_]; [congruence|].
    now rewrite IH.
Qed.

Lemma split_pieces sep s : Forall (fun t => sep ∉ t) (split sep s).
Proof.
  induction s as [|c s IH]; simpl.
  - constructor; [apply not_elem_of_nil | constructor].
  - destruct (N.eqb_spec c sep) as [->|Hne].
    + constructor; [apply not_elem_of_nil | exact IH].
    + destruct (split sep s) as [|t ts]; simpl.
      * constructor; [|constructor].
        rewrite not_elem_of_cons. split; [congruence | apply not_elem_of_nil].
      * inversion IH; subst. constructor; [|assumption].
        rewrite not_elem_of_cons. split; [congruence | assumption].
Qed.

Lemma spaces_no_bar a : spaces a -> 124%N ∉ a.
Proof.
  intros Ha Hin. unfold spaces in Ha. rewrite Forall_forall in Ha.
  specialize (Ha _ Hin). vm_compute in Ha. discriminate.
Qed.

Lemma tokenize_plain stack : Forall plain_token (tokenize stack).
Proof.
  unfold tokenize. rewrite Forall_fmap.
  eapply Forall_impl; [apply (split_pieces 124%N)|].
  intros t Ht. split; [now apply strip_keeps_out | apply strip_stripped].
Qed.

(** Splitting what [join] wrote gives the joined tokens back. *)
Lemma tokenize_join_from a kept :
  spaces a -> kept <> [] -> Forall plain_token kept ->
  tokenize (a ++ join (py " | ") kept) = kept.
Proof.
  intros Ha Hne Hk. revert a Ha.
  induction Hk as [|t kept [Hbar Hstr] Hk IH]; [congruence|]; intros a Ha.
  destruct kept as [|t2 kept].
  - simpl. unfold tokenize. rewrite split_without.
    + simpl. f_equal. rewrite <- (app_nil_r t) at 1.
      now rewrite strip_pad, strip_id by (assumption || constructor).
    + rewrite not_elem_of_app. split; [now apply spaces_no_bar | assumption].
  - change (join (py " | ") (t :: t2 :: kept))
      with (t ++ [32; 124; 32]%N ++ join (py " | ") (t2 :: kept)).
    replace (a ++ t ++ [32; 124; 32]%N ++ join (py " | ") (t2 :: kept))
      with ((a ++ t ++ [32%N]) ++ 124%N :: ([32%N] ++ join (py " | ") (t2 :: kept)))
      by (now rewrite <- !app_assoc).
    unfold tokenize. rewrite split_at_sep.
    + rewrite fmap_cons. f_equal.
      * rewrite strip_pad, strip_id; auto. now repeat constructor.
      * apply (IH ltac:(discriminate) [32%N]). now repeat constructor.
    + rewrite !not_elem_of_app. repeat split.
      * now apply spaces_no_bar.
      * assumption.
      * intros H. apply list_elem_of_singleton in H. discriminate.
Qed.

Lemma tokenize_join kept :
  kept <> [] -> Forall plain_token kept -> tokenize (join (py " | ") kept) = kept.
Proof. intros. now apply (tokenize_join_from []); [constructor| |]. Qed.

End StringFacts.

(** ** The stack-token extractor *)

Section TokenFacts.
Implicit Types (s r w t g : pystr).

Lemma ws_skip w r : spaces w -> starts_without is_space r -> ws (w ++ r) = r.
Proof.
  intros Hw Hr. unfold ws. rewrite drop_while_all by exact Hw.
  now apply drop_while_clean.
Qed.

Lemma lit_app (p : string) r : lit p (py p ++ r) = Some r.
Proof. apply strip_prefix_app. Qed.

Lemma ident_take g r :
  identifier g -> starts_without is_word r -> ident (g ++ r) = Some (g, r).
Proof.
  intros [Hne Hg] Hr. unfold ident.
  rewrite take_while_all, drop_while_all by exact Hg.
  rewrite take_while_clean, drop_while_clean, app_nil_r by exact Hr.
  destruct g; [congruence | reflexivity].
Qed.

Lemma identifier_starts g r : identifier g -> starts_without is_space (g ++ r).
Proof.
  intros [Hne Hg]. destruct g as [|c g]; [congruence|].
  inversion Hg; subst. simpl. now apply word_not_space.
Qed.

Lemma lit_ws_inv (p : string) s r :
  lit p (ws s) = Some r -> exists w, spaces w /\ s = w ++ py p ++ r.
Proof.
  intros H. apply strip_prefix_Some in H.
  exists (take_while is_space s). split; [apply take_while_Forall|].
  rewrite <- H. symmetry. apply take_drop_while.
Qed.

Lemma ident_inv s g r : ident s = Some (g, r) -> identifier g /\ s = g ++ r.
Proof.
  unfold ident. intros H.
  pose proof (take_while_Forall is_word s) as Hall.
  pose proof (take_drop_while is_word s) as Hs.
  destruct (take_while is_word s) as [|c g'] eqn:E; [discriminate|].
  injection H as <- <-. split; [split; [discriminate | exact Hall] | now symmetry].
Qed.

Lemma ident_ws_inv s g r :
  ident (ws s) = Some (g, r) -> exists w, spaces w /\ identifier g /\ s = w ++ g ++ r.
Proof.
  intros H. apply ident_inv in H as [Hg Hs].
  exists (take_while is_space s). split; [apply take_while_Forall|]. split; [exact Hg|].
  rewrite <- Hs. symmetry. apply take_drop_while.
Qed.

Lemma ws_nil_inv s : ws s = [] -> spaces s.
Proof.
  intros H. pose proof (take_drop_while is_space s) as E.
  unfold ws in H. rewrite H, app_nil_r in E. rewrite <- E. apply take_while_Forall.
Qed.

(** The matcher accepts the tokens of the documented shape, with the two
    identifiers as its groups. *)
Lemma RE_BILAYER_complete t g1 g2 :
  bilayer_shape t g1 g2 -> RE_BILAYER t = Some (g1, g2).
Proof.
  intros [w1 w2 w3 w4 w5 w6 w7 w8 w9 w10 H1 H2 H3 H4 H5 H6 H7 H8 H9 H10 Hg1 Hg2 ->].
  unfold RE_BILAYER.
  rewrite lit_app; cbn [mbind option_bind].
  rewrite (ws_skip w1) by (exact H1 || exact eq_refl). rewrite lit_app; cbn [mbind option_bind].
  rewrite (ws_skip w2) by (exact H2 || exact eq_refl). rewrite lit_app; cbn [mbind option_bind].
  rewrite (ws_skip w3) by (exact H3 || exact eq_refl). rewrite lit_app; cbn [mbind option_bind].
  rewrite (ws_skip w4) by (exact H4 || now apply identifier_starts).
  rewrite (ident_take g1)
    by (exact Hg1 || (apply spaces_starts_without_word; [exact H5 | exact eq_refl])).
  cbn [mbind option_bind].
  rewrite (ws_skip w5) by (exact H5 || exact eq_refl). rewrite lit_app; cbn [mbind option_bind].
  rewrite (ws_skip w6) by (exact H6 || exact eq_refl). rewrite lit_app; cbn [mbind option_bind].
  rewrite (ws_skip w7) by (exact H7 || exact eq_refl). rewrite lit_app; cbn [mbind option_bind].
  rewrite (ws_skip w8) by (exact H8 || now apply identifier_starts).
  rewrite (ident_take g2)
    by (exact Hg2 || (apply spaces_starts_without_word; [exact H9 | exact eq_refl])).
  cbn [mbind option_bind].
  rewrite (ws_skip w9) by (exact H9 || exact eq_refl). rewrite lit_app; cbn [mbind option_bind].
  replace (ws w10) with (@nil N); [reflexivity|].
  unfold ws. rewrite <- (app_nil_r w10). now rewrite drop_while_all.
Qed.

(** Whatever the matcher accepts has the documented shape. *)
Lemma RE_BILAYER_sound t g1 g2 :
  RE_BILAYER t = Some (g1, g2) -> bilayer_shape t g1 g2.
Proof.
  unfold RE_BILAYER. intros H.
  destruct (lit "bilayer" t) as [s1|] eqn:E1; [|discriminate]; simpl in H.
  destruct (lit "(" (ws s1)) as [s2|] eqn:E2; [|discriminate]; simpl in H.
  destruct (lit "inner" (ws s2)) as [s3|] eqn:E3; [|discriminate]; simpl in H.
  destruct (lit "=" (ws s3)) as [s4|] eqn:E4; [|discriminate]; simpl in H.
  destruct (ident (ws s4)) as [[g1' s5]|] eqn:E5; [|discriminate]; simpl in H.
  destruct (lit "," (ws s5)) as [s6|] eqn:E6; [|discriminate]; simpl in H.
  destruct (lit "outer" (ws s6)) as [s7|] eqn:E7; [|discriminate]; simpl in H.
  destruct (lit "=" (ws s7)) as [s8|] eqn:E8; [|discriminate]; simpl in H.
  destruct (ident (ws s8)) as [[g2' s9]|] eqn:E9; [|discriminate]; simpl in H.
  destruct (lit ")" (ws s9)) as [s10|] eqn:E10; [|discriminate]; simpl in H.
  destruct (ws s10) eqn:E11; [|discriminate].
  injection H as -> ->.
  apply strip_prefix_Some in E1.
  apply lit_ws_inv in E2 as (w1 & H1 & ->).
  apply lit_ws_inv in E3 as (w2 & H2 & ->).
  apply lit_ws_inv in E4 as (w3 & H3 & ->).
  apply ident_ws_inv in E5 as (w4 & H4 & Hg1 & ->).
  apply lit_ws_inv in E6 as (w5 & H5 & ->).
  apply lit_ws_inv in E7 as (w6 & H6 & ->).
  apply lit_ws_inv in E8 as (w7 & H7 & ->).
  apply ident_ws_inv in E9 as (w8 & H8 & Hg2 & ->).
  apply lit_ws_inv in E10 as (w9 & H9 & ->).
  apply ws_nil_inv in E11.
  now apply (BilayerShape t g1 g2 w1 w2 w3 w4 w5 w6 w7 w8 w9 s10).
Qed.

Lemma RE_BILAYER_None t : RE_BILAYER t = None -> ~ well_formed t.
Proof.
  intros H (g1 & g2 & Hs). apply RE_BILAYER_complete in Hs. congruence.
Qed.

Lemma scan_tokens_partition tokens :
  token_partition tokens (scan_tokens tokens).1 (scan_tokens tokens).2.
Proof.
  induction tokens as [|t ts IH]; simpl; [constructor|].
  destruct (scan_tokens ts) as [bs kept]. simpl in IH.
  destruct (RE_BILAYER t) as [[g1 g2]|] eqn:E; simpl.
  - apply partition_bilayer; [now apply RE_BILAYER_sound | exact IH].
  - apply partition_other; [now apply RE_BILAYER_None | exact IH].
Qed.

Lemma scan_tokens_kept tokens P :
  Forall P tokens -> Forall P (scan_tokens tokens).2.
Proof.
  induction 1 as [|t ts Ht _ IH]; simpl; [constructor|].
  destruct (scan_tokens ts) as [bs kept]. simpl in IH.
  destruct (RE_BILAYER t) as [[g1 g2]|]; simpl; [exact IH | now constructor].
Qed.

Lemma scan_tokens_none tokens :
  Forall (fun t => ~ well_formed t) tokens -> scan_tokens tokens = ([], tokens).
Proof.
  induction 1 as [|t ts Ht _ IH]; simpl; [reflexivity|].
  rewrite IH. destruct (RE_BILAYER t) as [[g1 g2]|] eqn:E; [|reflexivity].
  exfalso. apply Ht. exists g1, g2. now apply RE_BILAYER_sound.
Qed.

(** The partition of a token list is unique: the relation determines
    what the extractor returns. *)
Lemma token_partition_unique tokens bs kept :
  token_partition tokens bs kept -> scan_tokens tokens = (bs, kept).
Proof.
  induction 1 as [|t g1 g2 ts bs kept Hs _ IH|t ts bs kept Hn _ IH]; simpl.
  - reflexivity.
  - rewrite IH. now rewrite (RE_BILAYER_complete _ _ _ Hs).
  - rewrite IH. destruct (RE_BILAYER t) as [[g1 g2]|] eqn:E; [|reflexivity].
    exfalso. apply Hn. exists g1, g2. now apply RE_BILAYER_sound.
Qed.

End TokenFacts.

Section ExtractBilayers.

Lemma extract_unfold stack :
  extract_bilayers_from_model stack
  = ((scan_tokens (tokenize stack)).1, join (py " | ") (scan_tokens (tokenize stack)).2).
Proof.
  unfold extract_bilayers_from_model. now destruct (scan_tokens (tokenize stack)).
Qed.

Lemma partition_kept_other tokens bs kept :
  token_partition tokens bs kept -> Forall (fun t => ~ well_formed t) kept.
Proof. induction 1; auto. Qed.

Lemma empty_token_other : ~ well_formed [].
Proof. apply RE_BILAYER_None. reflexivity. Qed.

(** Extracting again from a stack the extractor wrote finds nothing and
    writes the same stack. *)
Lemma extract_again stack :
  let new_stack := (extract_bilayers_from_model stack).2 in
  extract_bilayers_from_model new_stack = ([], new_stack).
Proof.
  cbv zeta. rewrite (extract_unfold stack). cbn [snd].
  pose proof (scan_tokens_partition (tokenize stack)) as Hp.
  pose proof (scan_tokens_kept _ _ (tokenize_plain stack)) as Hk.
  destruct (scan_tokens (tokenize stack)) as [bs kept]. cbn [fst snd] in *.
  rewrite extract_unfold.
  destruct kept as [|t kept].
  - reflexivity.
  - rewrite tokenize_join by (discriminate || exact Hk).
    rewrite scan_tokens_none; [reflexivity|].
    eapply partition_kept_other, Hp.
Qed.

End ExtractBilayers.

(** C2 (as the code has it). For every stack string, the tokens are the
    stripped pieces between the [|] delimiters; [extract_bilayers_from_model]
    returns exactly the tokens of the shape [bilayer(inner=.., outer=..)] as
    [{inner, outer}] records in their order, and writes back the other tokens,
    in their order and unchanged, joined by [" | "]; re-reading the written
    stack gives those tokens back. When no token matches the returned list is
    empty and the stack written is the stripped tokens joined by [" | "]: the
    stack is rewritten in that form (it is the same string exactly when it
    already had it, as every stack the extractor wrote has). *)
Theorem C2_extract_bilayers_partition (stack : pystr) :
  let bilayers := (extract_bilayers_from_model stack).1 in
  let new_stack := (extract_bilayers_from_model stack).2 in
  exists kept,
    token_partition (tokenize stack) bilayers kept
    /\ new_stack = join (py " | ") kept
    /\ (kept <> [] -> tokenize new_stack = kept)
    /\ (Forall (fun t => ~ well_formed t) (tokenize stack) ->
        bilayers = [] /\ new_stack = join (py " | ") (tokenize stack)
        /\ (new_stack = stack <-> stack = join (py " | ") (tokenize stack)))
    /\ extract_bilayers_from_model new_stack = ([], new_stack).
Proof.
  cbv zeta. pose proof (extract_again stack) as Hagain. cbv zeta in Hagain.
  revert Hagain. rewrite (extract_unfold stack). cbn [fst snd]. intros Hagain.
  exists (scan_tokens (tokenize stack)).2.
  split; [apply scan_tokens_partition|].
  split; [reflexivity|].
  split.
  { intros Hne. apply tokenize_join; [exact Hne|].
    apply scan_tokens_kept, tokenize_plain. }
  split; [|exact Hagain].
  intros Hnone. rewrite (scan_tokens_none _ Hnone). cbn [fst snd].
  repeat split; intros H; congruence.
Qed.

(** C2, the claim as stated fails: in the stack [a|b] no token is a bilayer
    token, yet the stack written back is [a | b]. *)
Lemma C2_unmatched_stack_rewritten :
  Forall (fun t => ~ well_formed t) (tokenize (py "a|b"))
  /\ (extract_bilayers_from_model (py "a|b")).1 = []
  /\ (extract_bilayers_from_model (py "a|b")).2 = py "a | b"
  /\ py "a | b" <> py "a|b".
Proof.
  split; [|split; [reflexivity | split; [reflexivity | discriminate]]].
  repeat constructor; apply RE_BILAYER_None; reflexivity.
Qed.

(** ** The model extractor *)

Section ExtractionFacts.
Variable lower : pystr -> pystr.

Lemma collect_layers_kept rs : kept_layers rs (collect_layers rs).
Proof.
  induction rs as [|li rs IH]; [constructor|].
  unfold collect_layers. cbn [omap list_omap].
  destruct (_extract_layer li) as [l|e] eqn:E.
  - now apply kept_ok.
  - now apply (kept_drop li e).
Qed.

Lemma last_cons_cons {A} (a b : A) l : exists z, last (a :: b :: l) = Some z.
Proof.
  revert a b. induction l as [|c l IH]; intros a b; [now exists b|].
  destruct (IH b c) as [z Hz]. exists z. exact Hz.
Qed.

(** What one iteration does to the lists, by whether the contrast is
    skipped. *)
Lemma process_dataset_skipped i ds st :
  skipped ds = true ->
  let st' := process_dataset lower i ds st in
  layers_all st' = layers_all st /\ bulk_ins st' = bulk_ins st
  /\ bulk_outs st' = bulk_outs st
  /\ length (contrast_names st') = S (length (contrast_names st)).
Proof.
  unfold skipped, resolved_layers_of, process_dataset. cbv zeta.
  destruct (model ds) as [m|]; cbn [mbind option_bind].
  - destruct (extract_bilayers_from_model (stack m)) as [bs new_stack]. cbn [snd].
    destruct (resolve_to_layers m new_stack) as [[|a [|b rs]]|]; intros H;
      try discriminate; cbn; rewrite length_app; cbn; repeat split; lia.
  - intros _. cbn. rewrite length_app. cbn. repeat split; lia.
Qed.

Lemma process_dataset_used i ds st rs :
  resolved_layers_of ds = Some rs -> (2 <= length rs)%nat ->
  let st' := process_dataset lower i ds st in
  layers_all st' = layers_all st ++ [collect_layers rs]
  /\ length (bulk_ins st') = S (length (bulk_ins st))
  /\ length (bulk_outs st') = S (length (bulk_outs st))
  /\ length (contrast_names st') = S (length (contrast_names st)).
Proof.
  unfold resolved_layers_of, process_dataset. cbv zeta.
  destruct (model ds) as [m|]; cbn [mbind option_bind]; [|discriminate].
  destruct (extract_bilayers_from_model (stack m)) as [bs new_stack]. cbn [snd].
  intros -> Hlen. destruct rs as [|a [|b rs]]; cbn in Hlen; try lia.
  destruct (last_cons_cons a b rs) as [z ->].
  cbn. rewrite !length_app. cbn. repeat split; lia.
Qed.

Lemma skipped_false ds :
  skipped ds = false ->
  exists rs, resolved_layers_of ds = Some rs /\ (2 <= length rs)%nat.
Proof.
  unfold skipped. destruct (resolved_layers_of ds) as [[|a [|b rs]]|]; try discriminate.
  intros _. eexists. split; [reflexivity | cbn; lia].
Qed.

(** The bilayer tokens the run keeps after one iteration. *)
Lemma process_dataset_raw i ds st :
  bilayer_specs_raw (process_dataset lower i ds st)
  = match bilayer_specs_raw st, bilayers_of ds with
    | Some old, _ => Some old
    | None, [] => None
    | None, bs => Some bs
    end.
Proof.
  unfold process_dataset, bilayers_of. cbv zeta.
  destruct (model ds) as [m|].
  - destruct (extract_bilayers_from_model (stack m)) as [bs new_stack]. cbn [fst].
    destruct (resolve_to_layers m new_stack) as [[|a [|b rs]]|].
    3: destruct (last_cons_cons a b rs) as [z ->].
    all: cbn; destruct (bilayer_specs_raw st), bs; reflexivity.
  - cbn. now destruct (bilayer_specs_raw st).
Qed.

Lemma process_datasets_app i d1 d2 st :
  process_datasets lower i (d1 ++ d2) st
  = process_datasets lower (i + length d1) d2 (process_datasets lower i d1 st).
Proof.
  revert i st. induction d1 as [|ds d1 IH]; intros i st; cbn.
  - now rewrite Nat.add_0_r.
  - rewrite IH. f_equal. lia.
Qed.

(** Once set, the bilayer tokens of the run never change. *)
Lemma process_datasets_raw_fixed i data st toks :
  bilayer_specs_raw st = Some toks ->
  bilayer_specs_raw (process_datasets lower i data st) = Some toks.
Proof.
  revert i st. induction data as [|ds data IH]; intros i st H; cbn; [exact H|].
  apply IH. rewrite process_dataset_raw. now rewrite H.
Qed.

Lemma process_datasets_raw_none i data st :
  bilayer_specs_raw st = None ->
  Forall (fun ds => bilayers_of ds = []) data ->
  bilayer_specs_raw (process_datasets lower i data st) = None.
Proof.
  intros H Hall. revert i st H.
  induction Hall as [|ds data Hds _ IH]; intros i st H; cbn; [exact H|].
  apply IH. rewrite process_dataset_raw. now rewrite H, Hds.
Qed.

(** The lengths of the lists after the loop. *)
Lemma process_datasets_lengths i data st :
  let st' := process_datasets lower i data st in
  length (contrast_names st') = (length (contrast_names st) + length data)%nat
  /\ length (bulk_ins st')
     = (length (bulk_ins st) + length (filter (fun ds => skipped ds = false) data))%nat
  /\ length (bulk_outs st')
     = (length (bulk_outs st) + length (filter (fun ds => skipped ds = false) data))%nat
  /\ length (layers_all st')
     = (length (layers_all st) + length (filter (fun ds => skipped ds = false) data))%nat.
Proof.
  cbv zeta. revert i st. induction data as [|ds data IH]; intros i st.
  - cbn. repeat split; lia.
  - cbn [process_datasets]. specialize (IH (S i) (process_dataset lower i ds st)).
    destruct IH as (Hn & Hi & Ho & Hl). rewrite Hn, Hi, Ho, Hl. clear Hn Hi Ho Hl.
    rewrite filter_cons. destruct (skipped ds) eqn:E.
    + destruct (process_dataset_skipped i ds st E) as (-> & -> & -> & ->).
      rewrite decide_False by discriminate. cbn. repeat split; lia.
    + destruct (skipped_false ds E) as (rs & Hrs & Hlen).
      destruct (process_dataset_used i ds st rs Hrs Hlen) as (-> & -> & -> & ->).
      rewrite decide_True by reflexivity. rewrite length_app. cbn. repeat split; lia.
Qed.

End ExtractionFacts.

(** C3 (as the code has it). When normalizing a resolved layer raises, the
    loop over the layers catches the error: that layer alone is left out,
    the other layers of the contrast are kept in their order, and the
    contrast is recorded with its layer list and its two bulk media. *)
Theorem C3_malformed_layer_dropped (lower : pystr -> pystr) (i : nat)
    (ds : dataset) (st : extraction) (rs : list orso_layer) :
  resolved_layers_of ds = Some rs -> (2 <= length rs)%nat ->
  let st' := process_dataset lower i ds st in
  exists kept,
    kept_layers rs kept
    /\ layers_all st' = layers_all st ++ [kept]
    /\ length (bulk_ins st') = S (length (bulk_ins st))
    /\ length (bulk_outs st') = S (length (bulk_outs st)).
Proof.
  intros Hrs Hlen. cbv zeta.
  destruct (process_dataset_used lower i ds st rs Hrs Hlen) as (Hl & Hi & Ho & _).
  exists (collect_layers rs). repeat split; auto using collect_layers_kept.
Qed.

(** A contrast whose second of three layers cannot be normalized. *)
Lemma C3_malformed_layer_dropped_witness :
  resolved_layers_of Samples.ds_malformed
  = Some [Samples.layer_si; Samples.layer_bad; Samples.layer_d2o]
  /\ exists kept,
       kept_layers [Samples.layer_si; Samples.layer_bad; Samples.layer_d2o] kept
       /\ layers_all (process_dataset ascii_lower 1 Samples.ds_malformed extraction_start)
          = layers_all extraction_start ++ [kept]
       /\ length (bulk_ins (process_dataset ascii_lower 1 Samples.ds_malformed extraction_start))
          = S (length (bulk_ins extraction_start))
       /\ length (bulk_outs (process_dataset ascii_lower 1 Samples.ds_malformed extraction_start))
          = S (length (bulk_outs extraction_start)).
Proof.
  split; [reflexivity|].
  apply (C3_malformed_layer_dropped ascii_lower 1 Samples.ds_malformed extraction_start
           [Samples.layer_si; Samples.layer_bad; Samples.layer_d2o]);
    [reflexivity | simpl; lia].
Defined.

(** C3, the claim as stated fails: the second resolved layer of this
    contrast cannot be normalized, and the contrast still contributes its
    other two layers and both bulk media. *)
Lemma C3_contrast_not_aborted :
  resolved_layers_of Samples.ds_malformed
  = Some [Samples.layer_si; Samples.layer_bad; Samples.layer_d2o]
  /\ _extract_layer Samples.layer_bad = Raise malformed
  /\ layers_all (process_dataset ascii_lower 1 Samples.ds_malformed extraction_start)
     = [[Layer (py "Si") 0 (207 # 100000000) 3; Layer (py "D2O") 0 (636 # 100000000) 3]]
  /\ bulk_ins (process_dataset ascii_lower 1 Samples.ds_malformed extraction_start)
     = [Bulk (py "Si") (207 # 100000000)]
  /\ bulk_outs (process_dataset ascii_lower 1 Samples.ds_malformed extraction_start)
     = [Bulk (py "D2O") (636 # 100000000)].
Proof. repeat split; vm_compute; reflexivity. Qed.

(** C8. Over all the contrasts of a run, the bilayer tokens kept are those
    of the first contrast whose stack holds any; the contrasts after it
    never add to them or change them, and the enriched specs the run
    returns are built from exactly those tokens. *)
Theorem C8_first_bilayer_contrast_defines_types (lower : pystr -> pystr)
    (molgroups : option lipid_table) (before : list dataset) (d : dataset)
    (after : list dataset) :
  Forall (fun ds => bilayers_of ds = []) before ->
  bilayers_of d <> [] ->
  bilayer_specs_raw (process_datasets lower 1 (before ++ d :: after) extraction_start)
  = Some (bilayers_of d)
  /\ forall x,
       process_orso_file lower molgroups (before ++ d :: after) = Ok x ->
       build_bilayer_specs molgroups (Some (bilayers_of d)) = Ok (x_bilayer_specs x).
Proof.
  intros Hbefore Hd.
  assert (bilayer_specs_raw (process_datasets lower 1 (before ++ d :: after) extraction_start)
          = Some (bilayers_of d)) as Hraw.
  { rewrite process_datasets_app. cbn [process_datasets].
    apply process_datasets_raw_fixed. rewrite process_dataset_raw.
    rewrite process_datasets_raw_none by (reflexivity || exact Hbefore).
    destruct (bilayers_of d); [congruence | reflexivity]. }
  split; [exact Hraw|].
  intros x. unfold process_orso_file. rewrite Hraw.
  destruct (layers_all _); [discriminate|].
  destruct (build_bilayer_specs molgroups (Some (bilayers_of d))) as [specs|e];
    cbn; [|discriminate].
  now intros [= <-].
Qed.

(** Five contrasts; the third is the first with a bilayer token, the fourth
    has another one. *)
Lemma C8_first_bilayer_contrast_defines_types_witness :
  bilayers_of Samples.ds_bilayer = [BilayerToken (py "DPPC") (py "DPPC")]
  /\ bilayers_of Samples.ds_other_bilayer = [BilayerToken (py "POPC") (py "DOPC")]
  /\ bilayer_specs_raw
       (process_datasets ascii_lower 1
          ([Samples.ds_no_model; Samples.ds_plain]
             ++ Samples.ds_bilayer :: [Samples.ds_other_bilayer; Samples.ds_plain])
          extraction_start)
     = Some (bilayers_of Samples.ds_bilayer)
  /\ forall x,
       process_orso_file ascii_lower (Some Samples.only_dppc)
         ([Samples.ds_no_model; Samples.ds_plain]
            ++ Samples.ds_bilayer :: [Samples.ds_other_bilayer; Samples.ds_plain]) = Ok x ->
       build_bilayer_specs (Some Samples.only_dppc) (Some (bilayers_of Samples.ds_bilayer))
       = Ok (x_bilayer_specs x).
Proof.
  split; [reflexivity|]. split; [reflexivity|].
  apply (C8_first_bilayer_contrast_defines_types ascii_lower (Some Samples.only_dppc)
           [Samples.ds_no_model; Samples.ds_plain] Samples.ds_bilayer
           [Samples.ds_other_bilayer; Samples.ds_plain]).
  - repeat constructor.
  - discriminate.
Defined.

(** ** Lipid constants and enriched specs *)

(** *** Sums of volumes and scattering lengths *)

Section SumFacts.

Lemma fold_left_Qplus (xs : list Q) (a : Q) : fold_left Qplus xs a == a + total xs.
Proof.
  revert a. induction xs as [|x xs IH]; intros a; cbn [fold_left total].
  - ring.
  - rewrite IH. ring.
Qed.

Lemma pysum_total (xs : list Q) : pysum xs == total xs.
Proof. unfold pysum. rewrite fold_left_Qplus. ring. Qed.

Lemma total_app (xs ys : list Q) : total (xs ++ ys) == total xs + total ys.
Proof. induction xs as [|x xs IH]; cbn [app total]; [ring | rewrite IH; ring]. Qed.

Lemma total_concat (xss : list (list Q)) : total (concat xss) == total (total <$> xss).
Proof.
  induction xss as [|xs xss IH]; [reflexivity|].
  cbn [concat fmap list_fmap total]. rewrite total_app, IH. reflexivity.
Qed.

Lemma scalars_of_Some cs :
  Forall (fun c => ~ has_array c) cs ->
  scalars_of (nsl_values cs) = Some (cs ≫= nsl_entries).
Proof.
  induction 1 as [|c cs Hc _ IH]; [reflexivity|].
  unfold scalars_of, nsl_values in *. cbn [fmap list_fmap mapM mbind list_bind].
  unfold nsl_entries at 1. unfold has_array in Hc.
  destruct (nSLs c) as [[x|ys]|]; cbn [nsl_or_zero default].
  - rewrite IH. reflexivity.
  - exfalso. apply Hc. eauto.
  - rewrite IH. reflexivity.
Qed.

Lemma scalars_of_None cs :
  Exists has_array cs -> scalars_of (nsl_values cs) = None.
Proof.
  induction 1 as [c cs [ys Hc]|c cs _ IH];
    unfold scalars_of, nsl_values in *; cbn [fmap list_fmap mapM].
  - rewrite Hc. reflexivity.
  - rewrite IH. destruct (nsl_or_zero (nSLs c)); reflexivity.
Qed.

Lemma arrays_of_Some n cs :
  Forall (fun c => exists xs, nSLs c = Some (NslArray xs) /\ length xs = n) cs ->
  exists xss, arrays_of (nsl_values cs) = Some xss
              /\ concat xss = cs ≫= nsl_entries
              /\ Forall (fun xs => length xs = n) xss.
Proof.
  induction 1 as [|c cs (ys & Hc & Hlen) _ (xss & IH & Hcat & Hall)].
  - exists []. repeat split; constructor.
  - unfold arrays_of, nsl_values in *. cbn [fmap list_fmap mapM].
    rewrite Hc. cbn [nsl_or_zero default]. rewrite IH. cbn.
    exists (ys :: xss). split; [reflexivity|]. split.
    + cbn. unfold nsl_entries at 1. rewrite Hc. now rewrite Hcat.
    + constructor; assumption.
Qed.

Lemma same_length_true n (xss : list (list Q)) :
  Forall (fun xs => length xs = n) xss -> same_length xss = true.
Proof.
  intros H. destruct H as [|xs xss Hx Hall]; [reflexivity|].
  cbn. apply forallb_forall. intros ys Hys. apply Nat.eqb_eq.
  rewrite Forall_forall in Hall. rewrite Hx. apply Hall. now apply list_elem_of_In.
Qed.

Lemma arrays_of_inv vs xss :
  arrays_of vs = Some xss -> vs = NslArray <$> xss.
Proof.
  unfold arrays_of. revert xss. induction vs as [|v vs IH]; intros xss; cbn.
  - now intros [= <-].
  - destruct v as [x|ys]; cbn; [discriminate|].
    destruct (mapM _ vs) as [yss|] eqn:E; cbn; [|discriminate].
    intros [= <-]. cbn. f_equal. now apply IH.
Qed.

Lemma same_length_inv (xss : list (list Q)) :
  same_length xss = true -> exists n, Forall (fun xs => length xs = n) xss.
Proof.
  destruct xss as [|xs xss]; [exists 0%nat; constructor|].
  cbn. intros H. exists (length xs). constructor; [reflexivity|].
  apply Forall_forall. intros ys Hys. apply Nat.eqb_eq.
  rewrite forallb_forall in H. apply H. now apply list_elem_of_In.
Qed.

(** What [scalar_nsl] makes of the head components: their summed
    scattering lengths when these stack into an array, and 0 when numpy
    refuses them. *)
Lemma head_nsl_summed cs :
  stackable cs -> scalar_nsl true (ArgList (nsl_values cs)) == summed_nsl cs.
Proof.
  unfold scalar_nsl, summed_nsl. cbn [negb np_array_sum].
  intros [Hs|[n Ha]].
  - rewrite (scalars_of_Some cs Hs). apply pysum_total.
  - destruct (arrays_of_Some n cs Ha) as (xss & Hxss & Hcat & Hall).
    destruct (scalars_of (nsl_values cs)) as [xs|] eqn:E.
    + (* all arrays and all scalars: no component at all *)
      destruct cs as [|c cs].
      * cbn in E. injection E as <-. reflexivity.
      * exfalso. inversion Ha as [|? ? (ys & Hc & _) _]; subst.
        rewrite scalars_of_None in E; [discriminate|]. left. exists ys. exact Hc.
    + rewrite Hxss, (same_length_true n) by exact Hall. rewrite Hcat. apply pysum_total.
Qed.

Lemma head_nsl_refused cs :
  ~ stackable cs -> scalar_nsl true (ArgList (nsl_values cs)) = 0.
Proof.
  intros Hn. unfold scalar_nsl. cbn [negb np_array_sum float_of].
  destruct (scalars_of (nsl_values cs)) as [xs|] eqn:E.
  - exfalso. apply Hn. left. apply Forall_forall. intros c Hc Harr.
    rewrite scalars_of_None in E; [discriminate|].
    apply Exists_exists. eauto.
  - destruct (arrays_of (nsl_values cs)) as [xss|] eqn:Ea; [|reflexivity].
    destruct (same_length xss) eqn:El; [|reflexivity].
    exfalso. apply Hn. right. destruct (same_length_inv xss El) as [n Hall].
    exists n. apply arrays_of_inv in Ea. unfold nsl_values in Ea.
    clear -Ea Hall. revert xss Ea Hall. induction cs as [|c cs IH]; intros xss Ea Hall.
    + constructor.
    + destruct xss as [|ys xss]; [discriminate|]. cbn in Ea. injection Ea as Hc Hrest.
      inversion Hall; subst. constructor; [|now apply (IH xss)].
      exists ys. split; [|reflexivity].
      destruct (nSLs c) as [[x|zs]|]; cbn in Hc; congruence.
Qed.

Lemma head_volume_summed cs :
  pysum ((fun c => attr_or_zero (cell_volume c)) <$> cs) == summed_volume cs.
Proof. rewrite pysum_total. reflexivity. Qed.

Lemma tail_nsl_summed (t : component) :
  scalar_nsl true (ArgValue (nsl_or_zero (nSLs t))) == total (nsl_entries t).
Proof.
  unfold scalar_nsl, nsl_entries. cbn [negb np_array_sum].
  destruct (nSLs t) as [[x|xs]|]; cbn [nsl_or_zero default total id].
  - ring.
  - apply pysum_total.
  - ring.
Qed.

End SumFacts.

(** *** The resolver *)

Section LipidFacts.

Lemma fallback_positive (x d : Q) : 0 < d -> 0 < (if Qle_bool x 0 then d else x).
Proof.
  intros Hd. destruct (Qle_bool x 0) eqn:E; [exact Hd|].
  apply Qnot_le_lt. intros H. apply Qle_bool_iff in H. congruence.
Qed.

Lemma fallback_keeps (x d : Q) : 0 < x -> (if Qle_bool x 0 then d else x) = x.
Proof.
  intros Hx. destruct (Qle_bool x 0) eqn:E; [|reflexivity].
  apply Qle_bool_iff in E. exfalso. apply (Qlt_irrefl 0).
  now apply Qlt_le_trans with x.
Qed.

Lemma fallback_replaces (x d : Q) : x <= 0 -> (if Qle_bool x 0 then d else x) = d.
Proof. intros Hx. apply Qle_bool_iff in Hx. now rewrite Hx. Qed.

Lemma sld_of_positive (vol nsl : Q) :
  0 < vol -> sld_of vol nsl = if Qeq_bool nsl 0 then 0 else nsl * (1 # 100000) / vol.
Proof.
  intros Hv. unfold sld_of.
  replace (Qle_bool vol 0) with false.
  - now destruct (Qeq_bool nsl 0).
  - symmetry. destruct (Qle_bool vol 0) eqn:E; [|reflexivity].
    apply Qle_bool_iff in E. exfalso. apply (Qlt_irrefl 0).
    now apply Qlt_le_trans with vol.
Qed.

(** The object the resolver reads for an identifier. *)
Lemma get_lipid_constants_unfold (lipids : lipid_table) (n : pystr) (ref : lipid) :
  lipids DPPC = Some ref ->
  let obj := default ref (lipids n) in
  let hv0 := (head_of obj).1 in
  let hv1 := if Qle_bool hv0 0 then attr_or_zero (headgroup_volume obj) else hv0 in
  let hv := if Qle_bool hv1 0 then 330 else hv1 in
  let tv := if Qle_bool (tail_of obj).1 0 then 800 else (tail_of obj).1 in
  get_lipid_constants (Some lipids) n
  = Ok (Some (LipidConstants n hv (sld_of hv (head_of obj).2)
                             tv (sld_of tv (tail_of obj).2))).
Proof.
  intros Href. cbv zeta. unfold get_lipid_constants. rewrite Href.
  destruct (lipids n) as [obj|]; cbn [default mbind result_bind];
    (destruct (head_of _) as [hv0 hn]; destruct (tail_of _) as [tv0 tn]; reflexivity).
Qed.

Lemma head_of_summed (obj : lipid) :
  let cs := default [] (headgroup_components obj) in
  (head_of obj).1 == summed_volume cs
  /\ (stackable cs -> (head_of obj).2 == summed_nsl cs)
  /\ (~ stackable cs -> (head_of obj).2 = 0).
Proof.
  cbv zeta. unfold head_of. destruct (headgroup_components obj) as [cs|]; cbn [default fst snd].
  - split; [apply head_volume_summed|]. split; [apply head_nsl_summed | apply head_nsl_refused].
  - split; [reflexivity|]. split; [reflexivity|]. intros H. exfalso. apply H. left. constructor.
Qed.

Lemma tail_of_summed (obj : lipid) :
  (tail_of obj).1 = match tails obj with Some t => volume_of t | None => 0 end
  /\ (tail_of obj).2 == match tails obj with Some t => total (nsl_entries t) | None => 0 end.
Proof.
  unfold tail_of. destruct (tails obj) as [t|]; cbn [fst snd].
  - split; [reflexivity | apply tail_nsl_summed].
  - split; reflexivity.
Qed.

Lemma sld_of_cases (vol nsl nsl' : Q) :
  0 < vol -> nsl == nsl' ->
  (~ nsl' == 0 -> sld_of vol nsl == nsl' * (1 # 100000) / vol)
  /\ (nsl' == 0 -> sld_of vol nsl = 0).
Proof.
  intros Hv Hn. rewrite sld_of_positive by exact Hv. split.
  - intros Hnz. destruct (Qeq_bool nsl 0) eqn:E.
    + apply Qeq_bool_iff in E. rewrite Hn in E. contradiction.
    + now rewrite Hn.
  - intros Hz. rewrite <- Hn in Hz. apply Qeq_bool_iff in Hz. now rewrite Hz.
Qed.

Lemma get_lipid_constants_total (lipids : lipid_table) (n : pystr) :
  is_Some (lipids DPPC) ->
  exists c, get_lipid_constants (Some lipids) n = Ok (Some c).
Proof.
  intros [ref Href]. eexists. now apply (get_lipid_constants_unfold lipids n ref).
Qed.

Lemma build_loop_spec (lipids : lipid_table) (raw : list bilayer_token)
    (calls : list pystr) (acc : list bilayer_spec) :
  is_Some (lipids DPPC) ->
  exists specs,
    build_loop (Some lipids) raw calls acc
    = (calls ++ resolver_calls raw, Ok (acc ++ specs))
    /\ Forall2 (enriched_from (Some lipids)) raw specs.
Proof.
  intros Href. revert calls acc.
  induction raw as [|tok raw IH]; intros calls acc; cbn [build_loop].
  - exists []. rewrite !app_nil_r. split; [reflexivity | constructor].
  - destruct (get_lipid_constants_total lipids (inner tok) Href) as [ci Hci].
    destruct (get_lipid_constants_total lipids (outer tok) Href) as [co Hco].
    rewrite Hci, Hco.
    destruct (IH (calls ++ [inner tok; outer tok])
                (acc ++ [merge_spec tok (_flatten_lipid (Some ci)) (_flatten_lipid (Some co))]))
      as (specs & -> & Hall).
    eexists (_ :: specs). split.
    + unfold resolver_calls. cbn. now rewrite <- !app_assoc.
    + constructor; [|exact Hall]. exists ci, co. auto.
Qed.

End LipidFacts.

(** C4. [build_bilayer_specs] on an absent or empty token list returns the
    empty list and calls the resolver not once; on a non-empty token list
    without the property table it raises a [RuntimeError] and returns no
    spec; with the table it returns one enriched spec per token, in the
    order of the tokens, after resolving the inner then the outer lipid of
    each. *)
Theorem C4_build_bilayer_specs (molgroups : option lipid_table) (lipids : lipid_table)
    (raw : list bilayer_token) :
  is_Some (lipids DPPC) ->
  build_bilayer_specs_traced molgroups None = ([], Ok [])
  /\ build_bilayer_specs_traced molgroups (Some []) = ([], Ok [])
  /\ (raw <> [] ->
      build_bilayer_specs_traced None (Some raw)
      = ([], Raise (RuntimeError
           "Detected bilayer(...) in model stack, but molgroups.lipids is not installed.")))
  /\ exists specs,
       build_bilayer_specs_traced (Some lipids) (Some raw) = (resolver_calls raw, Ok specs)
       /\ build_bilayer_specs (Some lipids) (Some raw) = Ok specs
       /\ Forall2 (enriched_from (Some lipids)) raw specs.
Proof.
  intros Href. split; [reflexivity|]. split; [reflexivity|]. split.
  - intros Hne. destruct raw; [congruence|]. reflexivity.
  - destruct raw as [|tok raw].
    + exists []. repeat split; constructor.
    + destruct (build_loop_spec lipids (tok :: raw) [] [] Href) as (specs & Hrun & Hall).
      exists specs. unfold build_bilayer_specs, build_bilayer_specs_traced.
      rewrite Hrun. auto.
Qed.

(** One token over a table that holds the reference lipid only. *)
Lemma C4_build_bilayer_specs_witness :
  is_Some (Samples.only_dppc DPPC)
  /\ build_bilayer_specs_traced None None = ([], Ok [])
  /\ build_bilayer_specs_traced None (Some []) = ([], Ok [])
  /\ ([BilayerToken (py "DPPC") (py "POPC")] <> [] ->
      build_bilayer_specs_traced None (Some [BilayerToken (py "DPPC") (py "POPC")])
      = ([], Raise (RuntimeError
           "Detected bilayer(...) in model stack, but molgroups.lipids is not installed.")))
  /\ exists specs,
       build_bilayer_specs_traced (Some Samples.only_dppc)
         (Some [BilayerToken (py "DPPC") (py "POPC")])
       = (resolver_calls [BilayerToken (py "DPPC") (py "POPC")], Ok specs)
       /\ build_bilayer_specs (Some Samples.only_dppc)
            (Some [BilayerToken (py "DPPC") (py "POPC")]) = Ok specs
       /\ Forall2 (enriched_from (Some Samples.only_dppc))
            [BilayerToken (py "DPPC") (py "POPC")] specs.
Proof.
  split; [eexists; reflexivity|].
  apply (C4_build_bilayer_specs None Samples.only_dppc [BilayerToken (py "DPPC") (py "POPC")]).
  eexists; reflexivity.
Defined.

(** C5. With the property table present, [get_lipid_constants] returns a
    constants record for every identifier. An unknown identifier is read
    from the DPPC entry. The head volume is the sum of the cell volumes of
    the head components (a missing one counting 0, and no components when
    the headgroup cannot be read) when that is positive, else the
    headgroup-volume attribute when that is positive, else 330; the tail
    volume is the tails' cell volume when positive, else 800; neither is
    ever zero. The head SLD is [nSL * 1e-5 / volume] for the nSL summed
    over all entries of all head components when that sum and the volume
    are nonzero, and [0] otherwise; it is also [0] when the components'
    nSLs do not stack into one array (numbers mixed with arrays, or arrays
    of different lengths), for which numpy has no sum. The tail SLD is the
    same of the tails' summed nSL. *)
Theorem C5_lipid_constants_complete (lipids : lipid_table) (lipid_name : pystr)
    (ref : lipid) :
  lipids DPPC = Some ref ->
  let obj := default ref (lipids lipid_name) in
  let head_components := default [] (headgroup_components obj) in
  let components_vol := summed_volume head_components in
  let attribute_vol := default 0 (headgroup_volume obj) in
  let head_nsl := summed_nsl head_components in
  let tails_vol := match tails obj with Some t => volume_of t | None => 0 end in
  let tail_nsl := match tails obj with Some t => total (nsl_entries t) | None => 0 end in
  exists c,
    get_lipid_constants (Some lipids) lipid_name = Ok (Some c)
    /\ const_name c = lipid_name
    /\ (0 < components_vol -> head_vol c == components_vol)
    /\ (components_vol <= 0 -> 0 < attribute_vol -> head_vol c = attribute_vol)
    /\ (components_vol <= 0 -> attribute_vol <= 0 -> head_vol c = 330)
    /\ (0 < tails_vol -> tail_vol c = tails_vol)
    /\ (tails_vol <= 0 -> tail_vol c = 800)
    /\ 0 < head_vol c /\ 0 < tail_vol c
    /\ (stackable head_components -> ~ head_vol c == 0 /\ ~ head_nsl == 0 ->
        head_sld c == head_nsl * (1 # 100000) / head_vol c)
    /\ (stackable head_components -> head_vol c == 0 \/ head_nsl == 0 -> head_sld c = 0)
    /\ (~ stackable head_components -> head_sld c = 0)
    /\ (~ tail_vol c == 0 /\ ~ tail_nsl == 0 ->
        tail_sld c == tail_nsl * (1 # 100000) / tail_vol c)
    /\ (tail_vol c == 0 \/ tail_nsl == 0 -> tail_sld c = 0).
Proof.
  intros Href. cbv zeta.
  pose proof (get_lipid_constants_unfold lipids lipid_name ref Href) as H. cbv zeta in H.
  set (obj := default ref (lipids lipid_name)) in *.
  destruct (head_of_summed obj) as (Hvol & Hnsl & Hrefused). cbv zeta in Hvol, Hnsl, Hrefused.
  destruct (tail_of_summed obj) as (Htvol & Htnsl).
  set (cs := default [] (headgroup_components obj)) in *.
  eexists. split; [exact H|]. cbn [const_name head_vol tail_vol head_sld tail_sld].
  set (hv0 := (head_of obj).1) in *. set (av := attr_or_zero (headgroup_volume obj)).
  set (tv0 := (tail_of obj).1) in *.
  assert (0 < (if Qle_bool (if Qle_bool hv0 0 then av else hv0) 0 then 330
               else if Qle_bool hv0 0 then av else hv0)) as Hhv
    by (now apply fallback_positive).
  assert (0 < (if Qle_bool tv0 0 then 800 else tv0)) as Htv
    by (now apply fallback_positive).
  split; [reflexivity|].
  split. { intros Hp. rewrite <- Hvol in Hp. rewrite !(fallback_keeps hv0) by exact Hp.
           exact Hvol. }
  split. { intros Hn Hp. rewrite <- Hvol in Hn. rewrite (fallback_replaces hv0) by exact Hn.
           now apply fallback_keeps. }
  split. { intros Hn Hn'. rewrite <- Hvol in Hn. rewrite (fallback_replaces hv0) by exact Hn.
           now apply fallback_replaces. }
  split. { intros Hp. rewrite <- Htvol in *. now apply fallback_keeps. }
  split. { intros Hn. rewrite <- Htvol in *. now apply fallback_replaces. }
  split; [exact Hhv|]. split; [exact Htv|].
  split. { intros Hst [_ Hnz]. now apply (sld_of_cases _ _ _ Hhv (Hnsl Hst)). }
  split. { intros Hst [Hz|Hz].
           - rewrite Hz in Hhv. now apply Qlt_irrefl in Hhv.
           - now apply (sld_of_cases _ _ _ Hhv (Hnsl Hst)). }
  split. { intros Hst. rewrite (Hrefused Hst). apply (sld_of_cases _ 0 0 Hhv); reflexivity. }
  split. { intros [_ Hnz]. now apply (sld_of_cases _ _ _ Htv Htnsl). }
  intros [Hz|Hz].
  - rewrite Hz in Htv. now apply Qlt_irrefl in Htv.
  - now apply (sld_of_cases _ _ _ Htv Htnsl).
Qed.

(** An identifier the table does not know, read from a DPPC entry whose
    head has two components; and a lipid without volumes and tails, which
    gets the defaults 330 and 800. *)
Lemma C5_lipid_constants_complete_witness :
  Samples.two_lipids DPPC = Some Samples.dppc_two
  /\ Samples.two_lipids (py "POPC") = None
  /\ (exists c,
        get_lipid_constants (Some Samples.two_lipids) (py "POPC") = Ok (Some c)
        /\ const_name c = py "POPC"
        /\ head_vol c == 331 /\ head_sld c == 10 * (1 # 100000) / 331
        /\ tail_vol c = 780 /\ tail_sld c == -3 * (1 # 100000) / 780)
  /\ (exists c,
        get_lipid_constants (Some Samples.two_lipids) (py "DOPG") = Ok (Some c)
        /\ const_name c = py "DOPG"
        /\ head_vol c = 330 /\ head_sld c == 5 * (1 # 100000) / 330
        /\ tail_vol c = 800 /\ tail_sld c = 0).
Proof.
  split; [reflexivity|]. split; [reflexivity|]. split.
  - destruct (C5_lipid_constants_complete Samples.two_lipids (py "POPC") Samples.dppc_two eq_refl)
      as (c & Hc & Hname & Hhv & _ & _ & Htv & _ & _ & _ & Hhs & _ & _ & Hts & _).
    exists c. split; [exact Hc|]. split; [exact Hname|].
    assert (head_vol c == 331) as Hv by (apply Hhv; reflexivity).
    split; [exact Hv|]. split.
    { rewrite <- Hv. apply Hhs.
      - right. exists 2%nat. repeat constructor; eexists; split; reflexivity.
      - split; [rewrite Hv|]; discriminate. }
    assert (tail_vol c = 780) as Ht by (apply Htv; reflexivity).
    split; [exact Ht|]. rewrite <- Ht. apply Hts. split; [rewrite Ht|]; discriminate.
  - destruct (C5_lipid_constants_complete Samples.two_lipids (py "DOPG") Samples.dppc_two eq_refl)
      as (c & Hc & Hname & _ & _ & Hhv & _ & Htv & _ & _ & Hhs & _ & _ & _ & Hts).
    exists c. split; [exact Hc|]. split; [exact Hname|].
    assert (head_vol c = 330) as Hv by (apply Hhv; discriminate).
    split; [exact Hv|]. split.
    { rewrite <- Hv. apply Hhs.
      - left. repeat constructor. intros [xs Hxs]. discriminate Hxs.
      - split; [rewrite Hv|]; discriminate. }
    split; [apply Htv; discriminate|]. apply Hts. right. reflexivity.
Defined.

(** ** The names of the workspace variables *)

Section VarTextFacts.

Lemma py_inj (s1 s2 : string) : py s1 = py s2 -> s1 = s2.
Proof.
  unfold py. intros H.
  rewrite <- (String.string_of_list_ascii_of_string s1),
          <- (String.string_of_list_ascii_of_string s2).
  f_equal. revert H.
  generalize (String.list_ascii_of_string s1) (String.list_ascii_of_string s2).
  intros l1. induction l1 as [|a l1 IH]; intros [|b l2]; cbn; try discriminate.
  - reflexivity.
  - intros [= Hab Hl]. f_equal; [|now apply IH].
    rewrite <- (Ascii.ascii_N_embedding a), <- (Ascii.ascii_N_embedding b).
    now rewrite Hab.
Qed.

Lemma str_of_nat_inj (i j : nat) : str_of_nat i = str_of_nat j -> i = j.
Proof. unfold str_of_nat. intros H. apply py_inj in H. now apply (inj pretty). Qed.




















End VarTextFacts.

(** ** Running the generated model function *)

Section RunFacts.
Variables (nfkd : pystr -> pystr) (fmt_6g : Q -> Q).
Variables (params bulkOut : list Q) (contrast : nat).

#[local] Abbreviation exec := (Matlab.exec params bulkOut contrast).
#[local] Abbreviation exec_line := (Matlab.exec_line params bulkOut contrast).
#[local] Abbreviation eval := (Matlab.eval bulkOut contrast).

Lemma exec_app ls1 ls2 w :
  exec (ls1 ++ ls2) w = exec ls1 w ≫= exec ls2.
Proof.
  revert w. induction ls1 as [|l ls1 IH]; intros w; cbn; [reflexivity|].
  destruct (exec_line l w) as [w'|]; cbn; [apply IH | reflexivity].
Qed.

Lemma index1_param k :
  (1 <= k <= length params)%nat -> index1 params k = Some (param params k).
Proof.
  intros Hk. destruct k as [|k]; [lia|]. cbn. unfold param.
  replace (S k - 1)%nat with k by lia.
  destruct (lookup_lt_is_Some_2 params k) as [x Hx]; [lia|].
  rewrite Hx. f_equal. symmetry. now apply nth_lookup_Some.
Qed.

Lemma vars_set_same w v x : vars (set_var w v x) v = Some x.
Proof. unfold set_var. cbn. now rewrite decide_True. Qed.

Lemma vars_set_other w v x u : u <> v -> vars (set_var w v x) u = vars w u.
Proof. intros H. unfold set_var. cbn. now rewrite decide_False. Qed.

Lemma idx_set_var w v x : idx (set_var w v x) = idx w.
Proof. reflexivity. Qed.

Lemma output_set_var w v x : output (set_var w v x) = output w.
Proof. reflexivity. Qed.

Ltac lookup_var :=
  repeat (cbn [vars idx output];
          first [ rewrite vars_set_same
                | rewrite vars_set_other by (discriminate || congruence) ]).

(** Reading one scalar. *)
Lemma exec_read v k w :
  idx w = Some k -> (1 <= k <= length params)%nat ->
  exec_line (MRead v) w
  = Some (Workspace (vars (set_var w v (VNum (param params k)))) (Some (S k)) (output w)).
Proof.
  intros Hk Hr. cbn. rewrite Hk. cbn. now rewrite index1_param.
Qed.

(** *** The blocks of the unpacking loops *)

Lemma exec_unpack_layer i L w k :
  idx w = Some k -> (1 <= k)%nat -> (k + 2 <= length params)%nat ->
  exists w',
    exec (unpack_layer nfkd i L) w = Some w'
    /\ idx w' = Some (k + 3)%nat /\ output w' = output w
    /\ (forall f, vars w' (layerVar i f) = Some (VNum (param params (k + field_offset f))))
    /\ (forall u, (forall f, u <> layerVar i f) -> vars w' u = vars w u).
Proof.
  intros Hk H1 Hlen. unfold unpack_layer. cbn [Matlab.exec].
  change (exec_line (MComment _) w) with (Some w). cbn [mbind option_bind].
  rewrite (exec_read _ k) by (assumption || lia). cbn [mbind option_bind].
  rewrite (exec_read _ (S k)) by (reflexivity || lia). cbn [mbind option_bind].
  rewrite (exec_read _ (S (S k))) by (reflexivity || lia). cbn [mbind option_bind].
  eexists. split; [reflexivity|]. cbn [idx output vars].
  split; [f_equal; lia|]. split; [reflexivity|]. split.
  - intros []; lookup_var; cbn [field_offset].
    + now rewrite Nat.add_0_r.
    + now replace (k + 1)%nat with (S k) by lia.
    + now replace (k + 2)%nat with (S (S k)) by lia.
  - intros u Hu. repeat (cbn [vars]; rewrite vars_set_other by apply Hu). reflexivity.
Qed.

Lemma exec_unpack_bilayer j bl w k :
  idx w = Some k -> (1 <= k)%nat -> (k + 4 <= length params)%nat ->
  exists w',
    exec (unpack_bilayer nfkd j bl) w = Some w'
    /\ idx w' = Some (k + 5)%nat /\ output w' = output w
    /\ (forall p, vars w' (bilayerVar j p) = Some (VNum (param params (k + bilayer_offset p))))
    /\ (forall u, (forall p, u <> bilayerVar j p) -> vars w' u = vars w u).
Proof.
  intros Hk H1 Hlen. unfold unpack_bilayer. cbn [Matlab.exec].
  change (exec_line (MComment _) w) with (Some w). cbn [mbind option_bind].
  rewrite (exec_read _ k) by (assumption || lia). cbn [mbind option_bind].
  rewrite (exec_read _ (S k)) by (reflexivity || lia). cbn [mbind option_bind].
  rewrite (exec_read _ (S (S k))) by (reflexivity || lia). cbn [mbind option_bind].
  rewrite (exec_read _ (S (S (S k)))) by (reflexivity || lia). cbn [mbind option_bind].
  rewrite (exec_read _ (S (S (S (S k))))) by (reflexivity || lia). cbn [mbind option_bind].
  eexists. split; [reflexivity|]. cbn [idx output vars].
  split; [f_equal; lia|]. split; [reflexivity|]. split.
  - intros []; lookup_var; cbn [bilayer_offset]; do 2 f_equal; f_equal; lia.
  - intros u Hu. repeat (cbn [vars]; rewrite vars_set_other by apply Hu). reflexivity.
Qed.

Lemma exec_bilayer_constants j bl w :
  exists w',
    exec (bilayer_constants nfkd fmt_6g j bl) w = Some w'
    /\ idx w' = idx w /\ output w' = output w
    /\ (forall s, vars w' (vConst j s) = Some (VNum (fmt_6g (sub_volume s bl))))
    /\ (forall s, vars w' (sldConst j s) = Some (VNum (fmt_6g (sub_sld s bl))))
    /\ (forall u, (forall s, u <> vConst j s) -> (forall s, u <> sldConst j s) ->
                  vars w' u = vars w u).
Proof.
  unfold bilayer_constants. cbn [Matlab.exec Matlab.exec_line mbind option_bind].
  eexists. split; [reflexivity|].
  split; [reflexivity|]. split; [reflexivity|]. split; [|split].
  - intros []; lookup_var; reflexivity.
  - intros []; lookup_var; reflexivity.
  - intros u Hv Hs. repeat (rewrite vars_set_other by (apply Hv || apply Hs)). reflexivity.
Qed.

(** *** The blocks of the stack-building loops *)

Lemma get_num_vars w u x : vars w u = Some (VNum x) -> get_num w u = Some x.
Proof. unfold get_num. now intros ->. Qed.

Lemma get_mat_vars w u r : vars w u = Some (VMat r) -> get_mat w u = Some r.
Proof. unfold get_mat. now intros ->. Qed.

Lemma exec_stack_layer i w out a b c :
  output w = Some out ->
  vars w (layerVar i Thick) = Some (VNum a) ->
  vars w (layerVar i SLD) = Some (VNum b) ->
  vars w (layerVar i Rough) = Some (VNum c) ->
  exists w',
    exec (stack_layer i) w = Some w'
    /\ idx w' = idx w /\ output w' = Some (out ++ [(a, b, c)])
    /\ (forall u, is_input u -> vars w' u = vars w u).
Proof.
  intros Hout Ha Hb Hc. unfold stack_layer.
  cbn [Matlab.exec Matlab.exec_line mbind option_bind].
  rewrite (get_num_vars _ _ _ Ha), (get_num_vars _ _ _ Hb), (get_num_vars _ _ _ Hc).
  cbn [mbind option_bind]. rewrite output_set_var, Hout. cbn [mbind option_bind].
  rewrite (get_mat_vars _ _ [(a, b, c)]) by apply vars_set_same.
  cbn [mbind option_bind].
  eexists. split; [reflexivity|]. cbn [idx output vars].
  repeat split. intros u Hu. apply vars_set_other. intros ->. exact Hu.
Qed.

Lemma exec_stack_bilayer j w out b (bp : bilayer_param -> Q) (vc sc : sublayer -> Q) :
  output w = Some out ->
  index1 bulkOut contrast = Some b ->
  (forall p, vars w (bilayerVar j p) = Some (VNum (bp p))) ->
  (forall s, vars w (vConst j s) = Some (VNum (vc s))) ->
  (forall s, vars w (sldConst j s) = Some (VNum (sc s))) ->
  exists w',
    exec (stack_bilayer j) w = Some w'
    /\ idx w' = idx w
    /\ output w'
       = Some (out ++
               [ (vc HeadInner / bp APM, mix (bp HeadHydInner) b (sc HeadInner), bp BRough);
                 (vc TailInner / bp APM, mix (bp BilayerHydration) b (sc TailInner), bp BRough);
                 (vc TailOuter / bp APM, mix (bp BilayerHydration) b (sc TailOuter), bp BRough);
                 (vc HeadOuter / bp APM, mix (bp HeadHydOuter) b (sc HeadOuter), bp BRough) ])
    /\ (forall u, is_input u -> vars w' u = vars w u).
Proof.
  intros Hout Hb Hbp Hvc Hsc. unfold stack_bilayer, hydrate.
  repeat (cbn [Matlab.exec Matlab.exec_line Matlab.eval mbind option_bind
               output idx vars mapM mret option_ret];
          unfold get_num, get_mat;
          rewrite ?output_set_var;
          first [ rewrite vars_set_same
                | rewrite vars_set_other by discriminate
                | rewrite Hbp | rewrite Hvc | rewrite Hsc | rewrite Hout | rewrite Hb ]).
  cbn [Matlab.exec Matlab.exec_line Matlab.eval mbind option_bind get_num get_mat
       output idx vars mapM mret option_ret concat app].
  eexists. split; [reflexivity|]. cbn [idx output vars].
  split; [reflexivity|]. split; [reflexivity|].
  intros u Hu. repeat (rewrite vars_set_other by (intros ->; exact Hu)). reflexivity.
Qed.

End RunFacts.

Section LoopFacts.
Variables (nfkd : pystr -> pystr) (fmt_6g : Q -> Q).
Variables (params bulkOut : list Q) (contrast : nat).

#[local] Abbreviation exec := (Matlab.exec params bulkOut contrast).

Lemma exec_unpack_layers layers i0 w k :
  idx w = Some k -> (1 <= k)%nat -> (k - 1 + 3 * length layers <= length params)%nat ->
  exists w',
    exec (for_each (unpack_layer nfkd) i0 layers) w = Some w'
    /\ idx w' = Some (k + 3 * length layers)%nat /\ output w' = output w
    /\ (forall n f, (n < length layers)%nat ->
          vars w' (layerVar (i0 + n) f)
          = Some (VNum (param params (k + 3 * n + field_offset f))))
    /\ (forall u, (forall n f, (n < length layers)%nat -> u <> layerVar (i0 + n) f) ->
          vars w' u = vars w u).
Proof.
  revert i0 w k. induction layers as [|L layers IH]; intros i0 w k Hk H1 Hlen.
  - exists w. cbn [for_each Matlab.exec length]. split; [reflexivity|].
    split; [rewrite Hk; f_equal; lia|]. split; [reflexivity|].
    split; [intros; lia | reflexivity].
  - cbn [for_each length] in *. rewrite exec_app.
    destruct (exec_unpack_layer nfkd params bulkOut contrast i0 L w k Hk H1)
      as (w1 & -> & Hk1 & Ho1 & Hv1 & Hf1); [lia|].
    cbn [mbind option_bind].
    destruct (IH (S i0) w1 (k + 3)%nat Hk1) as (w2 & -> & Hk2 & Ho2 & Hv2 & Hf2); try lia.
    exists w2. split; [reflexivity|].
    split; [rewrite Hk2; f_equal; lia|]. split; [congruence|]. split.
    + intros [|n] f Hn.
      * rewrite Nat.add_0_r, Hf2, Hv1; [do 3 f_equal; lia|].
        intros n f' _. intros [=]. lia.
      * replace (i0 + S n)%nat with (S i0 + n)%nat by lia.
        rewrite Hv2 by lia. do 3 f_equal. lia.
    + intros u Hu. rewrite Hf2, Hf1; [reflexivity| |].
      * intros f. specialize (Hu 0%nat f). rewrite Nat.add_0_r in Hu. apply Hu. lia.
      * intros n f Hn. replace (S i0 + n)%nat with (i0 + S n)%nat by lia. apply Hu. lia.
Qed.

Lemma exec_unpack_bilayers bilayers j0 w k :
  idx w = Some k -> (1 <= k)%nat -> (k - 1 + 5 * length bilayers <= length params)%nat ->
  exists w',
    exec (for_each (unpack_bilayer nfkd) j0 bilayers) w = Some w'
    /\ idx w' = Some (k + 5 * length bilayers)%nat /\ output w' = output w
    /\ (forall n p, (n < length bilayers)%nat ->
          vars w' (bilayerVar (j0 + n) p)
          = Some (VNum (param params (k + 5 * n + bilayer_offset p))))
    /\ (forall u, (forall n p, (n < length bilayers)%nat -> u <> bilayerVar (j0 + n) p) ->
          vars w' u = vars w u).
Proof.
  revert j0 w k. induction bilayers as [|bl bilayers IH]; intros j0 w k Hk H1 Hlen.
  - exists w. cbn [for_each Matlab.exec length]. split; [reflexivity|].
    split; [rewrite Hk; f_equal; lia|]. split; [reflexivity|].
    split; [intros; lia | reflexivity].
  - cbn [for_each length] in *. rewrite exec_app.
    destruct (exec_unpack_bilayer nfkd params bulkOut contrast j0 bl w k Hk H1)
      as (w1 & -> & Hk1 & Ho1 & Hv1 & Hf1); [lia|].
    cbn [mbind option_bind].
    destruct (IH (S j0) w1 (k + 5)%nat Hk1) as (w2 & -> & Hk2 & Ho2 & Hv2 & Hf2); try lia.
    exists w2. split; [reflexivity|].
    split; [rewrite Hk2; f_equal; lia|]. split; [congruence|]. split.
    + intros [|n] p Hn.
      * rewrite Nat.add_0_r, Hf2, Hv1; [do 3 f_equal; lia|].
        intros n p' _. intros [=]. lia.
      * replace (j0 + S n)%nat with (S j0 + n)%nat by lia.
        rewrite Hv2 by lia. do 3 f_equal. lia.
    + intros u Hu. rewrite Hf2, Hf1; [reflexivity| |].
      * intros p. specialize (Hu 0%nat p). rewrite Nat.add_0_r in Hu. apply Hu. lia.
      * intros n p Hn. replace (S j0 + n)%nat with (j0 + S n)%nat by lia. apply Hu. lia.
Qed.

Lemma exec_constants bilayers j0 w :
  exists w',
    exec (for_each (bilayer_constants nfkd fmt_6g) j0 bilayers) w = Some w'
    /\ idx w' = idx w /\ output w' = output w
    /\ (forall n bl s, bilayers !! n = Some bl ->
          vars w' (vConst (j0 + n) s) = Some (VNum (fmt_6g (sub_volume s bl)))
          /\ vars w' (sldConst (j0 + n) s) = Some (VNum (fmt_6g (sub_sld s bl))))
    /\ (forall u,
          (forall n s, (n < length bilayers)%nat ->
                       u <> vConst (j0 + n) s /\ u <> sldConst (j0 + n) s) ->
          vars w' u = vars w u).
Proof.
  revert j0 w. induction bilayers as [|bl bilayers IH]; intros j0 w.
  - exists w. cbn [for_each Matlab.exec].
    split; [reflexivity|]. split; [reflexivity|]. split; [reflexivity|].
    split; [|reflexivity]. intros n bl s H. now rewrite lookup_nil in H.
  - cbn [for_each length]. rewrite exec_app.
    destruct (exec_bilayer_constants nfkd fmt_6g params bulkOut contrast j0 bl w)
      as (w1 & -> & Hk1 & Ho1 & Hv1 & Hs1 & Hf1).
    cbn [mbind option_bind].
    destruct (IH (S j0) w1) as (w2 & -> & Hk2 & Ho2 & Hv2 & Hf2).
    exists w2. split; [reflexivity|]. split; [congruence|]. split; [congruence|]. split.
    + intros [|n] bl' s Hn.
      * cbn in Hn. injection Hn as <-. rewrite Nat.add_0_r.
        split.
        -- rewrite Hf2; [apply Hv1|]. intros m s' _. split; intros [=]; lia.
        -- rewrite Hf2; [apply Hs1|]. intros m s' _. split; intros [=]; lia.
      * replace (j0 + S n)%nat with (S j0 + n)%nat by lia. now apply Hv2.
    + intros u Hu. rewrite Hf2, Hf1; [reflexivity | | |].
      * intros s. specialize (Hu 0%nat s). rewrite Nat.add_0_r in Hu. apply Hu. lia.
      * intros s. specialize (Hu 0%nat s). rewrite Nat.add_0_r in Hu. apply Hu. lia.
      * intros n s Hn. replace (S j0 + n)%nat with (j0 + S n)%nat by lia. apply Hu. lia.
Qed.

(** *** The stack-building loops *)

Lemma exec_stack_layers {A} (layers : list A) i0 w out (lv : nat -> layer_field -> Q) :
  output w = Some out ->
  (forall n f, (n < length layers)%nat ->
               vars w (layerVar (i0 + n) f) = Some (VNum (lv (i0 + n)%nat f))) ->
  exists w',
    exec (for_each (fun i _ => stack_layer i) i0 layers) w = Some w'
    /\ idx w' = idx w
    /\ output w'
       = Some (out ++ ((fun i => (lv i Thick, lv i SLD, lv i Rough))
                         <$> seq i0 (length layers)))
    /\ (forall u, is_input u -> vars w' u = vars w u).
Proof.
  revert i0 w out. induction layers as [|L layers IH]; intros i0 w out Hout Hv.
  - exists w. cbn. rewrite app_nil_r. auto.
  - cbn [for_each length seq fmap list_fmap] in *. rewrite exec_app.
    destruct (exec_stack_layer params bulkOut contrast i0 w out
                (lv i0 Thick) (lv i0 SLD) (lv i0 Rough) Hout)
      as (w1 & -> & Hk1 & Ho1 & Hf1).
    1-3: (rewrite <- (Nat.add_0_r i0) at 1; rewrite Hv by lia;
          now rewrite Nat.add_0_r).
    cbn [mbind option_bind].
    destruct (IH (S i0) w1 _ Ho1) as (w2 & -> & Hk2 & Ho2 & Hf2).
    { intros n f Hn. rewrite Hf1 by exact I.
      replace (S i0 + n)%nat with (i0 + S n)%nat by lia. apply Hv. lia. }
    exists w2. split; [reflexivity|]. split; [congruence|]. split.
    + rewrite Ho2, <- app_assoc. reflexivity.
    + intros u Hu. now rewrite Hf2, Hf1.
Qed.

Lemma exec_stack_bilayers {A} (bilayers : list A) j0 w out b
    (bp : nat -> bilayer_param -> Q) (vc sc : nat -> sublayer -> Q) :
  output w = Some out ->
  (bilayers <> [] -> index1 bulkOut contrast = Some b) ->
  (forall n p, (n < length bilayers)%nat ->
               vars w (bilayerVar (j0 + n) p) = Some (VNum (bp (j0 + n)%nat p))) ->
  (forall n s, (n < length bilayers)%nat ->
               vars w (vConst (j0 + n) s) = Some (VNum (vc (j0 + n)%nat s))) ->
  (forall n s, (n < length bilayers)%nat ->
               vars w (sldConst (j0 + n) s) = Some (VNum (sc (j0 + n)%nat s))) ->
  exists w',
    exec (for_each (fun j _ => stack_bilayer j) j0 bilayers) w = Some w'
    /\ idx w' = idx w
    /\ output w'
       = Some (out ++
               concat ((fun j =>
                 [ (vc j HeadInner / bp j APM,
                    mix (bp j HeadHydInner) b (sc j HeadInner), bp j BRough);
                   (vc j TailInner / bp j APM,
                    mix (bp j BilayerHydration) b (sc j TailInner), bp j BRough);
                   (vc j TailOuter / bp j APM,
                    mix (bp j BilayerHydration) b (sc j TailOuter), bp j BRough);
                   (vc j HeadOuter / bp j APM,
                    mix (bp j HeadHydOuter) b (sc j HeadOuter), bp j BRough) ])
                 <$> seq j0 (length bilayers)))
    /\ (forall u, is_input u -> vars w' u = vars w u).
Proof.
  revert j0 w out. induction bilayers as [|bl bilayers IH];
    intros j0 w out Hout Hb Hbp Hvc Hsc.
  - exists w. cbn. rewrite app_nil_r. auto.
  - cbn [for_each length seq fmap list_fmap concat] in *. rewrite exec_app.
    specialize (Hb ltac:(discriminate)).
    destruct (exec_stack_bilayer params bulkOut contrast j0 w out b
                (bp j0) (vc j0) (sc j0) Hout Hb)
      as (w1 & -> & Hk1 & Ho1 & Hf1).
    1-3: (intros x; rewrite <- (Nat.add_0_r j0) at 1;
          first [rewrite Hbp by lia | rewrite Hvc by lia | rewrite Hsc by lia];
          now rewrite Nat.add_0_r).
    cbn [mbind option_bind].
    destruct (IH (S j0) w1 _ Ho1) as (w2 & -> & Hk2 & Ho2 & Hf2).
    { auto. }
    { intros n p Hn. rewrite Hf1 by exact I.
      replace (S j0 + n)%nat with (j0 + S n)%nat by lia. apply Hbp. lia. }
    { intros n s Hn. rewrite Hf1 by exact I.
      replace (S j0 + n)%nat with (j0 + S n)%nat by lia. apply Hvc. lia. }
    { intros n s Hn. rewrite Hf1 by exact I.
      replace (S j0 + n)%nat with (j0 + S n)%nat by lia. apply Hsc. lia. }
    exists w2. split; [reflexivity|]. split; [congruence|]. split.
    + rewrite Ho2, <- app_assoc. reflexivity.
    + intros u Hu. now rewrite Hf2, Hf1.
Qed.

End LoopFacts.

Section ModelFacts.
Variables (nfkd : pystr -> pystr) (fmt_6g : Q -> Q).
Variables (params bulkOut : list Q) (contrast : nat).

#[local] Abbreviation exec := (Matlab.exec params bulkOut contrast).

(** The rows the loops append, written with the spec's [bilayer_blocks]. *)
Lemma blocks_of_loop (bilayers : list bilayer_spec) (b : Q) j0 first
    (bp : nat -> bilayer_param -> Q) (vc sc : nat -> sublayer -> Q) :
  (forall n p, (n < length bilayers)%nat ->
               bp (j0 + n)%nat p = param params (first + 5 * n + bilayer_offset p)) ->
  (forall n bl s, bilayers !! n = Some bl ->
                  vc (j0 + n)%nat s = fmt_6g (sub_volume s bl)
                  /\ sc (j0 + n)%nat s = fmt_6g (sub_sld s bl)) ->
  concat ((fun j =>
             [ (vc j HeadInner / bp j APM,
                mix (bp j HeadHydInner) b (sc j HeadInner), bp j BRough);
               (vc j TailInner / bp j APM,
                mix (bp j BilayerHydration) b (sc j TailInner), bp j BRough);
               (vc j TailOuter / bp j APM,
                mix (bp j BilayerHydration) b (sc j TailOuter), bp j BRough);
               (vc j HeadOuter / bp j APM,
                mix (bp j HeadHydOuter) b (sc j HeadOuter), bp j BRough) ])
            <$> seq j0 (length bilayers))
  = bilayer_blocks fmt_6g params b first bilayers.
Proof.
  revert j0 first. induction bilayers as [|bl bilayers IH]; intros j0 first Hbp Hc;
    [reflexivity|].
  cbn [length seq fmap list_fmap concat bilayer_blocks]. f_equal.
  - unfold bilayer_rows.
    pose proof (fun p => Hbp 0%nat p ltac:(cbn; lia)) as H0.
    pose proof (fun s => Hc 0%nat bl s eq_refl) as C0.
    rewrite Nat.add_0_r in H0, C0.
    rewrite !H0, !(fun s => proj1 (C0 s)), !(fun s => proj2 (C0 s)).
    cbn [bilayer_offset sub_volume sub_sld].
    now rewrite !Nat.mul_0_r, !Nat.add_0_r.
  - apply IH.
    + intros n p Hn. replace (S j0 + n)%nat with (j0 + S n)%nat by lia.
      rewrite Hbp by (cbn; lia). f_equal. lia.
    + intros n bl' s Hn. replace (S j0 + n)%nat with (j0 + S n)%nat by lia.
      now apply Hc.
Qed.

Lemma rows_of_loop (n_layers : nat) (lv : nat -> layer_field -> Q) :
  (forall n f, (n < n_layers)%nat ->
               lv (1 + n)%nat f = param params (2 + 3 * n + field_offset f)) ->
  (fun i => (lv i Thick, lv i SLD, lv i Rough)) <$> seq 1 n_layers
  = layer_row params <$> seq 0 n_layers.
Proof.
  intros H. rewrite <- fmap_S_seq, <- list_fmap_compose.
  apply list_eq_Forall2, Forall2_fmap, Forall_Forall2_diag, Forall_forall.
  intros n Hn. apply elem_of_seq in Hn. cbn [compose]. unfold layer_row.
  rewrite !(H n) by lia. cbn [field_offset].
  replace (2 + 3 * n + 0)%nat with (2 + 3 * n)%nat by lia.
  replace (2 + 3 * n + 1)%nat with (3 + 3 * n)%nat by lia.
  replace (2 + 3 * n + 2)%nat with (4 + 3 * n)%nat by lia.
  reflexivity.
Qed.

(** The whole function body: it runs to the end, reads
    [1 + 3 L + 5 B] scalars, and leaves the expected stack in [output]. *)
Lemma exec_model base (layers : list layer) (bilayers : list bilayer_spec) (b : Q) :
  (1 + 3 * length layers + 5 * length bilayers <= length params)%nat ->
  (bilayers <> [] -> index1 bulkOut contrast = Some b) ->
  exists w,
    exec (emit_matlab_model nfkd fmt_6g base layers bilayers) empty_workspace = Some w
    /\ idx w = Some (2 + 3 * length layers + 5 * length bilayers)%nat
    /\ output w = Some (expected_stack fmt_6g params b (length layers) bilayers)
    /\ vars w subRough = Some (VNum (param params 1)).
Proof.
  intros Hlen Hb. unfold emit_matlab_model.
  (* header *)
  rewrite exec_app.
  cbn [Matlab.exec Matlab.exec_line mbind option_bind idx output vars empty_workspace].
  rewrite (index1_param params 1) by lia.
  cbn [mbind option_bind idx output vars].
  rewrite exec_app. cbn [Matlab.exec Matlab.exec_line mbind option_bind].
  set (w0 := Workspace _ (Some 2%nat) _).
  assert (vars w0 subRough = Some (VNum (param params 1))) as Hsr by apply vars_set_same.
  (* layer parameters *)
  rewrite exec_app.
  destruct (exec_unpack_layers nfkd params bulkOut contrast layers 1 w0 2 eq_refl)
    as (w1 & -> & Hk1 & Ho1 & Hv1 & Hf1); try lia.
  cbn [mbind option_bind].
  rewrite exec_app. cbn [Matlab.exec Matlab.exec_line mbind option_bind].
  (* bilayer parameters *)
  rewrite exec_app.
  destruct (exec_unpack_bilayers nfkd params bulkOut contrast bilayers 1 w1 _ Hk1)
    as (w2 & -> & Hk2 & Ho2 & Hv2 & Hf2); try lia.
  cbn [mbind option_bind].
  (* constants *)
  rewrite exec_app.
  assert (exists w3,
            exec (match bilayers with
                  | [] => []
                  | _ :: _ =>
                      MComment (py "% ---- Bilayer physical constants (from molgroups or fallback) ----")
                      :: for_each (bilayer_constants nfkd fmt_6g) 1 bilayers
                  end) w2 = Some w3
            /\ idx w3 = idx w2 /\ output w3 = output w2
            /\ (forall n bl s, bilayers !! n = Some bl ->
                  vars w3 (vConst (1 + n) s) = Some (VNum (fmt_6g (sub_volume s bl)))
                  /\ vars w3 (sldConst (1 + n) s) = Some (VNum (fmt_6g (sub_sld s bl))))
            /\ (forall u, (forall j s, u <> vConst j s) -> (forall j s, u <> sldConst j s) ->
                  vars w3 u = vars w2 u))
    as (w3 & -> & Hk3 & Ho3 & Hv3 & Hf3).
  { destruct bilayers as [|bl0 bls] eqn:E.
    - exists w2. cbn [Matlab.exec].
      split; [reflexivity|]. split; [reflexivity|]. split; [reflexivity|].
      split; [|reflexivity]. intros n bl s H. now rewrite lookup_nil in H.
    - rewrite <- E. cbn [Matlab.exec Matlab.exec_line mbind option_bind].
      destruct (exec_constants nfkd fmt_6g params bulkOut contrast bilayers 1 w2)
        as (w3 & -> & Hk3 & Ho3 & Hv3 & Hf3).
      exists w3. split; [reflexivity|]. split; [exact Hk3|]. split; [exact Ho3|].
      split; [exact Hv3|].
      intros u Hv Hs. apply Hf3. intros n s _. auto. }
  cbn [mbind option_bind].
  (* the stack *)
  rewrite exec_app. cbn [Matlab.exec Matlab.exec_line mbind option_bind].
  set (w4 := Workspace (vars w3) (idx w3) (Some [])).
  rewrite exec_app.
  pose (lv := fun (i : nat) f => param params (2 + 3 * (i - 1) + field_offset f)).
  pose (bp := fun (j : nat) p =>
                param params (2 + 3 * length layers + 5 * (j - 1) + bilayer_offset p)).
  pose (vc := fun (j : nat) s => match bilayers !! (j - 1)%nat with
                                 | Some bl => fmt_6g (sub_volume s bl)
                                 | None => 0
                                 end).
  pose (sc := fun (j : nat) s => match bilayers !! (j - 1)%nat with
                                 | Some bl => fmt_6g (sub_sld s bl)
                                 | None => 0
                                 end).
  destruct (exec_stack_layers params bulkOut contrast layers 1 w4 [] lv eq_refl)
    as (w5 & -> & Hk5 & Ho5 & Hf5).
  { intros n f Hn. cbn [w4 vars]. unfold lv.
    rewrite Hf3, Hf2, Hv1 by (discriminate || lia).
    do 3 f_equal. lia. }
  cbn [mbind option_bind].
  rewrite exec_app.
  destruct (exec_stack_bilayers params bulkOut contrast bilayers 1 w5 _ b bp vc sc Ho5 Hb)
    as (w6 & -> & Hk6 & Ho6 & Hf6).
  { intros n p Hn. rewrite Hf5 by exact I. cbn [w4 vars]. unfold bp.
    rewrite Hf3, Hv2 by (discriminate || lia). do 3 f_equal. lia. }
  { intros n s Hn. rewrite Hf5 by exact I. cbn [w4 vars]. unfold vc.
    destruct (lookup_lt_is_Some_2 bilayers n Hn) as [bl Hbl].
    rewrite (proj1 (Hv3 n bl s Hbl)).
    replace (1 + n - 1)%nat with n by lia. now rewrite Hbl. }
  { intros n s Hn. rewrite Hf5 by exact I. cbn [w4 vars]. unfold sc.
    destruct (lookup_lt_is_Some_2 bilayers n Hn) as [bl Hbl].
    rewrite (proj2 (Hv3 n bl s Hbl)).
    replace (1 + n - 1)%nat with n by lia. now rewrite Hbl. }
  cbn [mbind option_bind Matlab.exec Matlab.exec_line].
  exists w6. split; [reflexivity|].
  split. { rewrite Hk6, Hk5. cbn [w4 idx]. rewrite Hk3. exact Hk2. }
  split.
  - rewrite Ho6. f_equal. unfold expected_stack. cbn [app]. f_equal.
    + apply (rows_of_loop (length layers) lv). intros n f Hn. unfold lv. f_equal. lia.
    + apply (blocks_of_loop bilayers b 1 _ bp vc sc).
      * intros n p Hn. unfold bp. f_equal. lia.
      * intros n bl s Hn. unfold vc, sc.
        replace (1 + n - 1)%nat with n by lia. now rewrite Hn.
  - rewrite Hf6, Hf5 by exact I. cbn [w4 vars].
    rewrite Hf3, Hf2, Hf1 by discriminate. exact Hsr.
Qed.

End ModelFacts.

(** C6. Called with enough parameters and a valid contrast index, the
    emitted function returns: one row per internal layer, then for every
    bilayer spec exactly four rows in the order inner head, inner tail,
    outer tail, outer head. The thickness of each sublayer is its volume (as
    printed) divided by the bilayer's APM parameter, all four carry the
    bilayer's one roughness parameter, and each SLD is
    [h * bulkOut(contrast) + (1 - h) * sld]: the intrinsic SLD at [h = 0],
    the contrast's bulk-out SLD at [h = 1]. *)
Theorem C6_bilayer_expansion (nfkd : pystr -> pystr) (fmt_6g : Q -> Q) (base : pystr)
    (layers : list layer) (bilayers : list bilayer_spec)
    (params bulkOut : list Q) (contrast : nat) (b : Q) :
  (1 + 3 * length layers + 5 * length bilayers <= length params)%nat ->
  (bilayers <> [] -> index1 bulkOut contrast = Some b) ->
  call params bulkOut contrast (emit_matlab_model nfkd fmt_6g base layers bilayers)
  = Some (expected_stack fmt_6g params b (length layers) bilayers, param params 1)
  /\ length (expected_stack fmt_6g params b (length layers) bilayers)
     = (length layers + 4 * length bilayers)%nat
  /\ (forall h sld, h == 0 -> mix h b sld == sld)
  /\ (forall h sld, h == 1 -> mix h b sld == b).
Proof.
  intros Hlen Hb.
  destruct (exec_model nfkd fmt_6g params bulkOut contrast base layers bilayers b Hlen Hb)
    as (w & Hrun & _ & Hout & Hsr).
  split; [|split; [|split]].
  - unfold call. rewrite Hrun. cbn [mbind option_bind]. rewrite Hout. cbn [mbind option_bind].
    unfold get_num. now rewrite Hsr.
  - unfold expected_stack. rewrite length_app, length_fmap, length_seq. f_equal.
    generalize (2 + 3 * length layers)%nat. clear.
    induction bilayers as [|bl bls IH]; intros first; [reflexivity|].
    cbn [bilayer_blocks length]. rewrite length_app, IH. cbn. lia.
  - intros h sld Hh. unfold mix. rewrite Hh. ring.
  - intros h sld Hh. unfold mix. rewrite Hh. ring.
Qed.

(** One internal layer and one bilayer, called with nine parameters. *)
Lemma C6_bilayer_expansion_witness :
  call Samples.nine_params [636 # 100000000] 1
    (emit_matlab_model (fun s => s) (fun q => q) (py "m")
       [Layer (py "SiO2") 10 (347 # 100000000) 4] [Samples.dppc_bilayer])
  = Some (expected_stack (fun q => q) Samples.nine_params (636 # 100000000) 1
            [Samples.dppc_bilayer], 3)
  /\ expected_stack (fun q => q) Samples.nine_params (636 # 100000000) 1 [Samples.dppc_bilayer]
     = [ (10, 347 # 100000000, 4);
         (331 / 60, mix 0 (636 # 100000000) (18 # 10000000), 4);
         (780 / 60, mix (1 # 10) (636 # 100000000) (-4 # 10000000), 4);
         (780 / 60, mix (1 # 10) (636 # 100000000) (-4 # 10000000), 4);
         (331 / 60, mix 1 (636 # 100000000) (18 # 10000000), 4) ].
Proof.
  split; [|reflexivity].
  apply (C6_bilayer_expansion (fun s => s) (fun q => q) (py "m")
           [Layer (py "SiO2") 10 (347 # 100000000) 4] [Samples.dppc_bilayer]
           Samples.nine_params [636 # 100000000] 1 (636 # 100000000)).
  - simpl. lia.
  - reflexivity.
Defined.

(** ** Bulk declarations *)

Section UniqueFacts.

Lemma suffixed_inj (base : pystr) i j : suffixed base i = suffixed base j -> i = j.
Proof.
  unfold suffixed. intros H. apply app_inv_head in H. apply app_inv_head in H.
  now apply str_of_nat_inj.
Qed.

Lemma suffixed_not_base (base : pystr) i : base <> suffixed base i.
Proof.
  unfold suffixed. intros H. apply (f_equal length) in H.
  rewrite !length_app in H. cbn in H. lia.
Qed.

(** The loop of [unique] ends within its fuel, on a name not yet used:
    [T] is the set of candidates already tried, all of them used. *)
Lemma unique_loop_fresh (fuel : nat) (base : pystr) (used T : gset pystr) (name : pystr) (i : nat) :
  T ⊆ used -> (name ∉ T) ->
  (forall k, (i <= k)%nat -> (suffixed base k ∉ T)) ->
  (forall k, (i <= k)%nat -> name <> suffixed base k) ->
  (name = base \/ exists k, (2 <= k)%nat /\ name = suffixed base k) ->
  (2 <= i)%nat ->
  (size used < fuel + size T)%nat ->
  exists n, unique_loop fuel base used name i = Some n /\ (n ∉ used)
            /\ (n = base \/ exists k, (2 <= k)%nat /\ n = suffixed base k).
Proof.
  revert T name i. induction fuel as [|fuel IH]; intros T name i HT Hname Hfut Hne Hform Hi Hsize.
  - apply subseteq_size in HT. lia.
  - cbn [unique_loop]. destruct (decide (name ∈ used)) as [Hin|Hout].
    + apply (IH ({[name]} ∪ T)).
      * intros x. rewrite elem_of_union, elem_of_singleton. intros [->|Hx]; auto.
      * rewrite elem_of_union, elem_of_singleton. intros [Heq|Hx].
        -- now apply (Hne i (le_n i)).
        -- now apply (Hfut i (le_n i)).
      * intros k Hk. rewrite elem_of_union, elem_of_singleton. intros [Heq|Hx].
        -- apply (Hne k); [lia | now symmetry].
        -- apply (Hfut k); [lia | assumption].
      * intros k Hk Heq. apply suffixed_inj in Heq. lia.
      * right. exists i. split; [lia | reflexivity].
      * lia.
      * rewrite size_union by (apply disjoint_singleton_l; exact Hname).
        rewrite size_singleton. lia.
    + exists name. auto.
Qed.

Lemma unique_fresh (base : pystr) (used : gset pystr) :
  exists n, unique base used = Some (n, {[n]} ∪ used) /\ (n ∉ used)
            /\ (n = base \/ exists k, (2 <= k)%nat /\ n = suffixed base k).
Proof.
  destruct (unique_loop_fresh (S (size used)) base used ∅ base 2) as (n & Hn & Hfresh & Hform).
  - apply empty_subseteq.
  - apply not_elem_of_empty.
  - intros k _. apply not_elem_of_empty.
  - intros k _. apply suffixed_not_base.
  - now left.
  - lia.
  - rewrite size_empty. lia.
  - exists n. unfold unique. rewrite Hn. auto.
Qed.

End UniqueFacts.

Section RoundFacts.

(** The distance of a rational from an integer, in units of its denominator. *)
Lemma distance_lt_half (x : Q) (z : Z) :
  Qabs (x - inject_Z z) < 1 # 2
  <-> (2 * Z.abs (Qnum x - z * Zpos (Qden x)) < Zpos (Qden x))%Z.
Proof.
  destruct x as [n d]. unfold Qlt, Qminus, Qplus, Qopp, Qabs, inject_Z. cbn.
  rewrite Pos.mul_1_r. replace (n * 1 + - z * Z.pos d)%Z with (n - z * Z.pos d)%Z by lia.
  lia.
Qed.

Lemma distance_eq_half (x : Q) (z : Z) :
  Qabs (x - inject_Z z) == 1 # 2
  <-> (2 * Z.abs (Qnum x - z * Zpos (Qden x)) = Zpos (Qden x))%Z.
Proof.
  destruct x as [n d]. unfold Qeq, Qminus, Qplus, Qopp, Qabs, inject_Z. cbn.
  rewrite Pos.mul_1_r. replace (n * 1 + - z * Z.pos d)%Z with (n - z * Z.pos d)%Z by lia.
  lia.
Qed.

(** [round_half_even] gives the nearest integer, the even one at a tie,
    and no other integer is that. *)
Lemma round_half_even_nearest (x : Q) : nearest x (round_half_even x).
Proof.
  unfold nearest. rewrite distance_lt_half, distance_eq_half.
  unfold round_half_even. destruct x as [n d]. cbn [Qnum Qden].
  pose proof (Z.div_mod n (Z.pos d) ltac:(lia)) as Hdm.
  pose proof (Z.mod_pos_bound n (Z.pos d) ltac:(lia)) as Hr.
  set (q := (n `div` Z.pos d)%Z) in *. set (r := (n `mod` Z.pos d)%Z) in *.
  assert (n - q * Z.pos d = r)%Z as H0 by lia.
  assert (n - (q + 1) * Z.pos d = r - Z.pos d)%Z as H1 by lia.
  destruct (Z.compare_spec (2 * r) (Z.pos d)) as [E|E|E].
  - destruct (Z.even q) eqn:Ev.
    + right. rewrite H0. split; [lia | exact Ev].
    + right. rewrite H1. split; [lia|]. rewrite Z.even_add, Ev. reflexivity.
  - left. rewrite H0. lia.
  - left. rewrite H1. lia.
Qed.

Lemma nearest_unique (x : Q) (z1 z2 : Z) : nearest x z1 -> nearest x z2 -> z1 = z2.
Proof.
  unfold nearest. rewrite !distance_lt_half, !distance_eq_half.
  destruct x as [n d]. cbn [Qnum Qden]. intros H1 H2.
  assert (z1 = z2 \/ z1 = z2 + 1 \/ z2 = z1 + 1)%Z as [H|[H|H]] by nia; [exact H|..].
  - subst z1. destruct H1 as [H1|[H1 E1]], H2 as [H2|[H2 E2]]; try nia.
    rewrite Z.even_add, E2 in E1. discriminate.
  - subst z2. destruct H1 as [H1|[H1 E1]], H2 as [H2|[H2 E2]]; try nia.
    rewrite Z.even_add, E1 in E2. discriminate.
Qed.

Lemma round8_spec (x : Q) (z : Z) : rounds_to8 x z <-> round8 x = z.
Proof.
  unfold rounds_to8, round8. split.
  - intros H. apply (nearest_unique (x * 100000000)); [apply round_half_even_nearest | exact H].
  - intros <-. apply round_half_even_nearest.
Qed.

End RoundFacts.

Lemma same_bulk_iff (b1 b2 : bulk) :
  same_bulk b1 b2 <-> b_name b1 = b_name b2 /\ round8 (b_sld b1) = round8 (b_sld b2).
Proof.
  unfold same_bulk. split.
  - intros [Hn (z & H1 & H2)]. apply round8_spec in H1, H2. split; congruence.
  - intros [Hn Hr]. split; [exact Hn|]. exists (round8 (b_sld b1)).
    split; apply round8_spec; congruence.
Qed.

Section EnsureBulkFacts.
Variable fmt_6g : Q -> Q.

Lemma side_start_ok : side_ok (used side_start) (mapping side_start).
Proof. repeat split; intros *; cbn; rewrite lookup_empty; discriminate. Qed.

(** The two ways [ensure_bulk] returns: the key is known and nothing is
    declared, or a fresh name is declared and recorded. *)
Lemma ensure_bulk_cases side b st :
  exists name lines st',
    ensure_bulk fmt_6g side b st = Some (name, lines, st')
    /\ ((mapping st !! bulk_key b = Some name /\ lines = [] /\ st' = st)
        \/ (mapping st !! bulk_key b = None
            /\ (name ∉ used st)
            /\ name_for b name
            /\ (exists lo v hi, lines = [DAddBulk side name lo v hi])
            /\ used st' = {[name]} ∪ used st
            /\ mapping st' = <[bulk_key b := name]> (mapping st))).
Proof.
  unfold ensure_bulk.
  destruct (mapping st !! bulk_key b) as [name|] eqn:E.
  - exists name, [], st. split; [reflexivity|]. left. auto.
  - destruct (unique_fresh (b_name b) (used st)) as (n & -> & Hfresh & Hn).
    cbn [mbind option_bind].
    destruct (_span (b_sld b) (2 # 100)) as [[lo v] hi].
    eexists n, _, _. split; [reflexivity|]. right. cbn [used mapping].
    repeat split; eauto.
Qed.

Lemma ensure_bulk_spec side b st :
  side_ok (used st) (mapping st) ->
  exists name lines st',
    ensure_bulk fmt_6g side b st = Some (name, lines, st')
    /\ side_ok (used st') (mapping st')
    /\ mapping st' !! bulk_key b = Some name
    /\ (forall k v, mapping st !! k = Some v -> mapping st' !! k = Some v).
Proof.
  intros (Hused & Hinj & Hform).
  destruct (ensure_bulk_cases side b st) as (name & lines & st' & Hrun & Hcase).
  exists name, lines, st'. split; [exact Hrun|].
  destruct Hcase as [(Hk & _ & ->)|(Hk & Hfresh & Hn & _ & Hu & Hm)].
  - repeat split; auto.
  - rewrite Hu, Hm. split; [repeat split|split].
    + intros k v'. rewrite lookup_insert. destruct (decide (bulk_key b = k)) as [<-|Hne].
      * intros [= <-]. apply elem_of_union_l, elem_of_singleton. reflexivity.
      * intros Hk'. apply elem_of_union_r. eauto.
    + intros k1 k2 v'. rewrite !lookup_insert.
      destruct (decide (bulk_key b = k1)) as [<-|H1],
               (decide (bulk_key b = k2)) as [<-|H2]; auto.
      * intros [= <-] H. exfalso. apply Hfresh. eauto.
      * intros H [= <-]. exfalso. apply Hfresh. eauto.
      * apply Hinj.
    + intros k v'. rewrite lookup_insert. destruct (decide (bulk_key b = k)) as [<-|Hne].
      * intros [= <-]. exact Hn.
      * apply Hform.
    + apply lookup_insert_eq.
    + intros k v' Hk'. rewrite lookup_insert_ne; [exact Hk'|]. congruence.
Qed.

Lemma declares_step side b st name lines st' names declared :
  side_ok (used st) (mapping st) ->
  ensure_bulk fmt_6g side b st = Some (name, lines, st') ->
  declares st' names declared ->
  declares st (name :: names) (declared_bulks side lines ++ declared).
Proof.
  intros (Hused & _ & _) Hrun (Hnd & Hfresh & Hsub & Hsup).
  destruct (ensure_bulk_cases side b st) as (name' & lines' & st'' & Hrun' & Hcase).
  rewrite Hrun in Hrun'. injection Hrun' as <- <- <-.
  destruct Hcase as [(Hk & -> & ->)|(Hk & Hnew & _ & (lo & v & hi & ->) & Hu & Hm)].
  - cbn. repeat split; auto.
    + intros n Hn. apply elem_of_cons. right. auto.
    + intros n Hn. apply elem_of_cons in Hn as [->|Hn]; eauto.
  - cbn [declared_bulks omap list_omap]. rewrite decide_True by reflexivity. cbn [app].
    assert (forall n, n ∈ declared -> n <> name) as Hother.
    { intros n Hn ->. apply (Hfresh name Hn). rewrite Hu.
      apply elem_of_union_l, elem_of_singleton. reflexivity. }
    repeat split.
    + constructor; [|exact Hnd]. intros Hin. now apply (Hother name Hin).
    + intros n Hn. apply elem_of_cons in Hn as [->|Hn]; [exact Hnew|].
      intros Hin. apply (Hfresh n Hn). rewrite Hu. now apply elem_of_union_r.
    + intros n Hn. apply elem_of_cons in Hn as [->|Hn].
      * apply elem_of_cons. now left.
      * apply elem_of_cons. right. auto.
    + intros n Hn. apply elem_of_cons in Hn as [->|Hn].
      * left. apply elem_of_cons. now left.
      * destruct (Hsup n Hn) as [Hd|[k Hk']].
        -- left. apply elem_of_cons. now right.
        -- rewrite Hm, lookup_insert in Hk'.
           destruct (decide (bulk_key b = k)) as [_|_].
           ++ injection Hk' as <-. left. apply elem_of_cons. now left.
           ++ right. eauto.
Qed.

Lemma declared_bulks_app side l1 l2 :
  declared_bulks side (l1 ++ l2) = declared_bulks side l1 ++ declared_bulks side l2.
Proof. unfold declared_bulks. apply omap_app. Qed.

Lemma ensure_bulk_other_side side side' b st name lines st' :
  side <> side' ->
  ensure_bulk fmt_6g side b st = Some (name, lines, st') ->
  declared_bulks side' lines = [].
Proof.
  intros Hne Hrun.
  destruct (ensure_bulk_cases side b st) as (name' & lines' & st'' & Hrun' & Hcase).
  rewrite Hrun in Hrun'. injection Hrun' as <- <- <-.
  destruct Hcase as [(_ & -> & _)|(_ & _ & _ & (lo & v & hi & ->) & _)]; [reflexivity|].
  cbn. now rewrite decide_False.
Qed.

(** The loop over the zipped bulk lists always ends; each side's names
    are read off a final dict that holds every key met. *)
Lemma declare_bulks_spec bis bos st_in st_out :
  side_ok (used st_in) (mapping st_in) ->
  side_ok (used st_out) (mapping st_out) ->
  exists lines names_in names_out (u_in u_out : gset pystr) m_in m_out,
    declare_bulks fmt_6g bis bos st_in st_out = Some (lines, names_in, names_out)
    /\ side_ok u_in m_in /\ side_ok u_out m_out
    /\ Forall2 (fun b n => m_in !! bulk_key b = Some n) (take (length bos) bis) names_in
    /\ Forall2 (fun b n => m_out !! bulk_key b = Some n) (take (length bis) bos) names_out
    /\ (forall k v, mapping st_in !! k = Some v -> m_in !! k = Some v)
    /\ (forall k v, mapping st_out !! k = Some v -> m_out !! k = Some v)
    /\ declares st_in names_in (declared_bulks BulkIn lines)
    /\ declares st_out names_out (declared_bulks BulkOut lines).
Proof.
  assert (forall st, declares st [] []) as Hnone.
  { intros st. split; [constructor|].
    repeat split; intros n Hn; now apply elem_of_nil in Hn. }
  revert bos st_in st_out.
  induction bis as [|bi bis IH]; intros bos st_in st_out Hin Hout.
  - exists [], [], [], (used st_in), (used st_out), (mapping st_in), (mapping st_out).
    cbn. rewrite take_nil. repeat split; try apply Hin; try apply Hout; auto;
      try constructor; apply Hnone.
  - destruct bos as [|bo bos].
    + exists [], [], [], (used st_in), (used st_out), (mapping st_in), (mapping st_out).
      cbn. repeat split; try apply Hin; try apply Hout; auto; try constructor; apply Hnone.
    + cbn [declare_bulks].
      destruct (ensure_bulk_spec BulkIn bi st_in Hin)
        as (n_in & l_in & st_in' & Hrun_in & Hin' & Hk_in & Hmono_in).
      destruct (ensure_bulk_spec BulkOut bo st_out Hout)
        as (n_out & l_out & st_out' & Hrun_out & Hout' & Hk_out & Hmono_out).
      rewrite Hrun_in, Hrun_out. cbn [mbind option_bind].
      destruct (IH bos st_in' st_out' Hin' Hout')
        as (lines & ns_in & ns_out & u_in & u_out & m_in & m_out & -> & Hok_in & Hok_out
            & Hf_in & Hf_out & Hm_in & Hm_out & Hd_in & Hd_out).
      cbn [mbind option_bind].
      exists (l_in ++ l_out ++ lines), (n_in :: ns_in), (n_out :: ns_out), u_in, u_out, m_in, m_out.
      split; [reflexivity|]. split; [exact Hok_in|]. split; [exact Hok_out|].
      cbn [length take].
      split; [constructor; auto|]. split; [constructor; auto|].
      split; [auto|]. split; [auto|]. split.
      * rewrite !declared_bulks_app.
        rewrite (ensure_bulk_other_side BulkOut BulkIn bo st_out _ _ _ ltac:(discriminate) Hrun_out).
        cbn [app]. eapply declares_step; eauto.
      * rewrite !declared_bulks_app.
        rewrite (ensure_bulk_other_side BulkIn BulkOut bi st_in _ _ _ ltac:(discriminate) Hrun_in).
        cbn [app]. eapply declares_step; eauto.
Qed.

Lemma dict_names_deduplicated (u : gset pystr) m bs names :
  side_ok u m ->
  Forall2 (fun b n => m !! bulk_key b = Some n) bs names ->
  deduplicated bs names.
Proof.
  intros (_ & Hinj & Hform) Hall. split; [|split].
  - symmetry. eapply Forall2_length, Hall.
  - intros i j bi bj ni nj Hbi Hbj Hni Hnj.
    pose proof (Forall2_lookup_lr _ _ _ _ _ _ Hall Hbi Hni) as Hi.
    pose proof (Forall2_lookup_lr _ _ _ _ _ _ Hall Hbj Hnj) as Hj.
    cbn in Hi, Hj. rewrite same_bulk_iff. split.
    + intros <-. specialize (Hinj _ _ _ Hi Hj). unfold bulk_key in Hinj.
      now injection Hinj.
    + intros [Hn Hs]. unfold bulk_key in Hi, Hj. rewrite Hn, Hs in Hi. congruence.
  - eapply Forall2_impl; [exact Hall|]. intros b n Hb. apply (Hform _ _ Hb).
Qed.

End EnsureBulkFacts.

(** C7. The driver declares each bulk once per side: the loop over the
    zipped bulk lists always ends, two records of a side get the same
    declared name exactly when their names are equal and their SLDs agree
    after rounding to 8 decimals (both lie nearest to the same multiple of
    [1e-8], ties going to the even one), every name is the record's own or
    that with a numeric suffix [_2], [_3], ..., and the declarations of a
    side are, each once, the names handed out. For the records
    [D2O 6.0e-6], [D2O 6.0e-6], [D2O 6.1e-6] (the floats, exactly) two
    entries are declared, [D2O] and [D2O_2]; so are two for [D2O 6.001e-6],
    [D2O 6.004e-6], [D2O 6.006e-6], which differ from the ninth decimal on
    and round to [6.00e-6], [6.00e-6] and [6.01e-6]. *)
Theorem C7_bulk_deduplication (fmt_6g : Q -> Q) (bulk_ins bulk_outs : list bulk) :
  (exists lines names_in names_out,
      declare_bulks fmt_6g bulk_ins bulk_outs side_start side_start
      = Some (lines, names_in, names_out)
      /\ deduplicated (take (length bulk_outs) bulk_ins) names_in
      /\ deduplicated (take (length bulk_ins) bulk_outs) names_out
      /\ NoDup (declared_bulks BulkIn lines) /\ NoDup (declared_bulks BulkOut lines)
      /\ (forall n, n ∈ declared_bulks BulkIn lines <-> n ∈ names_in)
      /\ (forall n, n ∈ declared_bulks BulkOut lines <-> n ∈ names_out))
  /\ (let d2o_60 := Bulk (py "D2O") (1770887431076117 # 295147905179352825856) in
      let d2o_61 := Bulk (py "D2O") (7201608886376209 # 1180591620717411303424) in
      let records := [d2o_60; d2o_60; d2o_61] in
      exists lines,
        declare_bulks fmt_6g records records side_start side_start
        = Some (lines, [py "D2O"; py "D2O"; py "D2O_2"], [py "D2O"; py "D2O"; py "D2O_2"])
        /\ declared_bulks BulkIn lines = [py "D2O"; py "D2O_2"]
        /\ declared_bulks BulkOut lines = [py "D2O"; py "D2O_2"])
  /\ (let d2o_6001 := Bulk (py "D2O") (7084730315925185 # 1180591620717411303424) in
      let d2o_6004 := Bulk (py "D2O") (7088272090787337 # 1180591620717411303424) in
      let d2o_6006 := Bulk (py "D2O") (1772658318507193 # 295147905179352825856) in
      let records := [d2o_6001; d2o_6004; d2o_6006] in
      same_bulk d2o_6001 d2o_6004 /\ ~ same_bulk d2o_6004 d2o_6006
      /\ exists lines,
           declare_bulks fmt_6g records records side_start side_start
           = Some (lines, [py "D2O"; py "D2O"; py "D2O_2"], [py "D2O"; py "D2O"; py "D2O_2"])
           /\ declared_bulks BulkIn lines = [py "D2O"; py "D2O_2"]
           /\ declared_bulks BulkOut lines = [py "D2O"; py "D2O_2"]).
Proof.
  split; [|split].
  - destruct (declare_bulks_spec fmt_6g bulk_ins bulk_outs side_start side_start
                side_start_ok side_start_ok)
      as (lines & ns_in & ns_out & u_in & u_out & m_in & m_out & Hrun & Hok_in & Hok_out
          & Hf_in & Hf_out & _ & _ & Hd_in & Hd_out).
    exists lines, ns_in, ns_out. split; [exact Hrun|].
    split; [now apply (dict_names_deduplicated u_in m_in)|].
    split; [now apply (dict_names_deduplicated u_out m_out)|].
    destruct Hd_in as (Hnd_in & _ & Hsub_in & Hsup_in).
    destruct Hd_out as (Hnd_out & _ & Hsub_out & Hsup_out).
    split; [exact Hnd_in|]. split; [exact Hnd_out|]. split.
    + intros n. split; [apply Hsub_in|]. intros Hn.
      destruct (Hsup_in n Hn) as [Hd|[k Hk]]; [exact Hd|].
      cbn in Hk. rewrite lookup_empty in Hk. discriminate.
    + intros n. split; [apply Hsub_out|]. intros Hn.
      destruct (Hsup_out n Hn) as [Hd|[k Hk]]; [exact Hd|].
      cbn in Hk. rewrite lookup_empty in Hk. discriminate.
  - cbv zeta. eexists. split; [vm_compute; reflexivity|]. split; vm_compute; reflexivity.
  - cbv zeta. rewrite !same_bulk_iff. split; [split; reflexivity|]. split.
    + intros [_ H]. vm_compute in H. discriminate H.
    + eexists. split; [vm_compute; reflexivity|]. split; vm_compute; reflexivity.
Qed.

(** ** Contrast blocks of the driver *)

Section ContrastFacts.
Variables (fmt_6g : Q -> Q) (as_posix : pystr -> pystr).

Lemma contrast_blocks_short i names (ins outs : list pystr) :
  (1 <= i)%nat -> length ins = length outs -> (i - 1 <= length ins)%nat ->
  (length ins < (i - 1) + length names)%nat ->
  contrast_blocks i names ins outs = Raise (IndexError "bulk_in_names").
Proof.
  revert i. induction names as [|cname names IH]; intros i Hi Hlen Hstart Hshort; cbn in *.
  - lia.
  - destruct (ins !! (i - 1)%nat) as [n_in|] eqn:Ein; [|reflexivity].
    apply lookup_lt_Some in Ein.
    destruct (outs !! (i - 1)%nat) as [n_out|] eqn:Eout.
    + rewrite (IH (S i)) by lia. reflexivity.
    + apply lookup_ge_None in Eout. lia.
Qed.


Lemma declare_bulks_lengths bis bos :
  exists lines names_in names_out,
    declare_bulks fmt_6g bis bos side_start side_start = Some (lines, names_in, names_out)
    /\ length names_in = Nat.min (length bis) (length bos)
    /\ length names_out = Nat.min (length bis) (length bos)
    /\ Forall (fun l => match l with DAddBulk _ _ _ _ _ => True | _ => False end) lines.
Proof.
  assert (forall bis bos st_in st_out lines ns_in ns_out,
            declare_bulks fmt_6g bis bos st_in st_out = Some (lines, ns_in, ns_out) ->
            Forall (fun l => match l with DAddBulk _ _ _ _ _ => True | _ => False end) lines)
    as Hlines.
  { clear. induction bis as [|bi bis IH]; intros bos st_in st_out lines ns_in ns_out.
    - cbn. intros [= <- _ _]. constructor.
    - destruct bos as [|bo bos]; [cbn; intros [= <- _ _]; constructor|].
      cbn [declare_bulks]. intros H.
      destruct (ensure_bulk_cases fmt_6g BulkIn bi st_in) as (n1 & l1 & s1 & E1 & C1).
      destruct (ensure_bulk_cases fmt_6g BulkOut bo st_out) as (n2 & l2 & s2 & E2 & C2).
      rewrite E1, E2 in H. cbn [mbind option_bind] in H.
      destruct (declare_bulks fmt_6g bis bos s1 s2) as [[[ls a] b]|] eqn:E; [|discriminate].
      cbn in H. injection H as <- _ _.
      rewrite !Forall_app. repeat split.
      + destruct C1 as [(_ & -> & _)|(_ & _ & _ & (lo & v & hi & ->) & _)]; repeat constructor.
      + destruct C2 as [(_ & -> & _)|(_ & _ & _ & (lo & v & hi & ->) & _)]; repeat constructor.
      + eapply IH, E. }
  destruct (declare_bulks_spec fmt_6g bis bos side_start side_start
              side_start_ok side_start_ok)
    as (lines & ns_in & ns_out & u_in & u_out & m_in & m_out & Hrun & _ & _
        & Hf_in & Hf_out & _).
  exists lines, ns_in, ns_out. split; [exact Hrun|].
  apply Forall2_length in Hf_in, Hf_out. rewrite length_take in Hf_in, Hf_out.
  repeat split; try lia. eapply Hlines, Hrun.
Qed.

Lemma filter_skipped_shorter (data : list dataset) :
  (exists ds, ds ∈ data /\ skipped ds = true) ->
  (length (filter (fun ds => skipped ds = false) data) < length data)%nat.
Proof.
  intros (ds & Hin & Hs). induction data as [|d data IH]; [now apply elem_of_nil in Hin|].
  rewrite filter_cons. cbn [length].
  pose proof (length_filter (fun ds => skipped ds = false) data) as Hle.
  apply elem_of_cons in Hin as [<-|Hin].
  - rewrite decide_False by congruence. lia.
  - specialize (IH Hin). destruct (decide (skipped d = false)); cbn [length]; lia.
Qed.

End ContrastFacts.

(** ** The two parameter orders *)

Section OrderFacts.
Variables (nfkd as_posix : pystr -> pystr) (fmt_6g : Q -> Q).

Lemma declared_params_app l1 l2 :
  declared_params (l1 ++ l2) = declared_params l1 ++ declared_params l2.
Proof. apply omap_app. Qed.

Lemma declared_scalefactors_app l1 l2 :
  declared_scalefactors (l1 ++ l2)
  = (declared_scalefactors l1 + declared_scalefactors l2)%nat.
Proof. unfold declared_scalefactors. now rewrite omap_app, length_app. Qed.

Lemma declared_contrasts_app l1 l2 :
  declared_contrasts (l1 ++ l2) = declared_contrasts l1 ++ declared_contrasts l2.
Proof. apply omap_app. Qed.

Lemma reads_app l1 l2 : reads (l1 ++ l2) = reads l1 ++ reads l2.
Proof. apply omap_app. Qed.

(** The parameter group of the driver. *)
Lemma layer_params_declared (internal : list layer) :
  declared_params (internal ≫= layer_params fmt_6g)
  = internal ≫= (fun L => layer_param_names (driver_layer_name L))
  /\ declared_scalefactors (internal ≫= layer_params fmt_6g) = 0%nat
  /\ declared_contrasts (internal ≫= layer_params fmt_6g) = [].
Proof.
  induction internal as [|L internal (IH1 & IH2 & IH3)]; [repeat split|].
  cbn [mbind list_bind]. change (mbind ?f internal) with (internal ≫= f).
  rewrite declared_params_app, declared_scalefactors_app, declared_contrasts_app.
  rewrite IH1, IH2, IH3. unfold layer_params, fmt_span.
  destruct (_span (l_thickness L) (3 # 10)) as [[? ?] ?].
  destruct (_span (l_sld L) (2 # 10)) as [[? ?] ?].
  destruct (_span (l_roughness L) (5 # 10)) as [[? ?] ?].
  repeat split.
Qed.

Lemma bilayer_params_declared j0 (bilayer_specs : list bilayer_spec) :
  declared_params (for_bilayers j0 bilayer_specs)
  = numbered (fun j _ => bilayer_param_names j) j0 bilayer_specs
  /\ declared_scalefactors (for_bilayers j0 bilayer_specs) = 0%nat
  /\ declared_contrasts (for_bilayers j0 bilayer_specs) = [].
Proof.
  revert j0. induction bilayer_specs as [|bl bls IH]; intros j0; [repeat split|].
  cbn [for_bilayers numbered].
  rewrite declared_params_app, declared_scalefactors_app, declared_contrasts_app.
  destruct (IH (S j0)) as (-> & -> & ->). repeat split.
Qed.

Lemma bulk_lines_declare_nothing (lines : list dline) :
  Forall (fun l => match l with DAddBulk _ _ _ _ _ => True | _ => False end) lines ->
  declared_params lines = [] /\ declared_scalefactors lines = 0%nat
  /\ declared_contrasts lines = [].
Proof.
  induction 1 as [|l lines Hl _ (IH1 & IH2 & IH3)]; [repeat split|].
  destruct l; try contradiction. repeat split; assumption.
Qed.

Lemma contrast_blocks_declared i names (ins outs : list pystr) blocks :
  contrast_blocks i names ins outs = Ok blocks ->
  declared_params blocks = [] /\ declared_scalefactors blocks = 0%nat
  /\ declared_contrasts blocks = sanitize <$> names.
Proof.
  revert i blocks. induction names as [|cname names IH]; intros i blocks; cbn.
  - intros [= <-]. repeat split.
  - destruct (ins !! (i - 1)%nat); [|discriminate].
    destruct (outs !! (i - 1)%nat); [|discriminate].
    destruct (contrast_blocks (S i) names ins outs) as [bs|] eqn:E; [|discriminate].
    cbn. intros [= <-]. destruct (IH _ _ E) as (H1 & H2 & H3).
    split; [exact H1|]. split; [exact H2|].
    change (sanitize cname :: declared_contrasts bs = sanitize cname :: (sanitize <$> names)).
    now rewrite H3.
Qed.

(** What a driver script declares. *)
Lemma driver_declarations base bulk_ins bulk_outs first rest ort_file
    contrast_names bilayer_specs lines :
  emit_matlab_driver fmt_6g as_posix base bulk_ins bulk_outs (first :: rest) ort_file
    contrast_names bilayer_specs = Some (Ok lines) ->
  declared_params lines
  = (slice_1_m1 first ≫= (fun L => layer_param_names (driver_layer_name L)))
    ++ numbered (fun j _ => bilayer_param_names j) 1 bilayer_specs
  /\ declared_scalefactors lines = 1%nat
  /\ declared_contrasts lines = sanitize <$> contrast_names.
Proof.
  unfold emit_matlab_driver.
  destruct (declare_bulks_lengths fmt_6g bulk_ins bulk_outs)
    as (bulk_lines & ns_in & ns_out & -> & _ & _ & Hbulk).
  cbn [mbind option_bind].
  destruct (contrast_blocks 1 contrast_names ns_in ns_out) as [blocks|] eqn:E;
    cbn [mbind result_bind]; [|discriminate].
  intros [= <-].
  destruct (layer_params_declared (slice_1_m1 first)) as (L1 & L2 & L3).
  destruct (bilayer_params_declared 1 bilayer_specs) as (B1 & B2 & B3).
  destruct (bulk_lines_declare_nothing _ Hbulk) as (D1 & D2 & D3).
  destruct (contrast_blocks_declared _ _ _ _ _ E) as (C1 & C2 & C3).
  unfold declared_params, declared_scalefactors, declared_contrasts in *.
  cbn [app omap list_omap]. rewrite !omap_app, !length_app.
  rewrite L1, L2, L3, B1, B2, B3.
  repeat first [ progress cbn [app omap list_omap length]
               | rewrite omap_app | rewrite length_app
               | rewrite D1 | rewrite D2 | rewrite D3
               | rewrite C1 | rewrite C2 | rewrite C3 ].
  rewrite !app_nil_r. repeat split.
Qed.

(** The bounds of the parameter group. *)
Lemma _span_window (val frac : Q) :
  window frac val (_span val frac).1.1 (_span val frac).1.2 (_span val frac).2.
Proof.
  unfold _span, near_zero, window.
  destruct (Qle_bool (1 # 1000000000000) (Qabs val)) eqn:E; cbn [negb fst snd].
  - right. apply Qle_bool_iff in E. split; [exact E|]. split; [reflexivity|].
    set (a := val * (1 - frac)). set (b := val * (1 + frac)).
    split; [apply Qle_trans with a; [apply Q.le_min_l | apply Q.le_max_l]|].
    destruct (Q.min_spec a b) as [[Hlt Hmin]|[Hle Hmin]],
             (Q.max_spec a b) as [[Hlt' Hmax]|[Hle' Hmax]].
    + left. split; assumption.
    + exfalso. apply (Qlt_irrefl a). now apply Qlt_le_trans with b.
    + exfalso. apply (Qlt_irrefl a). now apply Qlt_le_trans with b.
    + right. split; assumption.
  - left. split; [|repeat split; reflexivity].
    apply Qnot_le_lt. intros H. apply Qle_bool_iff in H. congruence.
Qed.

Lemma fmt_span_printed (val frac : Q) :
  printed_window fmt_6g frac val (fmt_span fmt_6g (_span val frac)).
Proof.
  pose proof (_span_window val frac) as H.
  destruct (_span val frac) as [[lo mid] hi]. exists lo, mid, hi. split; [exact H | reflexivity].
Qed.

Lemma declared_bounds_app l1 l2 :
  declared_bounds (l1 ++ l2) = declared_bounds l1 ++ declared_bounds l2.
Proof. apply omap_app. Qed.

Lemma layer_params_bounds (L : layer) :
  layer_bounds fmt_6g L (declared_bounds (layer_params fmt_6g L)).
Proof.
  unfold layer_params.
  pose proof (fmt_span_printed (l_thickness L) (3 # 10)) as Ht.
  pose proof (fmt_span_printed (l_sld L) (2 # 10)) as Hs.
  pose proof (fmt_span_printed (l_roughness L) (5 # 10)) as Hr.
  destruct (fmt_span fmt_6g (_span (l_thickness L) (3 # 10))) as [[tmin tval] tmax].
  destruct (fmt_span fmt_6g (_span (l_sld L) (2 # 10))) as [[smin sval] smax].
  destruct (fmt_span fmt_6g (_span (l_roughness L) (5 # 10))) as [[rmin rval] rmax].
  eexists _, _, _. split; [reflexivity|]. auto.
Qed.

Lemma layers_bounds (internal : list layer) :
  exists groups,
    Forall2 (layer_bounds fmt_6g) internal groups
    /\ declared_bounds (internal ≫= layer_params fmt_6g) = concat groups.
Proof.
  induction internal as [|L internal (groups & Hall & Hcat)].
  - exists []. split; [constructor | reflexivity].
  - exists (declared_bounds (layer_params fmt_6g L) :: groups). split.
    + constructor; [apply layer_params_bounds | exact Hall].
    + cbn [mbind list_bind concat]. change (mbind ?f internal) with (internal ≫= f).
      now rewrite declared_bounds_app, Hcat.
Qed.

Lemma bilayers_bounds j0 (bilayer_specs : list bilayer_spec) :
  declared_bounds (for_bilayers j0 bilayer_specs)
  = bilayer_specs ≫= (fun _ => bilayer_bounds).
Proof.
  revert j0. induction bilayer_specs as [|bl bls IH]; intros j0; [reflexivity|].
  cbn [for_bilayers mbind list_bind]. rewrite declared_bounds_app, IH. reflexivity.
Qed.

Lemma no_params_no_bounds (lines : list dline) :
  declared_params lines = [] -> declared_bounds lines = [].
Proof.
  induction lines as [|l lines IH]; [reflexivity|].
  destruct l; cbn; try exact IH. discriminate.
Qed.

Lemma driver_bounds base bulk_ins bulk_outs first rest ort_file
    contrast_names bilayer_specs lines :
  emit_matlab_driver fmt_6g as_posix base bulk_ins bulk_outs (first :: rest) ort_file
    contrast_names bilayer_specs = Some (Ok lines) ->
  exists groups,
    Forall2 (layer_bounds fmt_6g) (slice_1_m1 first) groups
    /\ declared_bounds lines
       = concat groups ++ (bilayer_specs ≫= (fun _ => bilayer_bounds)).
Proof.
  unfold emit_matlab_driver.
  destruct (declare_bulks_lengths fmt_6g bulk_ins bulk_outs)
    as (bulk_lines & ns_in & ns_out & -> & _ & _ & Hbulk).
  cbn [mbind option_bind].
  destruct (contrast_blocks 1 contrast_names ns_in ns_out) as [blocks|] eqn:E;
    cbn [mbind result_bind]; [|discriminate].
  intros [= <-].
  destruct (layers_bounds (slice_1_m1 first)) as (groups & Hall & Hcat).
  exists groups. split; [exact Hall|].
  destruct (bulk_lines_declare_nothing _ Hbulk) as (D1 & _ & _).
  destruct (contrast_blocks_declared _ _ _ _ _ E) as (C1 & _ & _).
  apply no_params_no_bounds in D1, C1.
  pose proof (bilayers_bounds 1 bilayer_specs) as B1.
  unfold declared_bounds in *.
  repeat first [ progress cbn [app omap list_omap]
               | rewrite omap_app | rewrite Hcat | rewrite B1 | rewrite D1 | rewrite C1 ].
  now rewrite !app_nil_r.
Qed.

(** What the model function reads. *)
Lemma unpack_layers_reads i0 (layers : list layer) :
  reads (for_each (unpack_layer nfkd) i0 layers)
  = numbered (fun i _ => layer_vars i) i0 layers.
Proof.
  revert i0. induction layers as [|L layers IH]; intros i0; [reflexivity|].
  cbn [for_each numbered]. rewrite reads_app, IH. reflexivity.
Qed.

Lemma unpack_bilayers_reads j0 (bilayers : list bilayer_spec) :
  reads (for_each (unpack_bilayer nfkd) j0 bilayers)
  = numbered (fun j _ => bilayer_vars j) j0 bilayers.
Proof.
  revert j0. induction bilayers as [|bl bls IH]; intros j0; [reflexivity|].
  cbn [for_each numbered]. rewrite reads_app, IH. reflexivity.
Qed.

Lemma no_reads_in {A} (body : nat -> A -> list mline) i0 (xs : list A) :
  (forall i x, reads (body i x) = []) -> reads (for_each body i0 xs) = [].
Proof.
  intros H. revert i0. induction xs as [|x xs IH]; intros i0; [reflexivity|].
  cbn [for_each]. now rewrite reads_app, H, IH.
Qed.

Lemma model_reads base (layers : list layer) (bilayers : list bilayer_spec) :
  reads (emit_matlab_model nfkd fmt_6g base layers bilayers)
  = subRough :: numbered (fun i _ => layer_vars i) 1 layers
             ++ numbered (fun j _ => bilayer_vars j) 1 bilayers.
Proof.
  unfold emit_matlab_model. rewrite !reads_app.
  rewrite unpack_layers_reads, unpack_bilayers_reads.
  rewrite !no_reads_in by reflexivity.
  replace (reads (match bilayers with
                  | [] => []
                  | _ :: _ => _ :: for_each (bilayer_constants nfkd fmt_6g) 1 bilayers
                  end)) with (@nil mvar).
  - cbn. now rewrite !app_nil_r.
  - destruct bilayers; [reflexivity|].
    change (reads (?c :: ?l)) with (reads [c] ++ reads l).
    now rewrite no_reads_in by reflexivity.
Qed.

Lemma numbered_length {A B} (f : nat -> A -> list B) n i0 (xs : list A) :
  (forall i x, length (f i x) = n) -> length (numbered f i0 xs) = (n * length xs)%nat.
Proof.
  intros H. revert i0. induction xs as [|x xs IH]; intros i0; cbn; [lia|].
  rewrite length_app, H, IH. lia.
Qed.

Lemma layer_roles_agree i0 (internal : list layer) :
  Forall2 same_role
    (internal ≫= (fun L => layer_param_names (driver_layer_name L)))
    (numbered (fun i _ => layer_vars i) i0 internal).
Proof.
  revert i0. induction internal as [|L internal IH]; intros i0; [constructor|].
  cbn. repeat (constructor; [reflexivity|]). apply IH.
Qed.

Lemma bilayer_roles_agree j0 (bilayers : list bilayer_spec) :
  Forall2 same_role
    (numbered (fun j _ => bilayer_param_names j) j0 bilayers)
    (numbered (fun j _ => bilayer_vars j) j0 bilayers).
Proof.
  revert j0. induction bilayers as [|bl bls IH]; intros j0; [constructor|].
  cbn. repeat (constructor; [split; reflexivity|]). apply IH.
Qed.

Lemma layer_names_length (internal : list layer) :
  length (internal ≫= (fun L => layer_param_names (driver_layer_name L)))
  = (3 * length internal)%nat.
Proof.
  induction internal as [|L ls IH]; [reflexivity|].
  cbn [mbind list_bind length] in *. rewrite length_app, IH. cbn. lia.
Qed.

Lemma slice_1_m1_length {A} (l : list A) :
  length (slice_1_m1 l) = (length l - 2)%nat.
Proof. unfold slice_1_m1. rewrite length_drop, length_take. lia. Qed.

End OrderFacts.

(** C1 (as the code has it). The driver's parameter group holds, in the
    order in which the model function reads them, three bounded parameters
    per internal layer of the first contrast and then five per bilayer; with
    the one scale factor that makes [3 L + 5 B + 1] declarations. A layer's
    thickness, SLD and roughness are declared with the bounds
    [val * (1 - f)] and [val * (1 + f)], the smaller one first, for [f] 0.3,
    0.2 and 0.5, and with [-1e-6], [0], [1e-6] for a value within [1e-12]
    of zero, each number written with six significant digits; a bilayer's
    five with fixed bounds. The script declares no substrate-roughness
    parameter: the model function reads [1 + 3 L + 5 B] scalars, the first
    of them the substrate roughness and the others the declared parameters,
    one for one. *)
Theorem C1_parameter_declarations (nfkd as_posix : pystr -> pystr) (fmt_6g : Q -> Q)
    (base : pystr) (bulk_ins bulk_outs : list bulk) (first : list layer)
    (rest : list (list layer)) (ort_file : pystr) (contrast_names : list pystr)
    (bilayer_specs : list bilayer_spec) (lines : list dline) :
  emit_matlab_driver fmt_6g as_posix base bulk_ins bulk_outs (first :: rest) ort_file
    contrast_names bilayer_specs = Some (Ok lines) ->
  let internal := slice_1_m1 first in
  let model := emit_matlab_model nfkd fmt_6g base internal bilayer_specs in
  let n := (3 * length internal + 5 * length bilayer_specs)%nat in
  length internal = (length first - 2)%nat
  /\ declared_params lines
     = (internal ≫= (fun L => layer_param_names (driver_layer_name L)))
       ++ numbered (fun j _ => bilayer_param_names j) 1 bilayer_specs
  /\ (exists groups,
        Forall2 (layer_bounds fmt_6g) internal groups
        /\ declared_bounds lines
           = concat groups ++ (bilayer_specs ≫= (fun _ => bilayer_bounds)))
  /\ length (declared_params lines) = n
  /\ declared_scalefactors lines = 1%nat
  /\ reads model
     = subRough :: numbered (fun i _ => layer_vars i) 1 internal
                ++ numbered (fun j _ => bilayer_vars j) 1 bilayer_specs
  /\ length (reads model) = S n
  /\ Forall2 same_role (declared_params lines) (tail (reads model))
  /\ (forall params bulkOut contrast b,
        (S n <= length params)%nat ->
        (bilayer_specs <> [] -> index1 bulkOut contrast = Some b) ->
        scalars_read params bulkOut contrast model = Some (S n)).
Proof.
  intros Hrun. cbv zeta.
  destruct (driver_declarations as_posix fmt_6g _ _ _ _ _ _ _ _ _ Hrun) as (Hp & Hs & _).
  pose proof (model_reads nfkd fmt_6g base (slice_1_m1 first) bilayer_specs) as Hr.
  split; [apply slice_1_m1_length|]. split; [exact Hp|].
  split; [exact (driver_bounds as_posix fmt_6g _ _ _ _ _ _ _ _ _ Hrun)|].
  assert (length (declared_params lines)
          = (3 * length (slice_1_m1 first) + 5 * length bilayer_specs)%nat) as Hlen.
  { rewrite Hp, length_app.
    rewrite (numbered_length _ 5), layer_names_length by reflexivity. lia. }
  split; [exact Hlen|]. split; [exact Hs|]. split; [exact Hr|]. split.
  { rewrite Hr. cbn [length]. rewrite length_app.
    rewrite !(numbered_length _ 3), !(numbered_length _ 5) by reflexivity; lia. }
  split.
  { rewrite Hr, Hp. cbn [tail]. apply Forall2_app.
    - apply layer_roles_agree.
    - apply bilayer_roles_agree. }
  intros params bulkOut contrast b Hparams Hb.
  destruct (exec_model nfkd fmt_6g params bulkOut contrast base (slice_1_m1 first)
              bilayer_specs b) as (w & Hw & Hidx & _); [lia | exact Hb |].
  unfold scalars_read. rewrite Hw. cbn [mbind option_bind]. rewrite Hidx.
  cbn [mbind option_bind]. f_equal; lia.
Qed.

(** One contrast with two internal layers, the second of thickness zero
    and of negative SLD, and one bilayer; the numbers are printed exactly. *)
Lemma C1_parameter_declarations_witness :
  exists lines,
    emit_matlab_driver Qred (fun s => s) (py "m")
      [Bulk (py "Si") (207 # 100000000)] [Bulk (py "D2O") (636 # 100000000)]
      [Samples.two_layer_contrast] (py "m.ort") [py "c1"] [Samples.dppc_bilayer]
    = Some (Ok lines)
    /\ declared_params lines
       = layer_param_names (py "SiO2") ++ layer_param_names (py "CH2")
         ++ bilayer_param_names 1
    /\ declared_bounds lines
       = ((fun b => (Qred b.1.1, Qred b.1.2, Qred b.2))
          <$> [ (7, 10, 13);
                (2776 # 1000000000, 3470 # 1000000000, 4164 # 1000000000);
                (2, 4, 6);
                (- (1 # 1000000), 0, 1 # 1000000);
                (- (6 # 10000000), - (5 # 10000000), - (4 # 10000000));
                (15 # 10, 3, 45 # 10) ])
         ++ bilayer_bounds
    /\ (exists groups,
          Forall2 (layer_bounds Qred) (slice_1_m1 Samples.two_layer_contrast) groups
          /\ declared_bounds lines = concat groups ++ bilayer_bounds)
    /\ declared_scalefactors lines = 1%nat
    /\ reads (emit_matlab_model (fun s => s) Qred (py "m")
                (slice_1_m1 Samples.two_layer_contrast) [Samples.dppc_bilayer])
       = subRough :: layer_vars 1 ++ layer_vars 2 ++ bilayer_vars 1
    /\ scalars_read Samples.twelve_params [636 # 100000000] 1
         (emit_matlab_model (fun s => s) Qred (py "m")
            (slice_1_m1 Samples.two_layer_contrast) [Samples.dppc_bilayer])
       = Some 12%nat.
Proof.
  eexists. split; [vm_compute; reflexivity|].
  match goal with
  | |- context [declared_params ?ls] =>
      destruct (C1_parameter_declarations (fun s => s) (fun s => s) Qred (py "m")
                  [Bulk (py "Si") (207 # 100000000)] [Bulk (py "D2O") (636 # 100000000)]
                  Samples.two_layer_contrast [] (py "m.ort") [py "c1"]
                  [Samples.dppc_bilayer] ls ltac:(vm_compute; reflexivity))
        as (_ & Hp & Hb & _ & Hs & Hr & _ & _ & Hread)
  end.
  split; [exact Hp|]. split; [vm_compute; reflexivity|].
  split; [exact Hb|]. split; [exact Hs|]. split; [exact Hr|].
  apply (Hread Samples.twelve_params [636 # 100000000] 1%nat (636 # 100000000));
    [simpl; lia | reflexivity].
Defined.

(** C1, the claim as stated fails: for one internal layer and one bilayer
    the script declares 8 parameters and the scale factor, 9 and not
    [1 + 3 + 5 + 1]; the first declared is the layer's thickness and none is
    a substrate roughness; the model function reads 9 scalars, one more than
    the 8 declared without the scale factor. *)
Lemma C1_substrate_roughness_not_declared :
  exists lines,
    emit_matlab_driver (fun q => q) (fun s => s) (py "m")
      [Bulk (py "Si") (207 # 100000000)] [Bulk (py "D2O") (636 # 100000000)]
      [Samples.one_layer_contrast] (py "m.ort") [py "c1"] [Samples.dppc_bilayer]
    = Some (Ok lines)
    /\ length (slice_1_m1 Samples.one_layer_contrast) = 1%nat
    /\ (length (declared_params lines) + declared_scalefactors lines)%nat = 9%nat
    /\ (1 + 3 * 1 + 5 * 1 + 1)%nat = 10%nat
    /\ declared_params lines = layer_param_names (py "SiO2") ++ bilayer_param_names 1
    /\ length (reads (emit_matlab_model (fun s => s) (fun q => q) (py "m")
                        (slice_1_m1 Samples.one_layer_contrast) [Samples.dppc_bilayer]))
       = 9%nat
    /\ length (declared_params lines) = 8%nat.
Proof.
  eexists. split; [vm_compute; reflexivity|]. repeat split.
Qed.

(** ** Names in the generated text *)

Section NameFacts.

Lemma word_is_ascii c : is_word c = true -> is_ascii c = true.
Proof.
  unfold is_word, is_ascii. intros H.
  rewrite !orb_true_iff, !andb_true_iff, !N.leb_le, N.eqb_eq in H.
  apply N.ltb_lt. lia.
Qed.

Lemma filter_ascii_only s : ascii_only (filter (fun c => is_ascii c = true) s).
Proof.
  unfold ascii_only. apply Forall_forall. intros c Hc.
  now apply list_elem_of_filter in Hc as [Hc _].
Qed.

Lemma collapse_ws_from_spaced in_run s :
  single_spaced (collapse_ws_from in_run s)
  /\ (in_run = true -> starts_clean (collapse_ws_from in_run s)).
Proof.
  revert in_run. induction s as [|c s IH]; intros in_run; [split; [exact I | intros; exact I]|].
  cbn [collapse_ws_from]. destruct (is_space c) eqn:E.
  - destruct (IH true) as [Hs Hc]. destruct in_run; cbn [app].
    + split; [exact Hs | intros _; now apply Hc].
    + split; [|discriminate]. cbn [single_spaced]. split; [|exact Hs].
      intros _. split; [reflexivity | now apply Hc].
  - destruct (IH false) as [Hs _]. split.
    + cbn [single_spaced]. split; [|exact Hs]. intros H. congruence.
    + intros _. exact E.
Qed.

Lemma single_spaced_suffix a s : single_spaced (a ++ s) -> single_spaced s.
Proof. induction a as [|c a IH]; [auto|]. intros [_ H]. now apply IH. Qed.

Lemma starts_clean_prefix s b : starts_clean (s ++ b) -> s <> [] -> starts_clean s.
Proof. destruct s; [congruence | auto]. Qed.

Lemma single_spaced_prefix s b : single_spaced (s ++ b) -> single_spaced s.
Proof.
  induction s as [|c s IH]; [intros; exact I|].
  cbn [app single_spaced]. intros [Hc Hs]. split; [|now apply IH].
  intros Hsp. destruct (Hc Hsp) as [-> Hclean]. split; [reflexivity|].
  destruct s; [exact I | exact Hclean].
Qed.

Lemma strip_single_spaced s : single_spaced s -> single_spaced (strip s).
Proof.
  intros H. destruct (strip_split s) as (a & b & Hs & _).
  rewrite Hs in H. apply single_spaced_suffix in H. now apply single_spaced_prefix in H.
Qed.



Lemma sanitize_from_words in_run s : word_only (sanitize_from in_run s).
Proof.
  revert in_run. induction s as [|c s IH]; intros in_run; [constructor|].
  cbn [sanitize_from]. destruct (is_word c) eqn:E.
  - constructor; [exact E | apply IH].
  - destruct in_run; cbn [app]; [apply IH|]. constructor; [reflexivity | apply IH].
Qed.

Lemma word_only_clean s : word_only s -> ascii_only s /\ single_spaced s.
Proof.
  induction 1 as [|c s Hc _ [IHa IHs]]; [split; [constructor | exact I]|].
  split; [constructor; [now apply word_is_ascii | exact IHa]|].
  cbn [single_spaced]. split; [|exact IHs].
  intros Hsp. apply word_not_space in Hc. congruence.
Qed.

Lemma partition_identifiers tokens bs kept :
  token_partition tokens bs kept ->
  Forall (fun tok => identifier (inner tok) /\ identifier (outer tok)) bs.
Proof.
  induction 1 as [|t g1 g2 ts bs kept Hs _ IH|]; [constructor| |assumption].
  constructor; [|exact IH]. destruct Hs. cbn. auto.
Qed.

End NameFacts.


Lemma clean_comment_ascii (nfkd : pystr -> pystr) (s : pystr) :
  ascii_only (clean_comment nfkd s).
Proof. apply filter_ascii_only. Qed.

Lemma driver_layer_name_spaced (L : layer) :
  single_spaced (driver_layer_name L) /\ stripped (driver_layer_name L).
Proof.
  unfold driver_layer_name. split.
  - apply strip_single_spaced, collapse_ws_from_spaced.
  - apply strip_stripped.
Qed.

Lemma word_only_no_space (s : pystr) :
  word_only s -> ascii_only s /\ single_spaced s /\ Forall (fun c => is_space c = false) s.
Proof.
  intros Hs. destruct (word_only_clean s Hs) as [Ha Hsp].
  split; [exact Ha|]. split; [exact Hsp|].
  eapply Forall_impl; [exact Hs|]. intros c. apply word_not_space.
Qed.

Lemma bilayer_names_identifiers (stack : pystr) (tok : bilayer_token) :
  tok ∈ (extract_bilayers_from_model stack).1 ->
  word_only (inner tok) /\ inner tok <> [] /\ word_only (outer tok) /\ outer tok <> [].
Proof.
  intros Htok. rewrite extract_unfold in Htok. cbn [fst] in Htok.
  pose proof (partition_identifiers _ _ _ (scan_tokens_partition (tokenize stack))) as H.
  rewrite Forall_forall in H. destruct (H tok Htok) as [[Hi Hin] [Ho Hon]]. auto.
Qed.

(** C9. For layer names the emitters do not do what the claim says, and
    what the docstring of [normalize_param_name] says, which no emitter
    calls. For a first contrast whose internal layer is named
    U+00E9, two spaces, [x] (NFKD: [e], U+0301, two spaces, [x]),
    [normalize_param_name] gives [e x]; the driver declares the layer's
    parameters under the name U+00E9, one space, [x], which is not ASCII; the
    model function names the layer [e  x] in its comment, with both
    spaces. *)
Theorem C9_layer_names_not_normalized :
  let name := [233; 32; 32; 120]%N in
  let first := [Layer (py "Si") 0 (207 # 100000000) 3;
                Layer name 10 (347 # 100000000) 4;
                Layer (py "D2O") 0 (636 # 100000000) 3] in
  Samples.nfkd_e_acute name = [101; 769; 32; 32; 120]%N
  /\ normalize_param_name Samples.nfkd_e_acute name = py "e x"
  /\ (exists lines,
        emit_matlab_driver (fun q => q) (fun s => s) (py "m")
          [Bulk (py "Si") (207 # 100000000)] [Bulk (py "D2O") (636 # 100000000)]
          [first] (py "m.ort") [py "c1"] []
        = Some (Ok lines)
        /\ declared_params lines = layer_param_names [233; 32; 120]%N
        /\ param_text <$> declared_params lines
           = [ [233; 32; 120]%N ++ py " thickness";
               [233; 32; 120]%N ++ py " SLD";
               [233; 32; 120]%N ++ py " rough" ]
        /\ Forall (fun n => forallb is_ascii (param_text n) = false) (declared_params lines))
  /\ emit_matlab_model Samples.nfkd_e_acute (fun q => q) (py "m") (slice_1_m1 first) []
     !! 5%nat
     = Some (MComment (py "% Layer 1: e  x")).
Proof.
  cbv zeta. split; [reflexivity|]. split; [reflexivity|]. split; [|reflexivity].
  eexists. split; [vm_compute; reflexivity|].
  split; [reflexivity|]. split; [reflexivity|]. repeat constructor.
Qed.

(** C10. When a contrast is skipped (no model, the resolver fails, or fewer
    than two layers come back) in a run that still has a usable contrast, the
    extractor has recorded a name for every contrast but bulk media only for
    the usable ones: the name list is strictly longer than the bulk lists.
    The driver emitter then reads [bulk_in_names] past its end and raises
    [IndexError]: the run ends there, with the model file written and no
    driver. *)
Theorem C10_skipped_contrast_breaks_driver
    (nfkd lower as_posix : pystr -> pystr) (fmt_6g : Q -> Q)
    (molgroups : option lipid_table) (name ort_name : pystr)
    (orso_data : list dataset) (x : extracted) :
  process_orso_file lower molgroups orso_data = Ok x ->
  (exists ds, ds ∈ orso_data /\ skipped ds = true) ->
  length (x_contrast_names x) = length orso_data
  /\ length (x_bulk_ins x) = length (x_bulk_outs x)
  /\ (1 <= length (x_bulk_ins x) < length (x_contrast_names x))%nat
  /\ (forall base ort_file,
        emit_matlab_driver fmt_6g as_posix base (x_bulk_ins x) (x_bulk_outs x)
          (x_layers_all x) ort_file (x_contrast_names x) (x_bilayer_specs x)
        = Some (Raise (IndexError "bulk_in_names")))
  /\ exists model_file,
       main nfkd lower as_posix fmt_6g molgroups name ort_name orso_data
       = Some (Run [DataCopy (py "data/" ++ ort_name); ModelFile model_file.1 model_file.2]
                 (Raise (IndexError "bulk_in_names"))).
Proof.
  intros Hx Hskip.
  pose proof (process_datasets_lengths lower 1 orso_data extraction_start) as Hlen.
  cbv zeta in Hlen. cbn [extraction_start contrast_names bulk_ins bulk_outs layers_all length] in Hlen.
  destruct Hlen as (Hn & Hi & Ho & Hl).
  pose proof (filter_skipped_shorter orso_data Hskip) as Hlt.
  assert (x_layers_all x = layers_all (process_datasets lower 1 orso_data extraction_start)
          /\ x_bulk_ins x = bulk_ins (process_datasets lower 1 orso_data extraction_start)
          /\ x_bulk_outs x = bulk_outs (process_datasets lower 1 orso_data extraction_start)
          /\ x_contrast_names x
             = contrast_names (process_datasets lower 1 orso_data extraction_start)
          /\ layers_all (process_datasets lower 1 orso_data extraction_start) <> [])
    as (Hxl & Hxi & Hxo & Hxn & Hne).
  { unfold process_orso_file in Hx.
    destruct (layers_all (process_datasets lower 1 orso_data extraction_start)) eqn:E;
      [discriminate|].
    destruct (build_bilayer_specs molgroups _); cbn in Hx; [|discriminate].
    injection Hx as <-. cbn. repeat split. discriminate. }
  assert (1 <= length (x_bulk_ins x))%nat as Hpos.
  { rewrite Hxi, Hi, <- Hl.
    destruct (layers_all (process_datasets lower 1 orso_data extraction_start));
      [congruence | cbn; lia]. }
  assert (forall base ort_file,
            emit_matlab_driver fmt_6g as_posix base (x_bulk_ins x) (x_bulk_outs x)
              (x_layers_all x) ort_file (x_contrast_names x) (x_bilayer_specs x)
            = Some (Raise (IndexError "bulk_in_names"))) as Hdriver.
  { intros base ort_file. unfold emit_matlab_driver.
    destruct (x_layers_all x) as [|first rest] eqn:E; [congruence|].
    destruct (declare_bulks_lengths fmt_6g (x_bulk_ins x) (x_bulk_outs x))
      as (lines & ns_in & ns_out & -> & Hli & Hlo & _).
    cbn [mbind option_bind].
    rewrite contrast_blocks_short; [reflexivity | lia | lia | cbn; lia |].
    rewrite Hli, Hxi, Hxo, Hxn, Hi, Ho, Hn. lia. }
  split; [now rewrite Hxn, Hn|].
  split; [now rewrite Hxi, Hxo, Hi, Ho|].
  split; [rewrite Hxn, Hn; rewrite Hxi, Hi in *; lia|].
  split; [exact Hdriver|].
  unfold main. cbv zeta. rewrite Hx.
  destruct (x_layers_all x) as [|first rest] eqn:E; [congruence|].
  rewrite Hdriver. cbn [mbind option_bind]. eexists (_, _). reflexivity.
Qed.

(** A run over a dataset without a model and a usable one. *)
Lemma C10_skipped_contrast_breaks_driver_witness :
  is_Ok (process_orso_file ascii_lower None [Samples.ds_no_model; Samples.ds_plain]) = true
  /\ skipped Samples.ds_no_model = true
  /\ outcome <$> main (fun s => s) ascii_lower (fun s => s) (fun q => q) None
                    (py "run") (py "run.ort") [Samples.ds_no_model; Samples.ds_plain]
     = Some (Raise (IndexError "bulk_in_names")).
Proof.
  split; [reflexivity|]. split; [reflexivity|].
  destruct (process_orso_file ascii_lower None [Samples.ds_no_model; Samples.ds_plain])
    as [x|e] eqn:E; [|discriminate E].
  destruct (C10_skipped_contrast_breaks_driver (fun s => s) ascii_lower (fun s => s)
              (fun q => q) None (py "run") (py "run.ort")
              [Samples.ds_no_model; Samples.ds_plain] x E)
    as (_ & _ & _ & _ & model_file & ->).
  - exists Samples.ds_no_model. split; [|reflexivity].
    apply elem_of_cons. now left.
  - reflexivity.
Defined.

(** * Further properties of the code *)

(** ** File names *)

Section TrimFacts.
Implicit Types (p : pychar -> bool) (s t : pystr).





Lemma trim_all p s : Forall (fun c => p c = true) s -> trim p s = [].
Proof.
  intros H. unfold trim. rewrite <- (app_nil_r s), drop_while_all by exact H. reflexivity.
Qed.





End TrimFacts.


(** ** Stack tokens *)


(** ** Layers *)

Section ExtractLayerFacts.


End ExtractLayerFacts.


(** ** Contrast names *)

Section LabelFacts.



End LabelFacts.





(** ** Bulk names *)

Section BulkNameFacts.
Variable lower : pystr -> pystr.



End BulkNameFacts.


Section UniqueLeast.


End UniqueLeast.


(** ** Parameter bounds *)

Section SpanOrder.



End SpanOrder.


(** ** The generated function *)



Section ReadsInRange.
Variables (nfkd : pystr -> pystr) (fmt_6g : Q -> Q).
Variables (params bulkOut : list Q) (contrast : nat).






End ReadsInRange.



(** ** The driver script and the whole run *)

Section DriverRuns.
Variables (nfkd lower as_posix : pystr -> pystr) (fmt_6g : Q -> Q).







End DriverRuns.


Section WholeRunFacts.
Variables (nfkd lower as_posix : pystr -> pystr) (fmt_6g : Q -> Q).






End WholeRunFacts.



